(** * Block layout and outline drawing of the Blockly renderers

    A shallow embedding of the measurement pass
    ([Blockly.blockRendering.RenderInfo]), of the base [Measurable]
    classification predicates, of the Zelos corner Measurables, of the Zelos
    [ConstantProvider.shapeFor] and of the top/bottom walks of the Drawer,
    followed by the properties of the layout that the specification states.

    Conventions.
    - Lengths are JavaScript numbers (doubles) in the source; they are
      integers here ([Z]), except [centerline], which halves a height and
      is a rational. What is proved is therefore proved of blocks whose
      lengths are integers (of a size below 2^53), on which the additions,
      subtractions and maxima of the source are exact. With fractional
      lengths an addition of the source may round, so that
      [w + (d - w)] need not be [d]; a property that rests on such a
      cancellation says that it is one of integer lengths.
    - A JavaScript object that is mutated in place and reachable from one
      place only is a value that is passed on; the two rows a RenderInfo
      holds both in [topRow]/[bottomRow] and in [rows] are kept once, and
      [rows] refers to them ([RTop], [RBottom]).
    - A thrown exception is the [Throw] completion. *)

From Stdlib Require Import ZArith List String Ascii Bool Lia QArith.
Import ListNotations.
Open Scope string_scope.
Open Scope list_scope.
Open Scope Z_scope.

(* ================================================================= *)
(** ** Completions: a returned value or a thrown exception *)

Inductive Completion (A : Type) : Type :=
| Normal (a : A)
| Throw (e : string).
Arguments Normal {A} a.
Arguments Throw {A} e.

Definition bind {A B : Type} (c : Completion A) (k : A -> Completion B)
  : Completion B :=
  match c with
  | Normal a => k a
  | Throw e => Throw e
  end.

Notation "x <- c ;; k" := (bind c (fun x => k))
  (at level 61, c at next level, right associativity).
Notation "' pat <- c ;; k" := (bind c (fun x => match x with pat => k end))
  (at level 61, pat pattern, c at next level, right associativity).

(** What reading a property of [null] or [undefined] throws. *)
Definition TypeError : string := "TypeError".

(* ================================================================= *)
(** ** JavaScript library functions used by the source *)

(** [String.prototype.indexOf]: the position of the first occurrence of
    [sub] in [s], or [-1]. *)
Fixpoint indexOfFrom (s sub : string) (i : Z) : Z :=
  if String.prefix sub s then i
  else match s with
       | EmptyString => -1
       | String _ s' => indexOfFrom s' sub (i + 1)
       end.

Definition indexOf (s sub : string) : Z := indexOfFrom s sub 0.

(** [Array.prototype.indexOf] on an array of strings. *)
Fixpoint arrayIndexOfFrom (l : list string) (x : string) (i : Z) : Z :=
  match l with
  | [] => -1
  | y :: l' => if String.eqb y x then i else arrayIndexOfFrom l' x (i + 1)
  end.

Definition arrayIndexOf (l : list string) (x : string) : Z :=
  arrayIndexOfFrom l x 0.

(* ================================================================= *)
(** ** The constant provider *)

(** A connection shape as the code under src reads it: its size and the two
    path fragments the Drawer copies. *)
Record Shape := mkShape {
  shapeWidth : Z;
  shapeHeight : Z;
  pathLeft : string;
  pathRight : string
}.

Record OutsideCorners := mkOutsideCorners {
  topLeft : string;
  topRight : string;
  bottomLeft : string;
  bottomRight : string
}.

Module ConstantProvider.
(** Modelled from the spec: the base ConstantProvider (its file is not
    under src) is "a per-style table of geometric constants"; the fields
    are the ones the code under src reads. *)
Record t := mk {
  NO_PADDING : Z;
  MEDIUM_PADDING : Z;
  LARGE_PADDING : Z;
  CORNER_RADIUS : Z;
  NOTCH_OFFSET_LEFT : Z;
  NOTCH : Shape;
  JAGGED_TEETH : Shape;
  OUTSIDE_CORNERS : OutsideCorners;
  START_HAT_path : string
}.
End ConstantProvider.

(* ================================================================= *)
(** ** Measurables (core/renderers/measurables/base.js) *)

Module Measurable.

Record t := mk {
  isInput : bool;
  width : Z;
  height : Z;
  type : option string;          (* [null] until a subclass sets it *)
  xPos : Z;
  centerline : Q;
  notchOffset : Z;
  shape : option Shape;          (* set by the connection Measurables *)
  connectedBlockWidth : Z        (* set by the input Measurables *)
}.

(** The constructor [Blockly.blockRendering.Measurable]. *)
Definition new (constants_ : ConstantProvider.t) : t :=
  {| isInput := false;
     width := 0;
     height := 0;
     type := None;
     xPos := 0;
     centerline := 0%Q;
     notchOffset := ConstantProvider.NOTCH_OFFSET_LEFT constants_;
     shape := None;
     connectedBlockWidth := 0 |}.

Definition setWidth (w : Z) (m : t) : t :=
  {| isInput := isInput m; width := w; height := height m; type := type m;
     xPos := xPos m; centerline := centerline m;
     notchOffset := notchOffset m; shape := shape m;
     connectedBlockWidth := connectedBlockWidth m |}.

Definition setPosition (x : Z) (c : Q) (m : t) : t :=
  {| isInput := isInput m; width := width m; height := height m;
     type := type m; xPos := x; centerline := c;
     notchOffset := notchOffset m; shape := shape m;
     connectedBlockWidth := connectedBlockWidth m |}.

(** [this.type == s]: false on a [null] type. *)
Definition typeIs (m : t) (s : string) : bool :=
  match type m with
  | Some ty => String.eqb ty s
  | None => false
  end.

(** [this.type.indexOf(s)]: throws on a [null] type. *)
Definition typeIndexOf (m : t) (s : string) : Completion Z :=
  match type m with
  | Some ty => Normal (indexOf ty s)
  | None => Throw TypeError
  end.

Definition isField (m : t) : bool := typeIs m "field".
Definition isHat (m : t) : bool := typeIs m "hat".
Definition isIcon (m : t) : bool := typeIs m "icon".
Definition isSpacer (m : t) : bool :=
  typeIs m "between-row spacer" || typeIs m "in-row spacer".
Definition isExternalInput (m : t) : bool := typeIs m "external value input".
Definition isInlineInput (m : t) : bool := typeIs m "inline input".
Definition isStatementInput (m : t) : bool := typeIs m "statement input".
Definition isPreviousConnection (m : t) : bool :=
  typeIs m "previous connection".
Definition isNextConnection (m : t) : bool := typeIs m "next connection".
Definition isCorner (m : t) : Completion bool :=
  i <- typeIndexOf m "corner" ;; Normal (i >? -1).
Definition isRoundedCorner (m : t) : Completion bool :=
  i <- typeIndexOf m "round corner" ;; Normal (i =? 0).
Definition isSquareCorner (m : t) : Completion bool :=
  i <- typeIndexOf m "square corner" ;; Normal (i =? 0).
Definition isRightCorner (m : t) : Completion bool :=
  i <- typeIndexOf m "corner right" ;; Normal (i >? -1).
Definition isJaggedEdge (m : t) : bool := typeIs m "jagged edge".

End Measurable.

(* ================================================================= *)
(** ** The block, as the measurement pass reads it *)

Module Blockly.

(** Modelled from the spec: the block is "a read-only view of a block's
    logical structure": an "ordered list of inputs, each with a type tag
    (value/statement/dummy), a visibility flag, an ordered list of fields,
    and optional check-type list on its connection; plus block-level flags
    ... and optional output-connection descriptor". The classes themselves
    are not under src; the records below hold what the code under src reads
    of them. *)

(** The input and connection types ([Blockly.INPUT_VALUE] and the others
    are numeric constants declared outside src; the code only compares
    them). [OTHER_TYPE] stands for any value that is none of the five. *)
Inductive ConnectionType :=
| INPUT_VALUE
| OUTPUT_VALUE
| NEXT_STATEMENT
| PREVIOUS_STATEMENT
| DUMMY_INPUT
| OTHER_TYPE.

Definition type_eqb (a b : ConnectionType) : bool :=
  match a, b with
  | INPUT_VALUE, INPUT_VALUE
  | OUTPUT_VALUE, OUTPUT_VALUE
  | NEXT_STATEMENT, NEXT_STATEMENT
  | PREVIOUS_STATEMENT, PREVIOUS_STATEMENT
  | DUMMY_INPUT, DUMMY_INPUT
  | OTHER_TYPE, OTHER_TYPE => true
  | _, _ => false
  end.

Module Connection.
(** [check_] is what [getCheck()] returns: [null] or an array of type
    names. [width] and [height] are the size of the connection's shape,
    as the connection Measurables record it. *)
Record t := mk {
  type : ConnectionType;
  check_ : option (list string);
  width : Z;
  height : Z
}.
Definition getCheck (c : t) : option (list string) := check_ c.
End Connection.

Module Field.
(** [width] and [height] are what [getSize()] returns. *)
Record t := mk {
  width : Z;
  height : Z
}.
End Field.

Module Input.
(** [width], [height] and [connectedBlockWidth] are the sizes the input's
    Measurable records (the input Measurables are not under src). *)
Record t := mk {
  type : ConnectionType;
  visible_ : bool;
  fieldRow : list Field.t;
  width : Z;
  height : Z;
  connectedBlockWidth : Z
}.
Definition isVisible (i : t) : bool := visible_ i.
End Input.

Module Icon.
Record t := mk {
  collapseHidden : bool;
  width : Z;
  height : Z
}.
End Icon.

Module Block.
(** [topElements] and [bottomElements] are the Measurables that
    [TopRow.populate] and [BottomRow.populate] add for this block. *)
Record t := mk {
  inputList : list Input.t;
  inputsInline : bool;
  collapsed_ : bool;
  insertionMarker_ : bool;
  RTL : bool;
  icons : list Icon.t;
  outputConnection : option Connection.t;
  topElements : list Measurable.t;
  bottomElements : list Measurable.t
}.
Definition getInputsInline (b : t) : bool := inputsInline b.
Definition isCollapsed (b : t) : bool := collapsed_ b.
Definition isInsertionMarker (b : t) : bool := insertionMarker_ b.
Definition getIcons (b : t) : list Icon.t := icons b.
End Block.

End Blockly.

(* ================================================================= *)
(** ** Rows *)

Module Row.

(** Modelled from the spec: the Row classes are not under src. A Row is an
    "ordered sequence of Measurable", with "aggregate width, height, yPos;
    flags (hasInlineInput, hasStatement, hasExternalInput, hasDummyInput,
    followsStatement); type tag distinguishing top/bottom/input/spacer
    rows". The fields are the ones the code under src reads or writes. *)
Record t := mk {
  type : string;
  elements : list Measurable.t;
  height : Z;
  width : Z;
  widthWithConnectedBlocks : Z;
  yPos : Z;
  xPos : Z;
  hasExternalInput : bool;
  hasStatement : bool;
  hasInlineInput : bool;
  hasDummyInput : bool;
  hasJaggedEdge : bool;
  followsStatement : bool;
  statementEdge : Z;
  startY : Z;                    (* top row *)
  overhangY : Z                  (* bottom row *)
}.

Definition setElements (els : list Measurable.t) (r : t) : t :=
  {| type := type r; elements := els; height := height r; width := width r;
     widthWithConnectedBlocks := widthWithConnectedBlocks r;
     yPos := yPos r; xPos := xPos r;
     hasExternalInput := hasExternalInput r;
     hasStatement := hasStatement r; hasInlineInput := hasInlineInput r;
     hasDummyInput := hasDummyInput r; hasJaggedEdge := hasJaggedEdge r;
     followsStatement := followsStatement r;
     statementEdge := statementEdge r; startY := startY r;
     overhangY := overhangY r |}.

Definition setWidth (w : Z) (r : t) : t :=
  {| type := type r; elements := elements r; height := height r;
     width := w; widthWithConnectedBlocks := widthWithConnectedBlocks r;
     yPos := yPos r; xPos := xPos r;
     hasExternalInput := hasExternalInput r;
     hasStatement := hasStatement r; hasInlineInput := hasInlineInput r;
     hasDummyInput := hasDummyInput r; hasJaggedEdge := hasJaggedEdge r;
     followsStatement := followsStatement r;
     statementEdge := statementEdge r; startY := startY r;
     overhangY := overhangY r |}.

Definition setSize (w : Z) (h : Z) (wc : Z) (r : t) : t :=
  {| type := type r; elements := elements r; height := h; width := w;
     widthWithConnectedBlocks := wc; yPos := yPos r; xPos := xPos r;
     hasExternalInput := hasExternalInput r;
     hasStatement := hasStatement r; hasInlineInput := hasInlineInput r;
     hasDummyInput := hasDummyInput r; hasJaggedEdge := hasJaggedEdge r;
     followsStatement := followsStatement r;
     statementEdge := statementEdge r; startY := startY r;
     overhangY := overhangY r |}.

Definition setStatementEdge (e : Z) (r : t) : t :=
  {| type := type r; elements := elements r; height := height r;
     width := width r;
     widthWithConnectedBlocks := widthWithConnectedBlocks r;
     yPos := yPos r; xPos := xPos r;
     hasExternalInput := hasExternalInput r;
     hasStatement := hasStatement r; hasInlineInput := hasInlineInput r;
     hasDummyInput := hasDummyInput r; hasJaggedEdge := hasJaggedEdge r;
     followsStatement := followsStatement r; statementEdge := e;
     startY := startY r; overhangY := overhangY r |}.

Definition setPosition (y : Z) (x : Z) (r : t) : t :=
  {| type := type r; elements := elements r; height := height r;
     width := width r;
     widthWithConnectedBlocks := widthWithConnectedBlocks r; yPos := y;
     xPos := x; hasExternalInput := hasExternalInput r;
     hasStatement := hasStatement r; hasInlineInput := hasInlineInput r;
     hasDummyInput := hasDummyInput r; hasJaggedEdge := hasJaggedEdge r;
     followsStatement := followsStatement r;
     statementEdge := statementEdge r; startY := startY r;
     overhangY := overhangY r |}.

Definition setHasExternalInput (b : bool) (r : t) : t :=
  {| type := type r; elements := elements r; height := height r;
     width := width r;
     widthWithConnectedBlocks := widthWithConnectedBlocks r;
     yPos := yPos r; xPos := xPos r; hasExternalInput := b;
     hasStatement := hasStatement r; hasInlineInput := hasInlineInput r;
     hasDummyInput := hasDummyInput r; hasJaggedEdge := hasJaggedEdge r;
     followsStatement := followsStatement r;
     statementEdge := statementEdge r; startY := startY r;
     overhangY := overhangY r |}.

Definition setHasStatement (b : bool) (r : t) : t :=
  {| type := type r; elements := elements r; height := height r;
     width := width r;
     widthWithConnectedBlocks := widthWithConnectedBlocks r;
     yPos := yPos r; xPos := xPos r;
     hasExternalInput := hasExternalInput r; hasStatement := b;
     hasInlineInput := hasInlineInput r; hasDummyInput := hasDummyInput r;
     hasJaggedEdge := hasJaggedEdge r;
     followsStatement := followsStatement r;
     statementEdge := statementEdge r; startY := startY r;
     overhangY := overhangY r |}.

Definition setHasInlineInput (b : bool) (r : t) : t :=
  {| type := type r; elements := elements r; height := height r;
     width := width r;
     widthWithConnectedBlocks := widthWithConnectedBlocks r;
     yPos := yPos r; xPos := xPos r;
     hasExternalInput := hasExternalInput r;
     hasStatement := hasStatement r; hasInlineInput := b;
     hasDummyInput := hasDummyInput r; hasJaggedEdge := hasJaggedEdge r;
     followsStatement := followsStatement r;
     statementEdge := statementEdge r; startY := startY r;
     overhangY := overhangY r |}.

Definition setHasDummyInput (b : bool) (r : t) : t :=
  {| type := type r; elements := elements r; height := height r;
     width := width r;
     widthWithConnectedBlocks := widthWithConnectedBlocks r;
     yPos := yPos r; xPos := xPos r;
     hasExternalInput := hasExternalInput r;
     hasStatement := hasStatement r; hasInlineInput := hasInlineInput r;
     hasDummyInput := b; hasJaggedEdge := hasJaggedEdge r;
     followsStatement := followsStatement r;
     statementEdge := statementEdge r; startY := startY r;
     overhangY := overhangY r |}.

Definition setHasJaggedEdge (b : bool) (r : t) : t :=
  {| type := type r; elements := elements r; height := height r;
     width := width r;
     widthWithConnectedBlocks := widthWithConnectedBlocks r;
     yPos := yPos r; xPos := xPos r;
     hasExternalInput := hasExternalInput r;
     hasStatement := hasStatement r; hasInlineInput := hasInlineInput r;
     hasDummyInput := hasDummyInput r; hasJaggedEdge := b;
     followsStatement := followsStatement r;
     statementEdge := statementEdge r; startY := startY r;
     overhangY := overhangY r |}.

Definition setFollowsStatement (b : bool) (r : t) : t :=
  {| type := type r; elements := elements r; height := height r;
     width := width r;
     widthWithConnectedBlocks := widthWithConnectedBlocks r;
     yPos := yPos r; xPos := xPos r;
     hasExternalInput := hasExternalInput r;
     hasStatement := hasStatement r; hasInlineInput := hasInlineInput r;
     hasDummyInput := hasDummyInput r; hasJaggedEdge := hasJaggedEdge r;
     followsStatement := b; statementEdge := statementEdge r;
     startY := startY r; overhangY := overhangY r |}.

(** [this.elements.push(e)]. *)
Definition push (e : Measurable.t) (r : t) : t :=
  setElements (elements r ++ [e]) r.

(** The last element of [l] that satisfies [p], as the backward loops
    [for (i = length - 1; (elem = elements[i]); i--)] find it. *)
Fixpoint findLast {A : Type} (p : A -> bool) (l : list A) : option A :=
  match l with
  | [] => None
  | x :: l' =>
      match findLast p l' with
      | Some y => Some y
      | None => if p x then Some x else None
      end
  end.

(** [l] with [f] applied, in place, to the element [findLast p l] finds. *)
Fixpoint modifyLast {A : Type} (p : A -> bool) (f : A -> A) (l : list A)
  : list A :=
  match l with
  | [] => []
  | x :: l' =>
      match findLast p l' with
      | Some _ => x :: modifyLast p f l'
      | None => if p x then f x :: l' else x :: l'
      end
  end.

Definition sumWidths (l : list Measurable.t) : Z :=
  fold_right (fun e acc => Measurable.width e + acc) 0 l.

Definition maxHeight (l : list Measurable.t) : Z :=
  fold_right (fun e acc => Z.max (Measurable.height e) acc) 0 l.

Definition sumConnectedBlockWidths (l : list Measurable.t) : Z :=
  fold_right (fun e acc => Measurable.connectedBlockWidth e + acc) 0 l.

(** Modelled from the spec: Row.measure (the file of the Row classes is not
    under src). "Each row measures its own width/height bottom-up"; "every
    Row's total measured width equals the sum of its Measurables' widths";
    the width with connected blocks "additionally accounts for attached
    child blocks' rendered width". *)
Definition measure (r : t) : t :=
  let w := sumWidths (elements r) in
  setSize w (maxHeight (elements r))
    (w + sumConnectedBlockWidths (elements r)) r.

(** Modelled from the spec: Row.getLastInput (not under src), the row's
    last input Measurable: for a statement row "its statement
    Measurable". [None] is the [null] of a row without input. *)
Definition getLastInput (r : t) : option Measurable.t :=
  findLast Measurable.isInput (elements r).

(** Modelled from the spec: Row.getLastSpacer (not under src), "the row's
    last spacer", [None] for [null]. *)
Definition getLastSpacer (r : t) : option Measurable.t :=
  findLast Measurable.isSpacer (elements r).

End Row.

(** A reference to a row object: the top row and the bottom row of the
    RenderInfo, or a row that only [rows] holds. *)
Inductive RowRef :=
| RTop
| RBottom
| ROwn (r : Row.t).

(* ================================================================= *)
(** ** Measurable and Row constructors that are not under src *)

Module blockRendering.

(** A Measurable of a subclass: the base constructor, then the fields the
    subclass sets. *)
Definition make (constants_ : ConstantProvider.t) (ty : string)
    (input : bool) (w h cw : Z) (sh : option Shape) : Measurable.t :=
  let this := Measurable.new constants_ in
  {| Measurable.isInput := input;
     Measurable.width := w;
     Measurable.height := h;
     Measurable.type := Some ty;
     Measurable.xPos := Measurable.xPos this;
     Measurable.centerline := Measurable.centerline this;
     Measurable.notchOffset := Measurable.notchOffset this;
     Measurable.shape := sh;
     Measurable.connectedBlockWidth := cw |}.

(** Modelled from the spec: the Measurable subclasses (their files are not
    under src). Each is "a typed box with width/height/position, classified
    by a discrete kind tag"; the tags are the strings base.js compares
    with, the sizes come from the block, and the input Measurables are the
    ones with [isInput] set. *)
Definition Field (c : ConstantProvider.t) (field : Blockly.Field.t)
    (input : Blockly.Input.t) : Measurable.t :=
  make c "field" false (Blockly.Field.width field)
    (Blockly.Field.height field) 0 None.

(** Modelled from the spec: the icon Measurable (kind tag "icon"). *)
Definition Icon (c : ConstantProvider.t) (icon : Blockly.Icon.t)
  : Measurable.t :=
  make c "icon" false (Blockly.Icon.width icon) (Blockly.Icon.height icon)
    0 None.

(** Modelled from the spec: the input Measurables (kind tags inline-input,
    external-input, statement-input); they are the Measurables with
    [isInput] set. *)
Definition inputMeasurable (c : ConstantProvider.t) (ty : string)
    (input : Blockly.Input.t) : Measurable.t :=
  make c ty true (Blockly.Input.width input) (Blockly.Input.height input)
    (Blockly.Input.connectedBlockWidth input) None.

Definition InlineInput c input := inputMeasurable c "inline input" input.
Definition StatementInput c input :=
  inputMeasurable c "statement input" input.
Definition ExternalValueInput c input :=
  inputMeasurable c "external value input" input.

(** Modelled from the spec: the "jagged-edge Measurable" of a collapsed
    block. *)
Definition JaggedEdge (c : ConstantProvider.t) : Measurable.t :=
  make c "jagged edge" false
    (shapeWidth (ConstantProvider.JAGGED_TEETH c))
    (shapeHeight (ConstantProvider.JAGGED_TEETH c)) 0 None.

(** Modelled from the spec: the output-connection Measurable; its width is
    "the output connection's shape width". *)
Definition OutputConnection (c : ConstantProvider.t)
    (conn : Blockly.Connection.t) : Measurable.t :=
  make c "output connection" false (Blockly.Connection.width conn)
    (Blockly.Connection.height conn) 0 None.

(** Modelled from the spec: InRowSpacer (not under src), "an invisible
    Measurable whose sole purpose is reserving horizontal ... gap". *)
Definition InRowSpacer (c : ConstantProvider.t) (w : Z) : Measurable.t :=
  make c "in-row spacer" false w 0 0 None.

(** Modelled from the spec: the Row constructors (not under src). A new row
    holds no element and has every flag off; the type strings of the top
    and bottom rows are the ones RenderInfo compares with. *)
Definition newRow (ty : string) : Row.t :=
  {| Row.type := ty; Row.elements := []; Row.height := 0; Row.width := 0;
     Row.widthWithConnectedBlocks := 0; Row.yPos := 0; Row.xPos := 0;
     Row.hasExternalInput := false; Row.hasStatement := false;
     Row.hasInlineInput := false; Row.hasDummyInput := false;
     Row.hasJaggedEdge := false; Row.followsStatement := false;
     Row.statementEdge := 0; Row.startY := 0; Row.overhangY := 0 |}.

Definition InputRow : Row.t := newRow "input row".
Definition TopRow : Row.t := newRow "top row".
Definition BottomRow : Row.t := newRow "bottom row".

(** Modelled from the spec: SpacerRow (not under src), a row "sized by"
    the given height and width; it holds one spacer of its width, so that
    its width is the sum of its Measurables' widths. *)
Definition SpacerRow (c : ConstantProvider.t) (h w : Z) : Row.t :=
  Row.setElements [InRowSpacer c w]
    (Row.setSize w h 0 (newRow "spacer row")).

(** Modelled from the spec: TopRow.populate (not under src) adds the
    corner, hat and connection Measurables of the block to the row. *)
Definition populateTop (block : Blockly.Block.t) (r : Row.t) : Row.t :=
  Row.setElements (Row.elements r ++ Blockly.Block.topElements block) r.

(** Modelled from the spec: BottomRow.populate, as TopRow.populate. *)
Definition populateBottom (block : Blockly.Block.t) (r : Row.t) : Row.t :=
  Row.setElements (Row.elements r ++ Blockly.Block.bottomElements block) r.

End blockRendering.

(* ================================================================= *)
(** ** Loops over the rows of a RenderInfo *)

(** [for (var i = 0, row; (row = this.rows[i]); i++) body]: the body reads
    and mutates the row object that [rows[i]] refers to and the loop's local
    variables [a]; [top] and [bottom] are the two shared row objects. *)
Fixpoint forRows {A : Type} (body : A -> Row.t -> Completion (A * Row.t))
    (refs : list RowRef) (top bottom : Row.t) (a : A)
  : Completion (list RowRef * Row.t * Row.t * A) :=
  match refs with
  | [] => Normal ([], top, bottom, a)
  | RTop :: rest =>
      '(a1, top1) <- body a top ;;
      '(rest', top', bottom', a') <- forRows body rest top1 bottom a1 ;;
      Normal (RTop :: rest', top', bottom', a')
  | RBottom :: rest =>
      '(a1, bottom1) <- body a bottom ;;
      '(rest', top', bottom', a') <- forRows body rest top bottom1 a1 ;;
      Normal (RBottom :: rest', top', bottom', a')
  | ROwn r :: rest =>
      '(a1, r1) <- body a r ;;
      '(rest', top', bottom', a') <- forRows body rest top bottom a1 ;;
      Normal (ROwn r1 :: rest', top', bottom', a')
  end.

(** The same loop for a body that cannot throw. *)
Fixpoint forRowsPure {A : Type} (body : A -> Row.t -> A * Row.t)
    (refs : list RowRef) (top bottom : Row.t) (a : A)
  : list RowRef * Row.t * Row.t * A :=
  match refs with
  | [] => ([], top, bottom, a)
  | RTop :: rest =>
      let '(a1, top1) := body a top in
      let '(rest', top', bottom', a') := forRowsPure body rest top1 bottom a1 in
      (RTop :: rest', top', bottom', a')
  | RBottom :: rest =>
      let '(a1, bottom1) := body a bottom in
      let '(rest', top', bottom', a') := forRowsPure body rest top bottom1 a1 in
      (RBottom :: rest', top', bottom', a')
  | ROwn r :: rest =>
      let '(a1, r1) := body a r in
      let '(rest', top', bottom', a') := forRowsPure body rest top bottom a1 in
      (ROwn r1 :: rest', top', bottom', a')
  end.

(* ================================================================= *)
(** ** RenderInfo (src/unnamed/part_005) *)

Module RenderInfo.

Record t := mk {
  block_ : Blockly.Block.t;
  outputConnection : option Measurable.t;
  isInline : bool;
  isCollapsed : bool;
  isInsertionMarker : bool;
  RTL : bool;
  height : Z;
  widthWithChildren : Z;
  width : Z;
  statementEdge : Z;
  rows : list RowRef;
  hiddenIcons : list Measurable.t;
  topRow : Row.t;
  bottomRow : Row.t;
  startX : Z;
  startY : Z;
  constants_ : ConstantProvider.t
}.

Definition setRows (rs : list RowRef) (top : Row.t) (bottom : Row.t) (r : t)
  : t :=
  {| block_ := block_ r; outputConnection := outputConnection r;
     isInline := isInline r; isCollapsed := isCollapsed r;
     isInsertionMarker := isInsertionMarker r; RTL := RTL r;
     height := height r; widthWithChildren := widthWithChildren r;
     width := width r; statementEdge := statementEdge r; rows := rs;
     hiddenIcons := hiddenIcons r; topRow := top; bottomRow := bottom;
     startX := startX r; startY := startY r; constants_ := constants_ r |}.

Definition setHiddenIcons (hi : list Measurable.t) (r : t) : t :=
  {| block_ := block_ r; outputConnection := outputConnection r;
     isInline := isInline r; isCollapsed := isCollapsed r;
     isInsertionMarker := isInsertionMarker r; RTL := RTL r;
     height := height r; widthWithChildren := widthWithChildren r;
     width := width r; statementEdge := statementEdge r; rows := rows r;
     hiddenIcons := hi; topRow := topRow r; bottomRow := bottomRow r;
     startX := startX r; startY := startY r; constants_ := constants_ r |}.

Definition setStatementEdge (e : Z) (r : t) : t :=
  {| block_ := block_ r; outputConnection := outputConnection r;
     isInline := isInline r; isCollapsed := isCollapsed r;
     isInsertionMarker := isInsertionMarker r; RTL := RTL r;
     height := height r; widthWithChildren := widthWithChildren r;
     width := width r; statementEdge := e; rows := rows r;
     hiddenIcons := hiddenIcons r; topRow := topRow r;
     bottomRow := bottomRow r; startX := startX r; startY := startY r;
     constants_ := constants_ r |}.

Definition setWidth (w : Z) (r : t) : t :=
  {| block_ := block_ r; outputConnection := outputConnection r;
     isInline := isInline r; isCollapsed := isCollapsed r;
     isInsertionMarker := isInsertionMarker r; RTL := RTL r;
     height := height r; widthWithChildren := widthWithChildren r;
     width := w; statementEdge := statementEdge r; rows := rows r;
     hiddenIcons := hiddenIcons r; topRow := topRow r;
     bottomRow := bottomRow r; startX := startX r; startY := startY r;
     constants_ := constants_ r |}.

Definition setWidthWithChildren (w : Z) (r : t) : t :=
  {| block_ := block_ r; outputConnection := outputConnection r;
     isInline := isInline r; isCollapsed := isCollapsed r;
     isInsertionMarker := isInsertionMarker r; RTL := RTL r;
     height := height r; widthWithChildren := w; width := width r;
     statementEdge := statementEdge r; rows := rows r;
     hiddenIcons := hiddenIcons r; topRow := topRow r;
     bottomRow := bottomRow r; startX := startX r; startY := startY r;
     constants_ := constants_ r |}.

Definition setStartX (x : Z) (r : t) : t :=
  {| block_ := block_ r; outputConnection := outputConnection r;
     isInline := isInline r; isCollapsed := isCollapsed r;
     isInsertionMarker := isInsertionMarker r; RTL := RTL r;
     height := height r; widthWithChildren := widthWithChildren r;
     width := width r; statementEdge := statementEdge r; rows := rows r;
     hiddenIcons := hiddenIcons r; topRow := topRow r;
     bottomRow := bottomRow r; startX := x; startY := startY r;
     constants_ := constants_ r |}.

Definition setStartY (y : Z) (r : t) : t :=
  {| block_ := block_ r; outputConnection := outputConnection r;
     isInline := isInline r; isCollapsed := isCollapsed r;
     isInsertionMarker := isInsertionMarker r; RTL := RTL r;
     height := height r; widthWithChildren := widthWithChildren r;
     width := width r; statementEdge := statementEdge r; rows := rows r;
     hiddenIcons := hiddenIcons r; topRow := topRow r;
     bottomRow := bottomRow r; startX := startX r; startY := y;
     constants_ := constants_ r |}.

Definition setHeight (h : Z) (r : t) : t :=
  {| block_ := block_ r; outputConnection := outputConnection r;
     isInline := isInline r; isCollapsed := isCollapsed r;
     isInsertionMarker := isInsertionMarker r; RTL := RTL r; height := h;
     widthWithChildren := widthWithChildren r; width := width r;
     statementEdge := statementEdge r; rows := rows r;
     hiddenIcons := hiddenIcons r; topRow := topRow r;
     bottomRow := bottomRow r; startX := startX r; startY := startY r;
     constants_ := constants_ r |}.


(** The constructor; [constants] is what
    [Blockly.blockRendering.getConstants()] returns. *)
Definition new (block : Blockly.Block.t) (constants : ConstantProvider.t)
  : t :=
  {| block_ := block;
     outputConnection :=
       match Blockly.Block.outputConnection block with
       | None => None
       | Some c => Some (blockRendering.OutputConnection constants c)
       end;
     isInline := Blockly.Block.getInputsInline block
                 && negb (Blockly.Block.isCollapsed block);
     isCollapsed := Blockly.Block.isCollapsed block;
     isInsertionMarker := Blockly.Block.isInsertionMarker block;
     RTL := Blockly.Block.RTL block;
     height := 0;
     widthWithChildren := 0;
     width := 0;
     statementEdge := 0;
     rows := [];
     hiddenIcons := [];
     topRow := blockRendering.TopRow;
     bottomRow := blockRendering.BottomRow;
     startX := 0;
     startY := 0;
     constants_ := constants |}.

(** The row object a reference stands for. *)
Definition getRow (this : t) (ref : RowRef) : Row.t :=
  match ref with
  | RTop => topRow this
  | RBottom => bottomRow this
  | ROwn r => r
  end.

(** The rows of [this.rows], in order, as values. *)
Definition rowList (this : t) : list Row.t := map (getRow this) (rows this).

(** A loop over [this.rows] whose body mutates rows and local variables. *)
Definition eachRow {A : Type} (body : A -> Row.t -> A * Row.t) (a : A)
    (this : t) : t * A :=
  let '(rs, top, bottom, a') :=
    forRowsPure body (rows this) (topRow this) (bottomRow this) a in
  (setRows rs top bottom this, a').

Definition eachRowThrowing {A : Type}
    (body : A -> Row.t -> Completion (A * Row.t)) (a : A) (this : t)
  : Completion (t * A) :=
  '(rs, top, bottom, a') <-
    forRows body (rows this) (topRow this) (bottomRow this) a ;;
  Normal (setRows rs top bottom this, a').

(** *** createRows_ *)

Definition shouldStartNewRow_ (this : t) (input : Blockly.Input.t)
    (lastInput : option Blockly.Input.t) : bool :=
  match lastInput with
  | None => false
  | Some _ =>
      if Blockly.type_eqb (Blockly.Input.type input) Blockly.NEXT_STATEMENT
      then true
      else if Blockly.type_eqb (Blockly.Input.type input) Blockly.INPUT_VALUE
              || Blockly.type_eqb (Blockly.Input.type input)
                   Blockly.DUMMY_INPUT
      then negb (isInline this)
      else false
  end.

Definition addInput_ (this : t) (input : Blockly.Input.t)
    (activeRow : Row.t) : Row.t :=
  if isInline this
     && Blockly.type_eqb (Blockly.Input.type input) Blockly.INPUT_VALUE
  then Row.setHasInlineInput true
         (Row.push (blockRendering.InlineInput (constants_ this) input)
            activeRow)
  else if Blockly.type_eqb (Blockly.Input.type input) Blockly.NEXT_STATEMENT
  then Row.setHasStatement true
         (Row.push (blockRendering.StatementInput (constants_ this) input)
            activeRow)
  else if Blockly.type_eqb (Blockly.Input.type input) Blockly.INPUT_VALUE
  then Row.setHasExternalInput true
         (Row.push (blockRendering.ExternalValueInput (constants_ this) input)
            activeRow)
  else if Blockly.type_eqb (Blockly.Input.type input) Blockly.DUMMY_INPUT
  then Row.setHasDummyInput true activeRow
  else activeRow.

(** The body of the loop over the icons; its state is [this.hiddenIcons] and
    the active row. *)
Definition createRows_icon (this : t) (st : list Measurable.t * Row.t)
    (icon : Blockly.Icon.t) : list Measurable.t * Row.t :=
  let '(hidden, activeRow) := st in
  let iconInfo := blockRendering.Icon (constants_ this) icon in
  if isCollapsed this && Blockly.Icon.collapseHidden icon
  then (hidden ++ [iconInfo], activeRow)
  else (hidden, Row.push iconInfo activeRow).

(** The fields of an input go on the active row. *)
Definition pushFields (this : t) (input : Blockly.Input.t)
    (activeRow : Row.t) : Row.t :=
  fold_left
    (fun row field =>
       Row.push (blockRendering.Field (constants_ this) field input) row)
    (Blockly.Input.fieldRow input) activeRow.

(** The body of the loop over the inputs; its state is [this.rows], the
    active row and [lastInput]. *)
Definition createRows_input (this : t)
    (st : list RowRef * Row.t * option Blockly.Input.t)
    (input : Blockly.Input.t)
  : list RowRef * Row.t * option Blockly.Input.t :=
  let '(rs, activeRow, lastInput) := st in
  if negb (Blockly.Input.isVisible input) then st
  else
    let '(rs, activeRow) :=
      if shouldStartNewRow_ this input lastInput
      then (rs ++ [ROwn activeRow], blockRendering.InputRow)
      else (rs, activeRow) in
    let activeRow := pushFields this input activeRow in
    let activeRow := addInput_ this input activeRow in
    (rs, activeRow, Some input).

Definition createRows_ (this : t) : t :=
  let top := blockRendering.populateTop (block_ this) (topRow this) in
  let rs := rows this ++ [RTop] in
  let activeRow := blockRendering.InputRow in
  let '(hidden, activeRow) :=
    fold_left (createRows_icon this) (Blockly.Block.getIcons (block_ this))
      (hiddenIcons this, activeRow) in
  let '(rs, activeRow, _) :=
    fold_left (createRows_input this) (Blockly.Block.inputList (block_ this))
      (rs, activeRow, None) in
  let activeRow :=
    if isCollapsed this
    then Row.push (blockRendering.JaggedEdge (constants_ this))
           (Row.setHasJaggedEdge true activeRow)
    else activeRow in
  let rs :=
    match Row.elements activeRow with
    | [] => rs
    | _ :: _ => rs ++ [ROwn activeRow]
    end in
  let bottom :=
    blockRendering.populateBottom (block_ this) (bottomRow this) in
  let rs := rs ++ [RBottom] in
  setHiddenIcons hidden (setRows rs top bottom this).

(** *** addElemSpacing_ *)

(** [prev] and [next] are [None] for [null] and [undefined]. *)
Definition getInRowSpacing_ (this : t) (prev next : option Measurable.t)
  : Z :=
  match prev, next with
  | Some p, None =>
      if Measurable.isInput p then
        if Measurable.isExternalInput p
        then ConstantProvider.NO_PADDING (constants_ this)
        else if Measurable.isInlineInput p
        then ConstantProvider.LARGE_PADDING (constants_ this)
        else if Measurable.isStatementInput p
        then ConstantProvider.NO_PADDING (constants_ this)
        else ConstantProvider.MEDIUM_PADDING (constants_ this)
      else ConstantProvider.MEDIUM_PADDING (constants_ this)
  | _, _ => ConstantProvider.MEDIUM_PADDING (constants_ this)
  end.

(** The inner loop: every old element, each followed by a spacer. *)
Fixpoint spaceElems (this : t) (oldElems : list Measurable.t)
  : list Measurable.t :=
  match oldElems with
  | [] => []
  | e :: rest =>
      e :: blockRendering.InRowSpacer (constants_ this)
             (getInRowSpacing_ this (Some e) (hd_error rest))
        :: spaceElems this rest
  end.

(** The body of the loop over the rows. *)
Definition addElemSpacing_row (this : t) (row : Row.t) : Row.t :=
  let oldElems := Row.elements row in
  let first :=
    if negb (String.eqb (Row.type row) "top row")
       && negb (String.eqb (Row.type row) "bottom row")
    then [blockRendering.InRowSpacer (constants_ this)
            (getInRowSpacing_ this None (hd_error oldElems))]
    else [] in
  Row.setElements (first ++ spaceElems this oldElems) row.

Definition addElemSpacing_ (this : t) : t :=
  fst (eachRow (fun (_ : unit) row => (tt, addElemSpacing_row this row)) tt
         this).

(** *** computeBounds_ *)

(** The body of the first loop; the local variables are
    [widestStatementRowFields], [blockWidth] and
    [widestRowWithConnectedBlocks]. Reading [width] of the [null] that
    [getLastInput] returns for a row without input throws. *)
Definition computeBounds_row (acc : Z * Z * Z) (row : Row.t)
  : Completion (Z * Z * Z * Row.t) :=
  let '(widestStatementRowFields, blockWidth, widestRowWithConnectedBlocks) :=
    acc in
  let row := Row.measure row in
  let blockWidth := Z.max blockWidth (Row.width row) in
  widestStatementRowFields <-
    (if Row.hasStatement row then
       match Row.getLastInput row with
       | Some statementInput =>
           let innerWidth := Row.width row - Measurable.width statementInput in
           Normal (Z.max widestStatementRowFields innerWidth)
       | None => Throw TypeError
       end
     else Normal widestStatementRowFields) ;;
  Normal (widestStatementRowFields, blockWidth,
          Z.max widestRowWithConnectedBlocks
            (Row.widthWithConnectedBlocks row),
          row).

(** [this.width += this.outputConnection.width]: on integer lengths taking
    [startX] off the width again gives [blockWidth]; on fractional lengths
    the sum of the source is rounded and it need not. *)
Definition computeBounds_ (this : t) : Completion t :=
  '(this, (widestStatementRowFields, blockWidth,
           widestRowWithConnectedBlocks)) <-
    eachRowThrowing computeBounds_row (0, 0, 0) this ;;
  let this := setStatementEdge widestStatementRowFields this in
  let this := setWidth blockWidth this in
  let this :=
    fst (eachRow
           (fun (_ : unit) row =>
              (tt, if Row.hasStatement row
                   then Row.setStatementEdge (statementEdge this) row
                   else row))
           tt this) in
  let this :=
    setWidthWithChildren (Z.max blockWidth widestRowWithConnectedBlocks)
      this in
  Normal
    match outputConnection this with
    | Some oc =>
        let this := setStartX (Measurable.width oc) this in
        let this := setWidth (width this + Measurable.width oc) this in
        setWidthWithChildren (widthWithChildren this + Measurable.width oc)
          this
    | None => this
    end.

(** *** alignRowElements_ *)

(** [lastSpacer.width += missingSpace; row.width += missingSpace]: the
    sums are those of the source on integer lengths; on fractional lengths
    the source rounds each of them. *)
Definition addAlignmentPadding_ (row : Row.t) (missingSpace : Z) : Row.t :=
  match Row.getLastSpacer row with
  | Some _ =>
      let elems :=
        Row.modifyLast Measurable.isSpacer
          (fun lastSpacer =>
             Measurable.setWidth (Measurable.width lastSpacer + missingSpace)
               lastSpacer)
          (Row.elements row) in
      Row.setWidth (Row.width row + missingSpace) (Row.setElements elems row)
  | None => row
  end.

(** The body of the loop; [if (missingSpace)] holds for every number but
    zero. On integer lengths the difference [missingSpace] is exact; on
    fractional lengths the source may find a rounding residue that is not
    zero where the exact difference is. *)
Definition alignRowElements_row (this : t) (row : Row.t)
  : Completion Row.t :=
  if negb (Row.hasInlineInput row) then
    '(currentWidth, desiredWidth) <-
      (if Row.hasStatement row then
         match Row.getLastInput row with
         | Some statementInput =>
             Normal (Row.width row - Measurable.width statementInput,
                     statementEdge this - startX this)
         | None => Throw TypeError
         end
       else Normal (Row.width row, width this - startX this)) ;;
    let missingSpace := desiredWidth - currentWidth in
    if negb (missingSpace =? 0)
    then Normal (addAlignmentPadding_ row missingSpace)
    else Normal row
  else Normal row.

Definition alignRowElements_ (this : t) : Completion t :=
  '(this', _) <-
    eachRowThrowing
      (fun (_ : unit) row =>
         row' <- alignRowElements_row this row ;; Normal (tt, row'))
      tt this ;;
  Normal this'.

(** *** addRowSpacing_ *)

Definition getSpacerRowWidth_ (this : t) (_prev _next : Row.t) : Z :=
  width this - startX this.

Definition getSpacerRowHeight_ (this : t) (_prev _next : Row.t) : Z :=
  ConstantProvider.MEDIUM_PADDING (constants_ this).

Definition makeSpacerRow_ (this : t) (prev next : Row.t) : Row.t :=
  let height := getSpacerRowHeight_ this prev next in
  let width := getSpacerRowWidth_ this prev next in
  let spacer := blockRendering.SpacerRow (constants_ this) height width in
  if Row.hasStatement prev then Row.setFollowsStatement true spacer
  else spacer.

Fixpoint interleaveSpacers (this : t) (oldRows : list RowRef)
  : list RowRef :=
  match oldRows with
  | [] => []
  | r :: rest =>
      match rest with
      | [] => [r]
      | next :: _ =>
          r :: ROwn (makeSpacerRow_ this (getRow this r) (getRow this next))
            :: interleaveSpacers this rest
      end
  end.

Definition addRowSpacing_ (this : t) : t :=
  let oldRows := rows this in
  setRows (interleaveSpacers this oldRows) (topRow this) (bottomRow this)
    this.

(** *** finalize_ *)

Definition getElemCenterline_ (this : t) (row : Row.t) (_elem : Measurable.t)
  : Q :=
  (inject_Z (Row.yPos row) + inject_Z (Row.height row) / 2)%Q.

(** The inner loop over the elements of a row, from [xCursor]. *)
Fixpoint placeElems (this : t) (row : Row.t) (xCursor : Z)
    (elems : list Measurable.t) : list Measurable.t :=
  match elems with
  | [] => []
  | elem :: rest =>
      Measurable.setPosition xCursor (getElemCenterline_ this row elem) elem
        :: placeElems this row (xCursor + Measurable.width elem) rest
  end.

(** The body of the loop over the rows; the local variables are
    [widestRowWithConnectedBlocks] and [yCursor]. *)
Definition finalize_row (this : t) (acc : Z * Z) (row : Row.t)
  : Z * Z * Row.t :=
  let '(widestRowWithConnectedBlocks, yCursor) := acc in
  let row := Row.setPosition yCursor (startX this) row in
  let yCursor := yCursor + Row.height row in
  let widestRowWithConnectedBlocks :=
    Z.max widestRowWithConnectedBlocks (Row.widthWithConnectedBlocks row) in
  let row :=
    Row.setElements (placeElems this row (Row.xPos row) (Row.elements row))
      row in
  (widestRowWithConnectedBlocks, yCursor, row).

Definition finalize_ (this : t) : t :=
  let '(this', (widestRowWithConnectedBlocks, yCursor)) :=
    eachRow (finalize_row this) (0, 0) this in
  let this' :=
    setWidthWithChildren (widestRowWithConnectedBlocks + startX this') this' in
  let this' := setHeight yCursor this' in
  setStartY (Row.startY (topRow this')) this'.

(** *** measure *)

Definition measure (this : t) : Completion t :=
  let this := createRows_ this in
  let this := addElemSpacing_ this in
  this <- computeBounds_ this ;;
  this <- alignRowElements_ this ;;
  let this := addRowSpacing_ this in
  let this := finalize_ this in
  Normal this.

End RenderInfo.

(* ================================================================= *)
(** ** The outline walks of the Drawer (core/renderers/zelos/drawer.js) *)

(** Modelled from the spec: [Blockly.utils.svgPaths] (not under src) builds
    the text of the path commands; the outline is kept as "an ordered
    sequence of path-drawing commands". A [fragment] is a ready-made piece of
    path of the constant provider or of a connection shape. *)
Inductive PathStep :=
| moveBy (dx dy : Z)
| lineOnAxis (axis : string) (val : Z)
| fragment (path : string).

Module Drawer.

Record t := mk {
  info_ : RenderInfo.t;
  constants_ : ConstantProvider.t;
  outlinePath_ : list PathStep
}.

(** [this.outlinePath_ += ...]. *)
Definition addToOutline (steps : list PathStep) (this : t) : t :=
  {| info_ := info_ this; constants_ := constants_ this;
     outlinePath_ := outlinePath_ this ++ steps |}.

(** A [for] loop over elements whose body may throw. *)
Fixpoint forElems (body : t -> Measurable.t -> Completion t)
    (elems : list Measurable.t) (this : t) : Completion t :=
  match elems with
  | [] => Normal this
  | elem :: rest => this' <- body this elem ;; forElems body rest this'
  end.

(** [elem.isRoundedCorner() && elem.isRightCorner()] with the negation of
    the second operand chosen by [negated]; [&&] does not evaluate its
    second operand when the first is false. *)
Definition roundedAnd (negated : bool) (elem : Measurable.t)
  : Completion bool :=
  rounded <- Measurable.isRoundedCorner elem ;;
  if rounded then
    right <- Measurable.isRightCorner elem ;;
    Normal (if negated then negb right else right)
  else Normal false.

(** [elem.shape.pathLeft] and [elem.shape.pathRight]: throw when the element
    has no shape. *)
Definition shapePath (side : Shape -> string) (elem : Measurable.t)
  : Completion string :=
  match Measurable.shape elem with
  | Some sh => Normal (side sh)
  | None => Throw TypeError
  end.

(** The body of the loop of [drawTop_]. *)
Definition drawTop_elem (this : t) (elem : Measurable.t) : Completion t :=
  c1 <- roundedAnd true elem ;;
  if c1 then
    Normal (addToOutline
              [fragment (topLeft (ConstantProvider.OUTSIDE_CORNERS
                                    (constants_ this)))] this)
  else
    c2 <- roundedAnd false elem ;;
    if c2 then
      Normal (addToOutline
                [fragment (topRight (ConstantProvider.OUTSIDE_CORNERS
                                       (constants_ this)))] this)
    else if Measurable.typeIs elem "previous connection" then
      p <- shapePath pathLeft elem ;;
      Normal (addToOutline [fragment p] this)
    else if Measurable.typeIs elem "hat" then
      Normal (addToOutline
                [fragment (ConstantProvider.START_HAT_path (constants_ this))]
                this)
    else if Measurable.isSpacer elem then
      Normal (addToOutline [lineOnAxis "h" (Measurable.width elem)] this)
    else Normal this.

(** [positionPreviousConnection_] and [positionNextConnection_] (base
    Drawer, not under src) move the block's connections and leave the
    outline as it is, so they do not appear below. *)
Definition drawTop_ (this : t) : Completion t :=
  let topRow := RenderInfo.topRow (info_ this) in
  let elements := Row.elements topRow in
  let this :=
    addToOutline
      [moveBy (Row.xPos topRow) (RenderInfo.startY (info_ this))] this in
  this <- forElems drawTop_elem elements this ;;
  Normal (addToOutline [lineOnAxis "v" (Row.height topRow)] this).

(** The body of the loop of [drawBottom_]. *)
Definition drawBottom_elem (this : t) (elem : Measurable.t) : Completion t :=
  let bottomRow := RenderInfo.bottomRow (info_ this) in
  if Measurable.isNextConnection elem then
    p <- shapePath pathRight elem ;;
    Normal (addToOutline [fragment p] this)
  else if Measurable.typeIs elem "square corner left" then
    Normal (addToOutline [lineOnAxis "H" (Row.xPos bottomRow)] this)
  else
    c1 <- roundedAnd true elem ;;
    if c1 then
      Normal (addToOutline
                [fragment (bottomLeft (ConstantProvider.OUTSIDE_CORNERS
                                         (constants_ this)))] this)
    else
      c2 <- roundedAnd false elem ;;
      if c2 then
        Normal (addToOutline
                  [fragment (bottomRight (ConstantProvider.OUTSIDE_CORNERS
                                            (constants_ this)))] this)
      else if Measurable.isSpacer elem then
        Normal (addToOutline
                  [lineOnAxis "h" (Measurable.width elem * -1)] this)
      else Normal this.

(** The loop runs from the last element down to the first. *)
Definition drawBottom_ (this : t) : Completion t :=
  let bottomRow := RenderInfo.bottomRow (info_ this) in
  let elems := Row.elements bottomRow in
  let this :=
    addToOutline
      [lineOnAxis "v" (Row.height bottomRow - Row.overhangY bottomRow)]
      this in
  forElems drawBottom_elem (rev elems) this.

End Drawer.

(* ================================================================= *)
(** ** Zelos: corner Measurables (src/unnamed/part_004) and the constant
    provider's [shapeFor] (core/renderers/zelos/constants.js) *)

Module zelos.

(** [this.constants_.NOTCH.height / 2]: the notch heights of the providers
    are even (the Zelos one is [2 * GRID_UNIT]), so the integer quotient is
    the JavaScript one. For an odd notch height the source gives a half
    that an integer height does not hold; nothing below is stated of the
    height of a corner for such a provider. *)
Definition RoundCorner (constants_ : ConstantProvider.t) : Measurable.t :=
  let this := Measurable.new constants_ in
  {| Measurable.isInput := Measurable.isInput this;
     Measurable.width := ConstantProvider.CORNER_RADIUS constants_;
     Measurable.height := shapeHeight (ConstantProvider.NOTCH constants_) / 2;
     Measurable.type := Some "round corner";
     Measurable.xPos := Measurable.xPos this;
     Measurable.centerline := Measurable.centerline this;
     Measurable.notchOffset := Measurable.notchOffset this;
     Measurable.shape := Measurable.shape this;
     Measurable.connectedBlockWidth := Measurable.connectedBlockWidth this |}.

Definition RightRoundCorner (constants_ : ConstantProvider.t)
  : Measurable.t :=
  let this := Measurable.new constants_ in
  {| Measurable.isInput := Measurable.isInput this;
     Measurable.width := ConstantProvider.CORNER_RADIUS constants_;
     Measurable.height := shapeHeight (ConstantProvider.NOTCH constants_) / 2;
     Measurable.type := Some "right round corner";
     Measurable.xPos := Measurable.xPos this;
     Measurable.centerline := Measurable.centerline this;
     Measurable.notchOffset := Measurable.notchOffset this;
     Measurable.shape := Measurable.shape this;
     Measurable.connectedBlockWidth := Measurable.connectedBlockWidth this |}.

Module ConstantProvider.
Section Shapes.

(** The shape objects of the provider ([makeHexagonal], [makeRounded], ...
    build them); [shapeFor] only hands one of them out. *)
Variable shape : Type.

Record t := mk {
  HEXAGONAL : shape;
  ROUNDED : shape;
  NOTCH : shape;
  TRIANGLE : shape;
  PUZZLE_TAB : shape
}.

(** [checks && checks.indexOf(name) != -1]. *)
Definition checksInclude (checks : option (list string)) (name : string)
  : bool :=
  match checks with
  | Some l => negb (arrayIndexOf l name =? -1)
  | None => false
  end.

(** [shapeFor] (the definition at lines 480-503). *)
Definition shapeFor (this : t) (connection : Blockly.Connection.t)
  : Completion shape :=
  let checks := Blockly.Connection.getCheck connection in
  match Blockly.Connection.type connection with
  | Blockly.INPUT_VALUE
  | Blockly.OUTPUT_VALUE =>
      if checksInclude checks "Boolean" then Normal (HEXAGONAL this)
      else if checksInclude checks "Number" then Normal (ROUNDED this)
      else if checksInclude checks "String" then Normal (ROUNDED this)
      else Normal (ROUNDED this)
  | Blockly.PREVIOUS_STATEMENT
  | Blockly.NEXT_STATEMENT => Normal (NOTCH this)
  | _ => Throw "Unknown type"
  end.

(** [shapeFor] (the earlier definition in the same file, lines 105-122);
    [constants] is the global [Blockly.blockRendering.constants]. *)
Definition shapeFor_triangle (constants this : t)
    (connection : Blockly.Connection.t) : Completion shape :=
  let checks := Blockly.Connection.getCheck connection in
  match Blockly.Connection.type connection with
  | Blockly.INPUT_VALUE
  | Blockly.OUTPUT_VALUE =>
      if checksInclude checks "Boolean" then Normal (TRIANGLE constants)
      else Normal (PUZZLE_TAB constants)
  | Blockly.PREVIOUS_STATEMENT
  | Blockly.NEXT_STATEMENT => Normal (NOTCH this)
  | _ => Throw "Unknown type"
  end.

End Shapes.
End ConstantProvider.

End zelos.

(* ================================================================= *)
(** ** Notions used in the statements *)

(** The row is the top row or the bottom row: the rows that
    addElemSpacing_ gives no spacer before the first element. *)
Definition isTopOrBottom (row : Row.t) : bool :=
  String.eqb (Row.type row) "top row"
  || String.eqb (Row.type row) "bottom row".

(** A row is a content row when it is neither the top nor the bottom row. *)
Definition isContentRow (row : Row.t) : bool :=
  negb (isTopOrBottom row).

(** The number of spacers [addElemSpacing_] puts before the first element
    of a row. *)
Definition leadingSpacers (row : Row.t) : nat :=
  if isTopOrBottom row then 0%nat else 1%nat.

(** The branches of the two walks, read on the type string. *)
Definition topBranch (ty : string) : bool :=
  (indexOf ty "round corner" =? 0)
  || String.eqb ty "previous connection"
  || String.eqb ty "hat"
  || String.eqb ty "between-row spacer"
  || String.eqb ty "in-row spacer".

Definition bottomBranch (ty : string) : bool :=
  String.eqb ty "next connection"
  || String.eqb ty "square corner left"
  || (indexOf ty "round corner" =? 0)
  || String.eqb ty "between-row spacer"
  || String.eqb ty "in-row spacer".

(** The three kind tags of the input Measurables. *)
Definition hasInputTag (m : Measurable.t) : bool :=
  Measurable.isExternalInput m || Measurable.isInlineInput m
  || Measurable.isStatementInput m.

(** What every input Measurable satisfies: its constructor sets [isInput]
    along with the tag. *)
Definition inputTagged (m : Measurable.t) : Prop :=
  hasInputTag m = true -> Measurable.isInput m = true.


(** The row object a reference stands for, given the two shared rows. *)
Definition deref (top bottom : Row.t) (ref : RowRef) : Row.t :=
  match ref with
  | RTop => top
  | RBottom => bottom
  | ROwn r => r
  end.

(** [P] holds of the row a reference owns. *)
Definition owned (P : Row.t -> Prop) (ref : RowRef) : Prop :=
  match ref with
  | ROwn r => P r
  | _ => True
  end.

(** Two references are of the same kind. *)
Definition sameKind (ref ref' : RowRef) : Prop :=
  match ref, ref' with
  | RTop, RTop | RBottom, RBottom | ROwn _, ROwn _ => True
  | _, _ => False
  end.

Definition isRTop (ref : RowRef) : bool :=
  match ref with RTop => true | _ => false end.

Definition isRBottom (ref : RowRef) : bool :=
  match ref with RBottom => true | _ => false end.

(** No row object occurs twice in [rows]: the top row and the bottom row
    are referred to at most once each. *)
Definition aliasFree (refs : list RowRef) : bool :=
  (List.length (filter isRTop refs) <=? 1)%nat
  && (List.length (filter isRBottom refs) <=? 1)%nat.

(** The loop body applied to a list of row values, threading the local
    variables. *)
Fixpoint mapAccum {A : Type} (body : A -> Row.t -> A * Row.t)
    (l : list Row.t) (a : A) : list Row.t * A :=
  match l with
  | [] => ([], a)
  | r :: rest =>
      let '(a1, r1) := body a r in
      let '(rest', a') := mapAccum body rest a1 in
      (r1 :: rest', a')
  end.

(** A throwing loop body applied to a list of row values. *)
Fixpoint mapAccumThrowing {A : Type}
    (body : A -> Row.t -> Completion (A * Row.t)) (l : list Row.t) (a : A)
  : Completion (list Row.t * A) :=
  match l with
  | [] => Normal ([], a)
  | r :: rest =>
      '(a1, r1) <- body a r ;;
      '(rest', a') <- mapAccumThrowing body rest a1 ;;
      Normal (r1 :: rest', a')
  end.

(** The state of the rows of a RenderInfo: [I] holds of the top and bottom
    rows, [P] of every other row. *)
Definition rowsSatisfy (I P : Row.t -> Prop) (this : RenderInfo.t) : Prop :=
  I (RenderInfo.topRow this) /\ I (RenderInfo.bottomRow this) /\
  Forall (owned P) (RenderInfo.rows this).

(** The items of [l] follow one another from [start]: the first is at
    [start], and each next one is where the one before it ends. *)
Definition chained {A : Type} (pos size : A -> Z) (start : Z) (l : list A)
  : Prop :=
  (forall x, hd_error l = Some x -> pos x = start) /\
  (forall i x y,
      nth_error l i = Some x -> nth_error l (S i) = Some y ->
      pos y = pos x + size x).

Definition sumHeights (l : list Row.t) : Z :=
  fold_right (fun r acc => Row.height r + acc) 0 l.

(** The rows of [info] are stacked from 0, its height is the sum of their
    heights, and the elements of every row follow one another from the
    [xPos] of the row. *)
Definition positioned (info : RenderInfo.t) : Prop :=
  chained Row.yPos Row.height 0 (RenderInfo.rowList info) /\
  RenderInfo.height info = sumHeights (RenderInfo.rowList info) /\
  Forall (fun row =>
            chained Measurable.xPos Measurable.width (Row.xPos row)
              (Row.elements row))
    (RenderInfo.rowList info).

(** The width the alignment pass aims at for a row (its [desiredWidth]). *)
Definition desiredWidth (this : RenderInfo.t) (row : Row.t) : Z :=
  if Row.hasStatement row
  then RenderInfo.statementEdge this - RenderInfo.startX this
  else RenderInfo.width this - RenderInfo.startX this.

(** The width of the statement input of a statement row (of the last input
    of the row), and 0 for a row without statement. *)
Definition statementInputWidth (row : Row.t) : Z :=
  if Row.hasStatement row then
    match Row.getLastInput row with
    | Some statementInput => Measurable.width statementInput
    | None => 0
    end
  else 0.

(** A statement row holds an input Measurable. *)
Definition statementHasInput (row : Row.t) : Prop :=
  Row.hasStatement row = true -> Row.getLastInput row <> None.

(** No spacer of the row is an input Measurable. *)
Definition spacersAreNotInputs (row : Row.t) : Prop :=
  Forall (fun e => Measurable.isSpacer e = true -> Measurable.isInput e = false)
    (Row.elements row).

(** The row is aligned to the bounds [se] (statement edge), [w] (width) and
    [sx] (start) of a block. *)
Definition alignedTo (se w sx : Z) (row : Row.t) : Prop :=
  Row.hasInlineInput row = false ->
  Row.width row
  = (if Row.hasStatement row then se - sx else w - sx)
    + statementInputWidth row /\
  statementHasInput row.

(** The stages of the rows in a measure: the top and bottom rows; an input
    row as createRows_ leaves it; a row with its spacers; a content row
    after alignment. *)
Definition isShared (row : Row.t) : Prop :=
  isTopOrBottom row = true.

Definition unspaced (row : Row.t) : Prop :=
  isTopOrBottom row = false /\
  Forall (fun e => Measurable.isSpacer e = false) (Row.elements row).

Definition spaced (row : Row.t) : Prop :=
  isTopOrBottom row = false /\
  spacersAreNotInputs row /\
  Row.getLastSpacer row <> None.

Definition alignedContent (se w sx : Z) (row : Row.t) : Prop :=
  isTopOrBottom row = false /\ alignedTo se w sx row.

(** The bounds [s] (statement edge) and [w] (block width) computeBounds_
    has found cover the row. *)
Definition boundedBy (s w : Z) (row : Row.t) : Prop :=
  Row.width row <= w /\
  (Row.hasStatement row = true -> Row.width row - statementInputWidth row <= s).

(* ================================================================= *)
(** ** Sample data for the examples *)

(** The paddings of the base provider and the Zelos grid (GRID_UNIT = 4:
    corner radius 4, notch 36 by 8, notch offset 12). *)
Definition sampleConstants : ConstantProvider.t :=
  {| ConstantProvider.NO_PADDING := 0;
     ConstantProvider.MEDIUM_PADDING := 5;
     ConstantProvider.LARGE_PADDING := 10;
     ConstantProvider.CORNER_RADIUS := 4;
     ConstantProvider.NOTCH_OFFSET_LEFT := 12;
     ConstantProvider.NOTCH := mkShape 36 8 "notch left" "notch right";
     ConstantProvider.JAGGED_TEETH := mkShape 6 12 "jagged" "jagged";
     ConstantProvider.OUTSIDE_CORNERS :=
       mkOutsideCorners "top left" "top right" "bottom left" "bottom right";
     ConstantProvider.START_HAT_path := "hat" |}.

Definition sampleInput (ty : Blockly.ConnectionType) (w h : Z)
  : Blockly.Input.t :=
  {| Blockly.Input.type := ty; Blockly.Input.visible_ := true;
     Blockly.Input.fieldRow := []; Blockly.Input.width := w;
     Blockly.Input.height := h; Blockly.Input.connectedBlockWidth := 0 |}.

Definition sampleBlock (inputs : list Blockly.Input.t)
    (output : option Blockly.Connection.t) : Blockly.Block.t :=
  {| Blockly.Block.inputList := inputs;
     Blockly.Block.inputsInline := false;
     Blockly.Block.collapsed_ := false;
     Blockly.Block.insertionMarker_ := false;
     Blockly.Block.RTL := false;
     Blockly.Block.icons := [];
     Blockly.Block.outputConnection := output;
     Blockly.Block.topElements := [zelos.RoundCorner sampleConstants];
     Blockly.Block.bottomElements := [zelos.RoundCorner sampleConstants] |}.

(** A new RenderInfo for a block without inputs. *)
Definition sampleInfo : RenderInfo.t :=
  RenderInfo.new (sampleBlock [] None) sampleConstants.

(** A drawer at the start of a walk over the given top and bottom rows. *)
Definition sampleDrawer (top bottom : Row.t) : Drawer.t :=
  {| Drawer.info_ :=
       RenderInfo.setRows [RTop; RBottom] top bottom
         sampleInfo;
     Drawer.constants_ := sampleConstants;
     Drawer.outlinePath_ := [] |}.

(** A block with a single statement input, 30 wide and 20 high. *)
Definition statementBlock : Blockly.Block.t :=
  sampleBlock [sampleInput Blockly.NEXT_STATEMENT 30 20] None.

(** The same block with an output connection whose shape is 8 wide. *)
Definition statementBlockWithOutput : Blockly.Block.t :=
  sampleBlock [sampleInput Blockly.NEXT_STATEMENT 30 20]
    (Some {| Blockly.Connection.type := Blockly.OUTPUT_VALUE;
             Blockly.Connection.check_ := None;
             Blockly.Connection.width := 8;
             Blockly.Connection.height := 16 |}).

(** The RenderInfo of [statementBlock] after createRows_. *)
Definition statementBlockRows : RenderInfo.t :=
  RenderInfo.createRows_ (RenderInfo.new statementBlock sampleConstants).

(** The RenderInfo of [statementBlock] as measure hands it to finalize_:
    after createRows_, addElemSpacing_, computeBounds_, alignRowElements_
    and addRowSpacing_. *)
Definition statementBlockBeforeFinalize : RenderInfo.t :=
  match
    this <- RenderInfo.computeBounds_
              (RenderInfo.addElemSpacing_ statementBlockRows) ;;
    this <- RenderInfo.alignRowElements_ this ;;
    Normal (RenderInfo.addRowSpacing_ this)
  with
  | Normal this => this
  | Throw _ => statementBlockRows
  end.

(** A RenderInfo 40 wide, a measured row that holds one field 20 wide
    between two spacers, and that row after its alignment. *)
Definition wideInfo : RenderInfo.t := RenderInfo.setWidth 40 sampleInfo.

Definition fieldRow : Row.t :=
  Row.measure
    (RenderInfo.addElemSpacing_row wideInfo
       (Row.push
          (blockRendering.Field sampleConstants
             {| Blockly.Field.width := 20; Blockly.Field.height := 10 |}
             (sampleInput Blockly.DUMMY_INPUT 0 0))
          blockRendering.InputRow)).

Definition alignedFieldRow : Row.t :=
  match RenderInfo.alignRowElements_row wideInfo fieldRow with
  | Normal row => row
  | Throw _ => fieldRow
  end.

(* ================================================================= *)
(** ** Notions used in the further properties *)

(** [sub] occurs somewhere in [s]. *)
Fixpoint occurs (sub s : string) : bool :=
  String.prefix sub s
  || match s with
     | EmptyString => false
     | String _ s' => occurs sub s'
     end.

(** An element that a walk of the Drawer gets past: its type is set, and if
    it is the connection that the walk draws ('previous connection' on the
    top, 'next connection' on the bottom) it has a shape. *)
Definition walkable (connection : string) (elem : Measurable.t) : bool :=
  match Measurable.type elem with
  | None => false
  | Some ty =>
      if String.eqb ty connection
      then match Measurable.shape elem with
           | Some _ => true
           | None => false
           end
      else true
  end.

(** The sum of the relative horizontal lines ([lineOnAxis('h', v)]) among
    the steps of a path. *)
Definition horizontalTravel (steps : list PathStep) : Z :=
  fold_right
    (fun step acc =>
       match step with
       | lineOnAxis axis v => if String.eqb axis "h" then v + acc else acc
       | _ => acc
       end)
    0 steps.

(** The sum of the widths of the spacers among the elements of a row. *)
Definition spacerWidths (elems : list Measurable.t) : Z :=
  fold_right
    (fun elem acc =>
       if Measurable.isSpacer elem then Measurable.width elem + acc else acc)
    0 elems.

(** A top row and a bottom row as the Zelos renderer leaves them for a
    block without connections: a rounded corner and then a spacer. *)
Definition cornerRow (row : Row.t) (w : Z) : Row.t :=
  Row.setElements
    [zelos.RoundCorner sampleConstants;
     blockRendering.InRowSpacer sampleConstants w]
    row.

Definition cornerDrawer : Drawer.t :=
  sampleDrawer (cornerRow blockRendering.TopRow 7)
    (cornerRow blockRendering.BottomRow 9).

(** The Measurable that addInput_ makes for an input, if any: an inline,
    statement or external value input; none for a dummy input. *)
Definition inputMeasurable (this : RenderInfo.t) (input : Blockly.Input.t)
  : list Measurable.t :=
  let c := RenderInfo.constants_ this in
  match Blockly.Input.type input with
  | Blockly.INPUT_VALUE =>
      if RenderInfo.isInline this then [blockRendering.InlineInput c input]
      else [blockRendering.ExternalValueInput c input]
  | Blockly.NEXT_STATEMENT => [blockRendering.StatementInput c input]
  | _ => []
  end.

(** The Measurables of one input: those of its fields, in order, and then
    the one of the input. *)
Definition inputMeasurables (this : RenderInfo.t) (input : Blockly.Input.t)
  : list Measurable.t :=
  map (fun field =>
         blockRendering.Field (RenderInfo.constants_ this) field input)
    (Blockly.Input.fieldRow input)
  ++ inputMeasurable this input.

(** The icons that a collapsed block hides. *)
Definition isHiddenIcon (this : RenderInfo.t) (icon : Blockly.Icon.t) : bool :=
  RenderInfo.isCollapsed this && Blockly.Icon.collapseHidden icon.

Definition iconMeasurables (this : RenderInfo.t) (icons : list Blockly.Icon.t)
  : list Measurable.t :=
  map (blockRendering.Icon (RenderInfo.constants_ this)) icons.

(** All the Measurables that createRows_ puts on the input rows of a
    block, in the order of the block. *)
Definition blockMeasurables (this : RenderInfo.t) : list Measurable.t :=
  let block := RenderInfo.block_ this in
  iconMeasurables this
    (filter (fun icon => negb (isHiddenIcon this icon))
       (Blockly.Block.getIcons block))
  ++ flat_map (inputMeasurables this)
       (filter Blockly.Input.isVisible (Blockly.Block.inputList block))
  ++ (if RenderInfo.isCollapsed this
      then [blockRendering.JaggedEdge (RenderInfo.constants_ this)]
      else []).

(** The flags of a row say which Measurables it holds. *)
Definition flagsMatchElements (row : Row.t) : Prop :=
  Row.hasStatement row
  = existsb Measurable.isStatementInput (Row.elements row) /\
  Row.hasInlineInput row
  = existsb Measurable.isInlineInput (Row.elements row) /\
  Row.hasExternalInput row
  = existsb Measurable.isExternalInput (Row.elements row) /\
  Row.hasJaggedEdge row
  = existsb Measurable.isJaggedEdge (Row.elements row).

(** The rows of [statementBlockWithOutput] with their spacers, and after
    computeBounds_. *)
Definition spacedStatementRows : RenderInfo.t :=
  RenderInfo.addElemSpacing_
    (RenderInfo.createRows_
       (RenderInfo.new statementBlockWithOutput sampleConstants)).

Definition boundedStatementRows : RenderInfo.t :=
  match RenderInfo.computeBounds_ spacedStatementRows with
  | Normal this => this
  | Throw _ => spacedStatementRows
  end.

(** [boundedStatementRows] after alignRowElements_. *)
Definition alignedStatementRows : RenderInfo.t :=
  match RenderInfo.alignRowElements_ boundedStatementRows with
  | Normal this => this
  | Throw _ => boundedStatementRows
  end.

(** [spacersAreNotInputs], as a test. *)
Definition spacersAreNotInputsb (row : Row.t) : bool :=
  forallb (fun e => negb (Measurable.isSpacer e) || negb (Measurable.isInput e))
    (Row.elements row).

(* ================================================================= *)
(** ** The shapes of the Zelos constant provider
    (core/renderers/zelos/constants.js) *)

Module svgPaths.

(** Modelled from the spec: [Blockly.utils.svgPaths] (not under src) writes
    "path-drawing commands (moveTo/lineTo/arc/curve)" as text; a command is
    kept here as the call that writes it, with its arguments, and a path
    (the concatenation of such texts) as the list of its commands. The
    numbers are JavaScript numbers in the source and rationals here. *)
Inductive Point := point (x y : Q).

Inductive Command :=
| moveBy (dx dy : Q)
| lineTo (dx dy : Q)
| lineOnAxis (command : string) (val : Q)
| line (points : list Point)
| curve (command : string) (points : list Point)
| arc (command flags : string) (radius : Q) (p : Point).

Definition Path := list Command.

End svgPaths.

Module ZelosConstantProvider.

(** The constants that the constructor sets and the shape makers read. *)
Record t := mk {
  GRID_UNIT : Q;
  CORNER_RADIUS : Q;
  NOTCH_WIDTH : Q;
  NOTCH_HEIGHT : Q;
  NOTCH_OFFSET_LEFT : Q;
  MIN_BLOCK_HEIGHT : Q
}.

(** The constructor [Blockly.zelos.ConstantProvider]. *)
Definition new : t :=
  let GRID_UNIT := 4%Q in
  {| GRID_UNIT := GRID_UNIT;
     CORNER_RADIUS := (1 * GRID_UNIT)%Q;
     NOTCH_WIDTH := (9 * GRID_UNIT)%Q;
     NOTCH_HEIGHT := (2 * GRID_UNIT)%Q;
     NOTCH_OFFSET_LEFT := (3 * GRID_UNIT)%Q;
     MIN_BLOCK_HEIGHT := (12 * GRID_UNIT)%Q |}.

(** A shape with fixed paths (the notch). *)
Record Notch := mkNotch {
  notchWidth : Q;
  notchHeight : Q;
  notchPathLeft : svgPaths.Path;
  notchPathRight : svgPaths.Path
}.

(** [makeNotch] (both definitions in the file are the same). *)
Definition makeNotch (this : t) : Notch :=
  let width := NOTCH_WIDTH this in
  let height := NOTCH_HEIGHT this in
  let innerWidth := (width / 3)%Q in
  let curveWidth := (innerWidth / 3)%Q in
  let halfHeight := (height / 2)%Q in
  let quarterHeight := (halfHeight / 2)%Q in
  let makeMainPath (dir : Q) : svgPaths.Path :=
    [svgPaths.curve "c"
       [svgPaths.point (dir * curveWidth / 2) 0;
        svgPaths.point (dir * curveWidth * 3 / 4) (quarterHeight / 2);
        svgPaths.point (dir * curveWidth) quarterHeight]]
    ++ [svgPaths.line [svgPaths.point (dir * curveWidth) halfHeight]]
    ++ [svgPaths.curve "c"
          [svgPaths.point (dir * curveWidth / 4) (quarterHeight / 2);
           svgPaths.point (dir * curveWidth / 2) quarterHeight;
           svgPaths.point (dir * curveWidth) quarterHeight]]
    ++ [svgPaths.lineOnAxis "h" (dir * innerWidth)]
    ++ [svgPaths.curve "c"
          [svgPaths.point (dir * curveWidth / 2) 0;
           svgPaths.point (dir * curveWidth * 3 / 4) (- (quarterHeight / 2));
           svgPaths.point (dir * curveWidth) (- quarterHeight)]]
    ++ [svgPaths.line [svgPaths.point (dir * curveWidth) (- halfHeight)]]
    ++ [svgPaths.curve "c"
          [svgPaths.point (dir * curveWidth / 4) (- (quarterHeight / 2));
           svgPaths.point (dir * curveWidth / 2) (- quarterHeight);
           svgPaths.point (dir * curveWidth) (- quarterHeight)]] in
  let pathLeft := makeMainPath 1%Q in
  let pathRight := makeMainPath (-1)%Q in
  {| notchWidth := width;
     notchHeight := height;
     notchPathLeft := pathLeft;
     notchPathRight := pathRight |}.

(** A shape with fixed paths for the two vertical directions (the
    triangle of the earlier definition of the file). *)
Record Triangle := mkTriangle {
  triangleWidth : Q;
  triangleHeight : Q;
  trianglePathDown : svgPaths.Path;
  trianglePathUp : svgPaths.Path
}.

Definition makeTriangle (this : t) : Triangle :=
  let width := 20%Q in
  let height := 20%Q in
  let makeMainPath (up : bool) : svgPaths.Path :=
    let forward := if up then (-1)%Q else 1%Q in
    [svgPaths.lineTo (- width) (forward * height / 2)]
    ++ [svgPaths.lineTo width (forward * height / 2)] in
  let pathUp := makeMainPath true in
  let pathDown := makeMainPath false in
  {| triangleWidth := width;
     triangleHeight := height;
     trianglePathDown := pathDown;
     trianglePathUp := pathUp |}.

(** A shape whose size and paths depend on the height of the block
    ([isDynamic]). *)
Record DynamicShape := mkDynamicShape {
  isDynamic : bool;
  width : Q -> Q;
  height : Q -> Q;
  pathDown : Q -> svgPaths.Path;
  pathUp : Q -> svgPaths.Path;
  pathRightDown : Q -> svgPaths.Path;
  pathRightUp : Q -> svgPaths.Path
}.

Definition makeHexagonal (this : t) : DynamicShape :=
  let makeMainPath (height : Q) (up right : bool) : svgPaths.Path :=
    let width := (height / 2)%Q in
    let forward := if up then (-1)%Q else 1%Q in
    let direction := if right then (-1)%Q else 1%Q in
    let dy := (forward * height / 2)%Q in
    [svgPaths.lineTo (- direction * width) dy]
    ++ [svgPaths.lineTo (direction * width) dy] in
  {| isDynamic := true;
     width := fun height => (height / 2)%Q;
     height := fun height => height;
     pathDown := fun height => makeMainPath height false false;
     pathUp := fun height => makeMainPath height true false;
     pathRightDown := fun height => makeMainPath height false true;
     pathRightUp := fun height => makeMainPath height false true |}.

Definition makeRounded (this : t) : DynamicShape :=
  let makeMainPath (height : Q) (up right : bool) : svgPaths.Path :=
    let edgeWidth := (height / 2)%Q in
    [svgPaths.arc "a" ("0 0 " ++ (if up || right then "1" else "0")) edgeWidth
       (svgPaths.point 0 ((if up then (-1)%Q else 1%Q) * edgeWidth * 2))] in
  {| isDynamic := true;
     width := fun height => (height / 2)%Q;
     height := fun height => height;
     pathDown := fun height => makeMainPath height false false;
     pathUp := fun height => makeMainPath height true false;
     pathRightDown := fun height => makeMainPath height false true;
     pathRightUp := fun height => makeMainPath height false true |}.

Record OutsideCornerPaths := mkOutsideCornerPaths {
  topLeft : svgPaths.Path;
  topRight : svgPaths.Path;
  bottomLeft : svgPaths.Path;
  bottomRight : svgPaths.Path
}.

Definition makeOutsideCorners (this : t) : OutsideCornerPaths :=
  let radius := CORNER_RADIUS this in
  let topLeft :=
    [svgPaths.moveBy 0 radius]
    ++ [svgPaths.arc "a" "0 0,1" radius (svgPaths.point radius (- radius))] in
  let topRight :=
    [svgPaths.arc "a" "0 0,1" radius (svgPaths.point radius radius)] in
  let bottomLeft :=
    [svgPaths.arc "a" "0 0,1" radius (svgPaths.point (- radius) (- radius))] in
  let bottomRight :=
    [svgPaths.arc "a" "0 0,1" radius (svgPaths.point (- radius) radius)] in
  {| topLeft := topLeft;
     topRight := topRight;
     bottomLeft := bottomLeft;
     bottomRight := bottomRight |}.

End ZelosConstantProvider.

(** Where the pen goes. Every command that the shape makers write is a
    relative one ([m], [l], [h], [v], [c], [a]); it moves the pen by its
    end point: the last point of a curve, the sum of the points of a line,
    the value of a line on an axis along that axis. *)
Definition addPoints (p q : Q * Q) : Q * Q :=
  ((fst p + fst q)%Q, (snd p + snd q)%Q).

Definition pointMove (p : svgPaths.Point) : Q * Q :=
  match p with
  | svgPaths.point x y => (x, y)
  end.

Definition penMove (command : svgPaths.Command) : Q * Q :=
  match command with
  | svgPaths.moveBy dx dy => (dx, dy)
  | svgPaths.lineTo dx dy => (dx, dy)
  | svgPaths.lineOnAxis axis val =>
      if String.eqb axis "h" then (val, 0%Q) else (0%Q, val)
  | svgPaths.line points =>
      fold_left (fun acc p => addPoints acc (pointMove p)) points (0%Q, 0%Q)
  | svgPaths.curve _ points =>
      match rev points with
      | p :: _ => pointMove p
      | [] => (0%Q, 0%Q)
      end
  | svgPaths.arc _ _ _ p => pointMove p
  end.

(** The position of the pen, from where the path starts, after all its
    commands. *)
Definition penEnd (path : svgPaths.Path) : Q * Q :=
  fold_left (fun acc command => addPoints acc (penMove command)) path
    (0%Q, 0%Q).

(** The positions of the pen after each command of the path. *)
Fixpoint penTraceFrom (start : Q * Q) (path : svgPaths.Path)
  : list (Q * Q) :=
  match path with
  | [] => []
  | command :: rest =>
      let next := addPoints start (penMove command) in
      next :: penTraceFrom next rest
  end.

Definition penTrace (path : svgPaths.Path) : list (Q * Q) :=
  penTraceFrom (0%Q, 0%Q) path.

(** Two positions are the same, and are mirror images of each other in the
    vertical axis. *)
Definition samePoint (p q : Q * Q) : Prop :=
  (fst p == fst q)%Q /\ (snd p == snd q)%Q.

Definition mirrorPoint (p q : Q * Q) : Prop :=
  (fst q == - fst p)%Q /\ (snd q == snd p)%Q.

(* ================================================================= *)
(** ** The workspace search (core/search.js) *)

Module Search.

(** A block of the workspace is referred to by its position in the array
    that [workspace_.getAllBlocks()] returns. *)
Definition BlockRef := nat.

(** The text of [countSpan_]: empty, or [current + ' of ' + total]. *)
Inductive CountText :=
| blank
| currentOfTotal (current total : Z).

(** The search box after [init]. [workspace_] holds, for each block of the
    workspace, what its [toString()] returns. The blocks and the count span
    are objects outside the search box; [setHighlightedCalls] records the
    calls [block.setHighlighted(flag)] that have been made, in order, and
    [countSpan_textContent] the text of the count span.
    [highlightedIndex_] is [None] until it is first assigned
    ([undefined]). *)
Record t := mk {
  workspace_ : list string;
  searchResults_ : list BlockRef;
  highlightedBlock_ : option BlockRef;
  highlightedIndex_ : option Z;
  setHighlightedCalls : list (BlockRef * bool);
  countSpan_textContent : CountText
}.

(** The constructor, followed by [init]. *)
Definition new (workspace : list string) : t :=
  {| workspace_ := workspace;
     searchResults_ := [];
     highlightedBlock_ := None;
     highlightedIndex_ := None;
     setHighlightedCalls := [];
     countSpan_textContent := blank |}.

(** [block.setHighlighted(flag)]. *)
Definition setHighlighted (block : BlockRef) (flag : bool) (this : t) : t :=
  {| workspace_ := workspace_ this;
     searchResults_ := searchResults_ this;
     highlightedBlock_ := highlightedBlock_ this;
     highlightedIndex_ := highlightedIndex_ this;
     setHighlightedCalls := setHighlightedCalls this ++ [(block, flag)];
     countSpan_textContent := countSpan_textContent this |}.

Definition setHighlightedBlock (block : option BlockRef) (this : t) : t :=
  {| workspace_ := workspace_ this;
     searchResults_ := searchResults_ this;
     highlightedBlock_ := block;
     highlightedIndex_ := highlightedIndex_ this;
     setHighlightedCalls := setHighlightedCalls this;
     countSpan_textContent := countSpan_textContent this |}.

Definition setHighlightedIndex (index : option Z) (this : t) : t :=
  {| workspace_ := workspace_ this;
     searchResults_ := searchResults_ this;
     highlightedBlock_ := highlightedBlock_ this;
     highlightedIndex_ := index;
     setHighlightedCalls := setHighlightedCalls this;
     countSpan_textContent := countSpan_textContent this |}.

Definition setSearchResults (results : list BlockRef) (this : t) : t :=
  {| workspace_ := workspace_ this;
     searchResults_ := results;
     highlightedBlock_ := highlightedBlock_ this;
     highlightedIndex_ := highlightedIndex_ this;
     setHighlightedCalls := setHighlightedCalls this;
     countSpan_textContent := countSpan_textContent this |}.

Definition setResultCount_ (current total : Z) (this : t) : t :=
  {| workspace_ := workspace_ this;
     searchResults_ := searchResults_ this;
     highlightedBlock_ := highlightedBlock_ this;
     highlightedIndex_ := highlightedIndex_ this;
     setHighlightedCalls := setHighlightedCalls this;
     countSpan_textContent :=
       if total =? 0 then blank else currentOfTotal current total |}.

(** [searchBlock_]. *)
Definition searchBlock_ (blockStr : string) (search : string) : bool :=
  indexOf blockStr search >? -1.

(** [array[index]] for an index that is a number or [undefined]:
    [undefined] ([None]) unless the index is a position of the array. *)
Definition at_ {A : Type} (array : list A) (index : option Z) : option A :=
  match index with
  | Some i => if i <? 0 then None else nth_error array (Z.to_nat i)
  | None => None
  end.

(** [higlightSearchIndex_]. The search box is as the function left it
    also when it throws. *)
Definition higlightSearchIndex_ (index : option Z) (this : t)
  : t * Completion unit :=
  let this :=
    match highlightedBlock_ this with
    | Some highlighted => setHighlighted highlighted false this
    | None => this
    end in
  match at_ (searchResults_ this) index with
  | None => (this, Throw TypeError)
  | Some block =>
      let this := setHighlighted block true this in
      let this := setHighlightedBlock (Some block) this in
      let this := setHighlightedIndex index this in
      let this :=
        setResultCount_
          (match index with Some i => i + 1 | None => 0 end)
          (Z.of_nat (List.length (searchResults_ this))) this in
      (this, Normal tt)
  end.

(** The loop of [search] over the blocks from position [i] on. *)
Fixpoint matchesFrom (i : nat) (blocks : list string) (search : string)
  : list BlockRef :=
  match blocks with
  | [] => []
  | blockStr :: rest =>
      if searchBlock_ blockStr search
      then i :: matchesFrom (S i) rest search
      else matchesFrom (S i) rest search
  end.

(** [search]: the results, or [None] for the [undefined] that it returns
    for an empty term. *)
Definition search (term : string) (this : t)
  : t * Completion (option (list BlockRef)) :=
  let this :=
    match highlightedBlock_ this with
    | Some highlighted =>
        setHighlightedBlock None (setHighlighted highlighted false this)
    | None => this
    end in
  if String.eqb term "" then (setResultCount_ 0 0 this, Normal None)
  else
    let results := matchesFrom 0 (workspace_ this) term in
    let this := setSearchResults results this in
    match higlightSearchIndex_ (Some 0) this with
    | (this, Normal _) => (this, Normal (Some results))
    | (this, Throw e) => (this, Throw e)
    end.

(** [highlightNext_]; [%] is the remainder of the truncated division. *)
Definition highlightNext_ (this : t) : t * Completion unit :=
  let length := Z.of_nat (List.length (searchResults_ this)) in
  if negb (length =? 0) then
    let currentIndex := highlightedIndex_ this in
    let nextIndex :=
      match currentIndex with
      | Some i => Some (Z.rem (i + 1) length)
      | None => None
      end in
    higlightSearchIndex_ nextIndex this
  else (this, Normal tt).

End Search.

(** The flag of the last call [block.setHighlighted(flag)] made for a
    block: whether the search has the block highlighted. *)
Definition highlightedBy (calls : list (Search.BlockRef * bool))
    (block : Search.BlockRef) : bool :=
  fold_left (fun acc call => if Nat.eqb (fst call) block then snd call else acc)
    calls false.

(** The blocks that the search has highlighted are the block that it
    records as highlighted, if any, and no other. *)
Definition singleHighlight (this : Search.t) : Prop :=
  forall block,
    highlightedBy (Search.setHighlightedCalls this) block = true <->
    Search.highlightedBlock_ this = Some block.

(** The search box after [k] calls of [highlightNext_]. *)
Fixpoint pressNext (k : nat) (this : Search.t) : Search.t :=
  match k with
  | O => this
  | S k' => pressNext k' (fst (Search.highlightNext_ this))
  end.

(** A search box with three blocks, after a search for 'repeat'. *)
Definition sampleSearch : Search.t :=
  fst (Search.search "repeat"
         (Search.new ["repeat 10 times"; "print hello"; "repeat forever"])).

(* ================================================================= *)
(** ** JavaScript values, for the functions that inspect what they get *)

Module JS.

(** A JavaScript value. A number is an integer or [NaN] here; the other
    numbers of JavaScript behave, where the code below inspects them, like
    the integers that are not zero. [fn] is a function without properties
    of its own; the properties of an object are its own ones, the first
    entry for a key being the one that counts. *)
#[warnings="-register-all"]
Inductive Value :=
| undefined
| null
| boolean (b : bool)
| number (n : Z)
| NaN
| str (s : string)
| array (items : list Value)
| object (props : list (string * Value))
| fn.

(** [Array.isArray(v)]. *)
Definition isArray (v : Value) : bool :=
  match v with
  | array _ => true
  | _ => false
  end.

(** [typeof v == 'string']. *)
Definition isString (v : Value) : bool :=
  match v with
  | str _ => true
  | _ => false
  end.

(** [!!v]. *)
Definition truthy (v : Value) : bool :=
  match v with
  | undefined | null | NaN => false
  | boolean b => b
  | number n => negb (n =? 0)
  | str s => negb (String.eqb s "")
  | array _ | object _ | fn => true
  end.

(** [v === undefined]. *)
Definition isUndefined (v : Value) : bool :=
  match v with
  | undefined => true
  | _ => false
  end.

(** [a || b]. *)
Definition or (a b : Value) : Value := if truthy a then a else b.

Fixpoint lookup (props : list (string * Value)) (key : string) : Value :=
  match props with
  | [] => undefined
  | (k, v) :: rest => if String.eqb k key then v else lookup rest key
  end.

(** [v[i]] for an array [v] and an index [i]. *)
Definition item (v : Value) (i : nat) : Value :=
  match v with
  | array items => nth i items undefined
  | _ => undefined
  end.

(** [v[key]] for a key that is not an index and names no property of the
    built-in prototypes (the keys the code below reads are 'src', 'move',
    'scrollbars', 'wheel' and 'drag'): a property of an object, [undefined]
    on every other value, and a TypeError on [undefined] and [null]. *)
Definition get (v : Value) (key : string) : Completion Value :=
  match v with
  | undefined | null => Throw TypeError
  | object props => Normal (lookup props key)
  | _ => Normal undefined
  end.

(** [s.substring(indexStart, indexEnd)]: both indices are brought into
    [0 .. length], and swapped if the first is the larger. *)
Definition substring (s : string) (indexStart indexEnd : Z) : string :=
  let len := Z.of_nat (String.length s) in
  let a := Z.max 0 (Z.min indexStart len) in
  let b := Z.max 0 (Z.min indexEnd len) in
  String.substring (Z.to_nat (Z.min a b)) (Z.to_nat (Z.max a b - Z.min a b)) s.

End JS.

(* ================================================================= *)
(** ** The options of a dropdown field (core/field_dropdown.js) *)

Module FieldDropdown.

(** The body of the loop of [validateOptions_]: [foundError] after the
    tuple [options[i]]. Reading [src] of a label that is [undefined] or
    [null] throws. The messages for the console are left out: the two that
    append an item of the tuple to a text convert it to a string, which
    does not throw for the values above as long as no object among them
    has a [toString] or a [valueOf] of its own. *)
Definition validateOptions_tuple (foundError : bool) (tuple : JS.Value)
  : Completion bool :=
  if negb (JS.isArray tuple) then Normal true
  else if negb (JS.isString (JS.item tuple 1)) then Normal true
  else if negb (JS.isString (JS.item tuple 0)) then
    src <- JS.get (JS.item tuple 0) "src" ;;
    if negb (JS.isString src) then Normal true else Normal foundError
  else Normal foundError.

Fixpoint validateOptions_loop (foundError : bool) (tuples : list JS.Value)
  : Completion bool :=
  match tuples with
  | [] => Normal foundError
  | tuple :: rest =>
      foundError <- validateOptions_tuple foundError tuple ;;
      validateOptions_loop foundError rest
  end.

Definition validateOptions_ (options : JS.Value) : Completion unit :=
  match options with
  | JS.array tuples =>
      foundError <- validateOptions_loop false tuples ;;
      if foundError then Throw "Found invalid FieldDropdown options."
      else Normal tt
  | _ => Throw "FieldDropdown options must be an array."
  end.

(** [applyTrim_], for the options that trimOptions_ gives it: tuples of a
    text and a value. *)
Definition applyTrim_ {V : Type} (options : list (string * V))
    (prefixLength suffixLength : Z) : list (string * V) :=
  map (fun option =>
         let text := fst option in
         let value := snd option in
         let text :=
           JS.substring text prefixLength
             (Z.of_nat (String.length text) - suffixLength) in
         (text, value))
    options.

(** A dropdown whose [menuGenerator_] is an array of options that
    [validateOptions_] has accepted; the label of an option (a text or an
    image) is of a type [L] that the functions below do not inspect. *)
Record t (L : Type) := mk {
  menuGenerator_ : list (L * string)
}.
Arguments menuGenerator_ {L} _.

(** [getOptions], for a list of options that is not generated. *)
Definition getOptions {L : Type} (this : t L) : list (L * string) :=
  menuGenerator_ this.

(** [doClassValidation_] for a new value that is a string, or
    [undefined] ([None]); the result is [None] for [null]. The warning
    for the console is left out. *)
Definition doClassValidation_ {L : Type} (this : t L)
    (opt_newValue : option string) : option string :=
  let options := getOptions this in
  let isValueValid :=
    existsb (fun option =>
               match opt_newValue with
               | Some newValue => String.eqb (snd option) newValue
               | None => false
               end)
      options in
  if negb isValueValid then None
  else
    match opt_newValue with
    | Some newValue => if String.eqb newValue "" then None else Some newValue
    | None => None
    end.

End FieldDropdown.

(* ================================================================= *)
(** ** The move options of a workspace (src/unnamed/part_000) *)

Module Options.

Record MoveOptions := mkMoveOptions {
  scrollbars : bool;
  wheel : bool;
  drag : bool
}.

(** [parseMoveOptions_]. *)
Definition parseMoveOptions_ (options : JS.Value) (hasCategories : bool)
  : Completion MoveOptions :=
  optionsMove <- JS.get options "move" ;;
  let move := JS.or optionsMove (JS.object []) in
  moveScrollbars <- JS.get move "scrollbars" ;;
  optionsScrollbars <- JS.get options "scrollbars" ;;
  let scrollbars :=
    if JS.isUndefined moveScrollbars && JS.isUndefined optionsScrollbars
    then hasCategories
    else JS.truthy moveScrollbars || JS.truthy optionsScrollbars in
  moveWheel <- JS.get move "wheel" ;;
  let wheel :=
    if negb scrollbars || JS.isUndefined moveWheel then false
    else JS.truthy moveWheel in
  moveDrag <- JS.get move "drag" ;;
  let drag :=
    if negb scrollbars then false
    else if JS.isUndefined moveDrag then true
    else JS.truthy moveDrag in
  Normal {| scrollbars := scrollbars; wheel := wheel; drag := drag |}.

End Options.

(** An option that [validateOptions_] accepts: an array whose second item
    is a string and whose first item is a string or an object with a
    string [src]. *)
Definition isImage (label : JS.Value) : bool :=
  match label with
  | JS.object props => JS.isString (JS.lookup props "src")
  | _ => false
  end.

Definition validOption (tuple : JS.Value) : bool :=
  JS.isArray tuple
  && JS.isString (JS.item tuple 1)
  && (JS.isString (JS.item tuple 0) || isImage (JS.item tuple 0)).

(** A block whose only input, a statement input, is not visible. *)
Definition hiddenInputBlock : Blockly.Block.t :=
  sampleBlock
    [{| Blockly.Input.type := Blockly.NEXT_STATEMENT;
        Blockly.Input.visible_ := false;
        Blockly.Input.fieldRow := []; Blockly.Input.width := 30;
        Blockly.Input.height := 20;
        Blockly.Input.connectedBlockWidth := 0 |}]
    None.

(* ================================================================= *)
(** * Properties *)

(** ** Measurable classification and the Drawer *)

Lemma typeIs_Some (m : Measurable.t) (ty s : string) :
  Measurable.type m = Some ty ->
  Measurable.typeIs m s = String.eqb ty s.
Proof. intros H. unfold Measurable.typeIs. now rewrite H. Qed.

Lemma typeIndexOf_Some (m : Measurable.t) (ty s : string) :
  Measurable.type m = Some ty ->
  Measurable.typeIndexOf m s = Normal (indexOf ty s).
Proof. intros H. unfold Measurable.typeIndexOf. now rewrite H. Qed.

Lemma roundedAnd_not_rounded (negated : bool) (m : Measurable.t)
    (ty : string) :
  Measurable.type m = Some ty ->
  (indexOf ty "round corner" =? 0) = false ->
  Drawer.roundedAnd negated m = Normal false.
Proof.
  intros Hty Hr. unfold Drawer.roundedAnd, Measurable.isRoundedCorner.
  rewrite (typeIndexOf_Some _ _ _ Hty). cbn [bind]. now rewrite Hr.
Qed.

Lemma drawTop_elem_no_branch (d : Drawer.t) (m : Measurable.t) (ty : string) :
  Measurable.type m = Some ty ->
  topBranch ty = false ->
  Drawer.drawTop_elem d m = Normal d.
Proof.
  intros Hty Hb. unfold topBranch in Hb.
  repeat (apply orb_false_iff in Hb; destruct Hb as [Hb ?]).
  unfold Drawer.drawTop_elem.
  rewrite !(roundedAnd_not_rounded _ _ _ Hty Hb). cbn [bind].
  unfold Measurable.isSpacer.
  rewrite !(typeIs_Some _ _ _ Hty).
  repeat match goal with H : _ = false |- _ => rewrite H; clear H end.
  reflexivity.
Qed.

Lemma drawBottom_elem_no_branch (d : Drawer.t) (m : Measurable.t)
    (ty : string) :
  Measurable.type m = Some ty ->
  bottomBranch ty = false ->
  Drawer.drawBottom_elem d m = Normal d.
Proof.
  intros Hty Hb. unfold bottomBranch in Hb.
  repeat (apply orb_false_iff in Hb; destruct Hb as [Hb ?]).
  unfold Drawer.drawBottom_elem, Measurable.isNextConnection.
  rewrite !(typeIs_Some _ _ _ Hty).
  rewrite Hb.
  match goal with H : String.eqb ty "square corner left" = false |- _ =>
    rewrite H end.
  match goal with H : (indexOf ty "round corner" =? 0) = false |- _ =>
    rewrite !(roundedAnd_not_rounded _ _ _ Hty H) end.
  cbn [bind]. unfold Measurable.isSpacer.
  rewrite !(typeIs_Some _ _ _ Hty).
  repeat match goal with H : _ = false |- _ => rewrite H; clear H end.
  reflexivity.
Qed.

(** C7 (as amended): an element whose type matches none of the branches of
    a walk contributes no path segment to the outline and raises no error;
    the walk goes on with the outline as it was. *)
Theorem unmatched_element_is_skipped :
  forall (d : Drawer.t) (elem : Measurable.t) (ty : string),
    Measurable.type elem = Some ty ->
    (topBranch ty = false -> Drawer.drawTop_elem d elem = Normal d) /\
    (bottomBranch ty = false -> Drawer.drawBottom_elem d elem = Normal d).
Proof.
  intros d elem ty Hty. split; intros Hb.
  - now apply drawTop_elem_no_branch with ty.
  - now apply drawBottom_elem_no_branch with ty.
Qed.

Lemma unmatched_element_is_skipped_witness :
  Measurable.type (blockRendering.JaggedEdge sampleConstants)
    = Some "jagged edge" /\
  topBranch "jagged edge" = false /\
  bottomBranch "jagged edge" = false /\
  Drawer.drawTop_elem
    (sampleDrawer blockRendering.TopRow blockRendering.BottomRow)
    (blockRendering.JaggedEdge sampleConstants)
  = Normal (sampleDrawer blockRendering.TopRow blockRendering.BottomRow) /\
  Drawer.drawBottom_elem
    (sampleDrawer blockRendering.TopRow blockRendering.BottomRow)
    (blockRendering.JaggedEdge sampleConstants)
  = Normal (sampleDrawer blockRendering.TopRow blockRendering.BottomRow).
Proof.
  pose proof (unmatched_element_is_skipped
                (sampleDrawer blockRendering.TopRow blockRendering.BottomRow)
                (blockRendering.JaggedEdge sampleConstants)
                "jagged edge" eq_refl) as [Ht Hb].
  split; [reflexivity|]. split; [reflexivity|]. split; [reflexivity|].
  split; [apply Ht | apply Hb]; reflexivity.
Defined.

(** C7 (as stated) fails: the walk over a top row that holds a jagged edge,
    which is none of the kinds the Drawer draws, returns normally, and the
    outline is the one of the row without that element. *)
Lemma unrecognized_kind_does_not_fail :
  exists d' d'' : Drawer.t,
    Drawer.drawTop_
      (sampleDrawer
         (Row.setElements
            [zelos.RoundCorner sampleConstants;
             blockRendering.JaggedEdge sampleConstants;
             blockRendering.InRowSpacer sampleConstants 7]
            blockRendering.TopRow)
         blockRendering.BottomRow) = Normal d' /\
    Drawer.drawTop_
      (sampleDrawer
         (Row.setElements
            [zelos.RoundCorner sampleConstants;
             blockRendering.InRowSpacer sampleConstants 7]
            blockRendering.TopRow)
         blockRendering.BottomRow) = Normal d'' /\
    Drawer.outlinePath_ d' = Drawer.outlinePath_ d'' /\
    Drawer.outlinePath_ d'
    = [moveBy 0 0; fragment "top left"; lineOnAxis "h" 7; lineOnAxis "v" 0].
Proof. do 2 eexists. repeat split; reflexivity. Qed.

(** C10: a Measurable of type 'right round corner' is a corner, but neither
    a rounded corner (the type does not start with 'round corner': it is
    found at position 6) nor a right corner ('corner right' does not occur in
    it), so no branch of the top and bottom walks applies to it: both leave
    the outline as it is. *)
Theorem right_round_corner_is_not_drawn :
  forall (d : Drawer.t) (m : Measurable.t),
    Measurable.type m = Some "right round corner" ->
    Measurable.isCorner m = Normal true /\
    Measurable.isRoundedCorner m = Normal false /\
    Measurable.isRightCorner m = Normal false /\
    indexOf "right round corner" "round corner" = 6 /\
    indexOf "right round corner" "corner right" = -1 /\
    Drawer.roundedAnd true m = Normal false /\
    Drawer.roundedAnd false m = Normal false /\
    Drawer.drawTop_elem d m = Normal d /\
    Drawer.drawBottom_elem d m = Normal d.
Proof.
  intros d m Hty.
  unfold Measurable.isCorner, Measurable.isRoundedCorner,
    Measurable.isRightCorner.
  rewrite !(typeIndexOf_Some _ _ _ Hty).
  repeat split; try reflexivity.
  - now apply roundedAnd_not_rounded with "right round corner".
  - now apply roundedAnd_not_rounded with "right round corner".
  - now apply drawTop_elem_no_branch with "right round corner".
  - now apply drawBottom_elem_no_branch with "right round corner".
Qed.

Lemma right_round_corner_is_not_drawn_witness :
  Measurable.isCorner (zelos.RightRoundCorner sampleConstants) = Normal true /\
  Measurable.isRoundedCorner (zelos.RightRoundCorner sampleConstants)
    = Normal false /\
  Measurable.isRightCorner (zelos.RightRoundCorner sampleConstants)
    = Normal false.
Proof.
  pose proof (right_round_corner_is_not_drawn
                (sampleDrawer blockRendering.TopRow blockRendering.BottomRow)
                (zelos.RightRoundCorner sampleConstants) eq_refl)
    as (H1 & H2 & H3 & _).
  repeat split; assumption.
Defined.

(** ** Spacing between the elements of a row *)

(** C5: for Measurables as the renderer builds them (an input tag comes with
    [isInput]), the spacer after [prev] and before [next] is NO_PADDING when
    [prev] is an external value input and there is no [next], LARGE_PADDING
    when [prev] is an inline input and there is no [next], NO_PADDING when
    [prev] is a statement input and there is no [next], and MEDIUM_PADDING
    in every other case. *)
Theorem getInRowSpacing_policy :
  forall (this : RenderInfo.t) (prev next : option Measurable.t),
    (forall p, prev = Some p -> inputTagged p) ->
    RenderInfo.getInRowSpacing_ this prev next =
    match prev, next with
    | Some p, None =>
        if Measurable.isExternalInput p
        then ConstantProvider.NO_PADDING (RenderInfo.constants_ this)
        else if Measurable.isInlineInput p
        then ConstantProvider.LARGE_PADDING (RenderInfo.constants_ this)
        else if Measurable.isStatementInput p
        then ConstantProvider.NO_PADDING (RenderInfo.constants_ this)
        else ConstantProvider.MEDIUM_PADDING (RenderInfo.constants_ this)
    | _, _ => ConstantProvider.MEDIUM_PADDING (RenderInfo.constants_ this)
    end.
Proof.
  intros this prev next Htag.
  destruct prev as [p|]; [|reflexivity].
  destruct next as [n|]; [reflexivity|].
  specialize (Htag p eq_refl). unfold inputTagged, hasInputTag in Htag.
  unfold RenderInfo.getInRowSpacing_.
  destruct (Measurable.isInput p); [reflexivity|].
  destruct (Measurable.isExternalInput p); [now discriminate Htag|].
  destruct (Measurable.isInlineInput p); [now discriminate Htag|].
  destruct (Measurable.isStatementInput p); [now discriminate Htag|].
  reflexivity.
Qed.

Lemma getInRowSpacing_policy_witness :
  RenderInfo.getInRowSpacing_ sampleInfo
    (Some (blockRendering.InlineInput sampleConstants
             (sampleInput Blockly.INPUT_VALUE 20 10)))
    None = 10 /\
  RenderInfo.getInRowSpacing_ sampleInfo
    (Some (blockRendering.StatementInput sampleConstants
             (sampleInput Blockly.NEXT_STATEMENT 20 10)))
    None = 0.
Proof.
  split.
  - rewrite (getInRowSpacing_policy sampleInfo
               (Some (blockRendering.InlineInput sampleConstants
                        (sampleInput Blockly.INPUT_VALUE 20 10))) None).
    + reflexivity.
    + intros p Hp. injection Hp as <-. intros _. reflexivity.
  - rewrite (getInRowSpacing_policy sampleInfo
               (Some (blockRendering.StatementInput sampleConstants
                        (sampleInput Blockly.NEXT_STATEMENT 20 10))) None).
    + reflexivity.
    + intros p Hp. injection Hp as <-. intros _. reflexivity.
Defined.

(** ** Starting a new row *)


Lemma createRows_input_rows (this : RenderInfo.t) (rs : list RowRef)
    (activeRow : Row.t) (lastInput : option Blockly.Input.t)
    (input : Blockly.Input.t) :
  fst (fst (RenderInfo.createRows_input this (rs, activeRow, lastInput) input))
  = if Blockly.Input.isVisible input
       && RenderInfo.shouldStartNewRow_ this input lastInput
    then rs ++ [ROwn activeRow]
    else rs.
Proof.
  unfold RenderInfo.createRows_input.
  destruct (Blockly.Input.isVisible input); cbn [negb andb]; [|reflexivity].
  now destruct (RenderInfo.shouldStartNewRow_ this input lastInput).
Qed.





(** ** The Zelos shape of a connection *)

Lemma arrayIndexOfFrom_In (l : list string) (x : string) :
  forall i, 0 <= i -> In x l -> 0 <= arrayIndexOfFrom l x i.
Proof.
  induction l as [|y l IH]; intros i Hi Hin; [contradiction|].
  cbn [arrayIndexOfFrom]. destruct (String.eqb y x) eqn:E; [exact Hi|].
  destruct Hin as [->|Hin]; [now rewrite String.eqb_refl in E|].
  apply IH; [lia|exact Hin].
Qed.

Lemma checksInclude_In (l : list string) (x : string) :
  In x l -> zelos.ConstantProvider.checksInclude (Some l) x = true.
Proof.
  intros Hin. unfold zelos.ConstantProvider.checksInclude, arrayIndexOf.
  pose proof (arrayIndexOfFrom_In l x 0 (Z.le_refl 0) Hin) as H.
  apply negb_true_iff, Z.eqb_neq. lia.
Qed.

(** C6: [shapeFor] returns the hexagonal shape (the triangle in the earlier
    definition) for an input or output value connection whose check list
    contains 'Boolean', the notch for a previous or next statement
    connection, and throws for a connection of any other type. *)
Theorem shapeFor_cases :
  forall (shape : Type) (constants this : zelos.ConstantProvider.t shape)
         (connection : Blockly.Connection.t),
    ((Blockly.Connection.type connection = Blockly.INPUT_VALUE \/
      Blockly.Connection.type connection = Blockly.OUTPUT_VALUE) ->
     (exists checks,
         Blockly.Connection.getCheck connection = Some checks /\
         In "Boolean" checks) ->
     zelos.ConstantProvider.shapeFor shape this connection
     = Normal (zelos.ConstantProvider.HEXAGONAL shape this) /\
     zelos.ConstantProvider.shapeFor_triangle shape constants this connection
     = Normal (zelos.ConstantProvider.TRIANGLE shape constants)) /\
    ((Blockly.Connection.type connection = Blockly.PREVIOUS_STATEMENT \/
      Blockly.Connection.type connection = Blockly.NEXT_STATEMENT) ->
     zelos.ConstantProvider.shapeFor shape this connection
     = Normal (zelos.ConstantProvider.NOTCH shape this) /\
     zelos.ConstantProvider.shapeFor_triangle shape constants this connection
     = Normal (zelos.ConstantProvider.NOTCH shape this)) /\
    (Blockly.Connection.type connection <> Blockly.INPUT_VALUE ->
     Blockly.Connection.type connection <> Blockly.OUTPUT_VALUE ->
     Blockly.Connection.type connection <> Blockly.PREVIOUS_STATEMENT ->
     Blockly.Connection.type connection <> Blockly.NEXT_STATEMENT ->
     zelos.ConstantProvider.shapeFor shape this connection
     = Throw "Unknown type" /\
     zelos.ConstantProvider.shapeFor_triangle shape constants this connection
     = Throw "Unknown type").
Proof.
  intros shape constants this connection.
  unfold zelos.ConstantProvider.shapeFor,
    zelos.ConstantProvider.shapeFor_triangle.
  split; [|split].
  - intros Hty (checks & -> & Hin).
    rewrite (checksInclude_In _ _ Hin). now destruct Hty as [-> | ->].
  - intros Hty. now destruct Hty as [-> | ->].
  - intros Hi Ho Hp Hn.
    now destruct (Blockly.Connection.type connection).
Qed.

(** ** Loops over the rows *)

Lemma forRows_pure {A : Type} (body : A -> Row.t -> A * Row.t)
    (refs : list RowRef) :
  forall top bottom a,
    forRows (fun a r => Normal (body a r)) refs top bottom a
    = Normal (forRowsPure body refs top bottom a).
Proof.
  induction refs as [|[| |r] rest IH]; intros top bottom a;
    cbn [forRows forRowsPure bind]; [reflexivity| | |].
  - destruct (body a top) as [a1 top1]. rewrite IH. cbn [bind].
    now destruct (forRowsPure body rest top1 bottom a1) as [[[? ?] ?] ?].
  - destruct (body a bottom) as [a1 bottom1]. rewrite IH. cbn [bind].
    now destruct (forRowsPure body rest top bottom1 a1) as [[[? ?] ?] ?].
  - destruct (body a r) as [a1 r1]. rewrite IH. cbn [bind].
    now destruct (forRowsPure body rest top bottom a1) as [[[? ?] ?] ?].
Qed.

(** A step of [forRows], inverted. *)
Ltac forRows_step Hrun body a r IH :=
  let a1 := fresh "a1" in
  let r1 := fresh "r1" in
  let Hb := fresh "Hbody" in
  let Hrest := fresh "Hrest" in
  cbn [forRows bind] in Hrun;
  destruct (body a r) as [[a1 r1]|?] eqn:Hb; cbn [bind] in Hrun;
  [|discriminate Hrun];
  match type of Hrun with
  | context [forRows body ?rest ?t ?b a1] =>
      destruct (forRows body rest t b a1) as [[[[? ?] ?] ?]|?] eqn:Hrest;
      cbn [bind] in Hrun; [|discriminate Hrun];
      injection Hrun as <- <- <- <-
  end.

(** Hoare-style rule for a loop over the rows: [I] is kept by the body on
    every row, and the body takes an owned row from [P] to [Q]. An owned row
    is visited once, whatever the top and bottom rows are referred to. *)
Lemma forRows_rule {A : Type} (body : A -> Row.t -> Completion (A * Row.t))
    (I P Q : Row.t -> Prop) :
  (forall a r a' r', I r -> body a r = Normal (a', r') -> I r') ->
  (forall a r a' r', P r -> body a r = Normal (a', r') -> Q r') ->
  forall refs top bottom a refs' top' bottom' a',
    I top -> I bottom -> Forall (owned P) refs ->
    forRows body refs top bottom a = Normal (refs', top', bottom', a') ->
    I top' /\ I bottom' /\ Forall (owned Q) refs' /\
    Forall2 sameKind refs refs'.
Proof.
  intros HI HPQ refs.
  induction refs as [|[| |r] rest IH];
    intros top bottom a refs' top' bottom' a' Ht Hb Hrefs Hrun.
  - cbn in Hrun. injection Hrun as <- <- <- <-. repeat split; auto.
  - inversion Hrefs as [|? ? _ Hrest']; subst.
    forRows_step Hrun body a top IH.
    destruct (IH _ _ _ _ _ _ _ (HI _ _ _ _ Ht Hbody) Hb Hrest' Hrest)
      as (? & ? & ? & ?).
    repeat split; auto; constructor; cbn; auto.
  - inversion Hrefs as [|? ? _ Hrest']; subst.
    forRows_step Hrun body a bottom IH.
    destruct (IH _ _ _ _ _ _ _ Ht (HI _ _ _ _ Hb Hbody) Hrest' Hrest)
      as (? & ? & ? & ?).
    repeat split; auto; constructor; cbn; auto.
  - inversion Hrefs as [|? ? Hr Hrest']; subst. cbn in Hr.
    forRows_step Hrun body a r IH.
    destruct (IH _ _ _ _ _ _ _ Ht Hb Hrest' Hrest) as (? & ? & ? & ?).
    repeat split; auto; constructor; cbn; eauto.
Qed.

(** The loop returns when its body returns on every row that satisfies an
    invariant it keeps. *)
Lemma forRows_returns {A : Type}
    (body : A -> Row.t -> Completion (A * Row.t)) (I : Row.t -> Prop) :
  (forall a r, I r -> exists a' r', body a r = Normal (a', r') /\ I r') ->
  forall refs top bottom a,
    I top -> I bottom -> Forall (owned I) refs ->
    exists res, forRows body refs top bottom a = Normal res.
Proof.
  intros HI refs.
  induction refs as [|[| |r] rest IH]; intros top bottom a Ht Hb Hrefs.
  - now eexists.
  - inversion Hrefs as [|? ? _ Hrest']; subst.
    destruct (HI a top Ht) as (a1 & top1 & Hbody & Ht1).
    destruct (IH top1 bottom a1 Ht1 Hb Hrest') as ([[[? ?] ?] ?] & Hrest).
    cbn [forRows bind]. rewrite Hbody. cbn [bind]. rewrite Hrest.
    now eexists.
  - inversion Hrefs as [|? ? _ Hrest']; subst.
    destruct (HI a bottom Hb) as (a1 & bottom1 & Hbody & Hb1).
    destruct (IH top bottom1 a1 Ht Hb1 Hrest') as ([[[? ?] ?] ?] & Hrest).
    cbn [forRows bind]. rewrite Hbody. cbn [bind]. rewrite Hrest.
    now eexists.
  - inversion Hrefs as [|? ? Hr Hrest']; subst. cbn in Hr.
    destruct (HI a r Hr) as (a1 & r1 & Hbody & Hr1).
    destruct (IH top bottom a1 Ht Hb Hrest') as ([[[? ?] ?] ?] & Hrest).
    cbn [forRows bind]. rewrite Hbody. cbn [bind]. rewrite Hrest.
    now eexists.
Qed.

Lemma forRowsPure_rule {A : Type} (body : A -> Row.t -> A * Row.t)
    (I P Q : Row.t -> Prop) :
  (forall a r, I r -> I (snd (body a r))) ->
  (forall a r, P r -> Q (snd (body a r))) ->
  forall refs top bottom a refs' top' bottom' a',
    I top -> I bottom -> Forall (owned P) refs ->
    forRowsPure body refs top bottom a = (refs', top', bottom', a') ->
    I top' /\ I bottom' /\ Forall (owned Q) refs' /\
    Forall2 sameKind refs refs'.
Proof.
  intros HI HPQ refs top bottom a refs' top' bottom' a' Ht Hb Hrefs Hrun.
  apply (forRows_rule (fun a r => Normal (body a r)) I P Q)
    with (top := top) (bottom := bottom) (a := a) (a' := a'); auto.
  - intros a0 r a1 r1 Hr Hbody. injection Hbody as Hbody.
    specialize (HI a0 r Hr). now rewrite Hbody in HI.
  - intros a0 r a1 r1 Hr Hbody. injection Hbody as Hbody.
    specialize (HPQ a0 r Hr). now rewrite Hbody in HPQ.
  - now rewrite forRows_pure, Hrun.
Qed.

Lemma Forall2_sameKind_length (refs refs' : list RowRef) :
  Forall2 sameKind refs refs' -> List.length refs' = List.length refs.
Proof. intros H. symmetry. eapply Forall2_length, H. Qed.

Lemma deref_no_top (top1 top2 bottom : Row.t) (refs : list RowRef) :
  filter isRTop refs = [] ->
  map (deref top1 bottom) refs = map (deref top2 bottom) refs.
Proof.
  induction refs as [|[| |r] rest IH]; cbn [filter isRTop map deref];
    intros H; [reflexivity|discriminate H| |]; now rewrite IH.
Qed.

Lemma deref_no_bottom (top bottom1 bottom2 : Row.t) (refs : list RowRef) :
  filter isRBottom refs = [] ->
  map (deref top bottom1) refs = map (deref top bottom2) refs.
Proof.
  induction refs as [|[| |r] rest IH]; cbn [filter isRBottom map deref];
    intros H; [reflexivity| |discriminate H|]; now rewrite IH.
Qed.

Lemma aliasFree_cons_top (rest : list RowRef) :
  aliasFree (RTop :: rest) = true ->
  filter isRTop rest = [] /\ aliasFree rest = true.
Proof.
  unfold aliasFree. cbn [filter isRTop isRBottom List.length].
  intros H. apply andb_true_iff in H as [H1 H2].
  destruct (filter isRTop rest); [|discriminate H1].
  split; [reflexivity|]. now rewrite H2.
Qed.

Lemma aliasFree_cons_bottom (rest : list RowRef) :
  aliasFree (RBottom :: rest) = true ->
  filter isRBottom rest = [] /\ aliasFree rest = true.
Proof.
  unfold aliasFree. cbn [filter isRTop isRBottom List.length].
  intros H. apply andb_true_iff in H as [H1 H2].
  destruct (filter isRBottom rest); [|discriminate H2].
  split; [reflexivity|]. now rewrite H1.
Qed.

(** In a loop over rows that are referred to once each, every row object is
    read and written once: the loop acts on the row values in order. *)
Lemma forRowsPure_values {A : Type} (body : A -> Row.t -> A * Row.t)
    (refs : list RowRef) :
  forall top bottom a refs' top' bottom' a',
    forRowsPure body refs top bottom a = (refs', top', bottom', a') ->
    (filter isRTop refs = [] -> top' = top) /\
    (filter isRBottom refs = [] -> bottom' = bottom) /\
    (aliasFree refs = true ->
     mapAccum body (map (deref top bottom) refs) a
     = (map (deref top' bottom') refs', a')).
Proof.
  induction refs as [|[| |r] rest IH];
    intros top bottom a refs' top' bottom' a' Hrun;
    cbn [forRowsPure] in Hrun.
  - injection Hrun as <- <- <- <-. now repeat split.
  - destruct (body a top) as [a1 top1] eqn:Hbody.
    destruct (forRowsPure body rest top1 bottom a1) as [[[rs t] b] a2]
      eqn:Hrest.
    injection Hrun as <- <- <- <-.
    destruct (IH _ _ _ _ _ _ _ Hrest) as (IHt & IHb & IHv).
    split; [intros H; discriminate H|]. split; [exact IHb|].
    intros Hfree. apply aliasFree_cons_top in Hfree as [Hnone Hfree].
    cbn [map deref mapAccum]. rewrite Hbody.
    rewrite (deref_no_top top top1 bottom rest Hnone), (IHv Hfree).
    now rewrite (IHt Hnone).
  - destruct (body a bottom) as [a1 bottom1] eqn:Hbody.
    destruct (forRowsPure body rest top bottom1 a1) as [[[rs t] b] a2]
      eqn:Hrest.
    injection Hrun as <- <- <- <-.
    destruct (IH _ _ _ _ _ _ _ Hrest) as (IHt & IHb & IHv).
    split; [exact IHt|]. split; [intros H; discriminate H|].
    intros Hfree. apply aliasFree_cons_bottom in Hfree as [Hnone Hfree].
    cbn [map deref mapAccum]. rewrite Hbody.
    rewrite (deref_no_bottom top bottom bottom1 rest Hnone), (IHv Hfree).
    now rewrite (IHb Hnone).
  - destruct (body a r) as [a1 r1] eqn:Hbody.
    destruct (forRowsPure body rest top bottom a1) as [[[rs t] b] a2]
      eqn:Hrest.
    injection Hrun as <- <- <- <-.
    destruct (IH _ _ _ _ _ _ _ Hrest) as (IHt & IHb & IHv).
    split; [exact IHt|]. split; [exact IHb|].
    intros Hfree. cbn [map deref mapAccum]. rewrite Hbody.
    now rewrite (IHv Hfree).
Qed.

Lemma mapAccum_map (f : Row.t -> Row.t) (l : list Row.t) :
  mapAccum (fun (_ : unit) r => (tt, f r)) l tt = (map f l, tt).
Proof.
  induction l as [|r l IH]; [reflexivity|].
  cbn [mapAccum map]. now rewrite IH.
Qed.

Lemma rowList_deref (this : RenderInfo.t) :
  RenderInfo.rowList this
  = map (deref (RenderInfo.topRow this) (RenderInfo.bottomRow this))
      (RenderInfo.rows this).
Proof. reflexivity. Qed.

(** What a loop over alias-free rows does to the list of row values. *)
Lemma eachRow_values {A : Type} (body : A -> Row.t -> A * Row.t) (a : A)
    (this : RenderInfo.t) :
  aliasFree (RenderInfo.rows this) = true ->
  (RenderInfo.rowList (fst (RenderInfo.eachRow body a this)),
   snd (RenderInfo.eachRow body a this))
  = mapAccum body (RenderInfo.rowList this) a.
Proof.
  intros Hfree. unfold RenderInfo.eachRow.
  destruct (forRowsPure body (RenderInfo.rows this) (RenderInfo.topRow this)
              (RenderInfo.bottomRow this) a) as [[[rs t] b] a'] eqn:Hrun.
  destruct (forRowsPure_values body _ _ _ _ _ _ _ _ Hrun) as (_ & _ & Hv).
  cbn [fst snd]. rewrite (rowList_deref this), (Hv Hfree). reflexivity.
Qed.

(** ** Spacers between the elements *)

Lemma findLast_app_last {A : Type} (p : A -> bool) (l : list A) (x : A) :
  Row.findLast p (l ++ [x])
  = if p x then Some x else Row.findLast p l.
Proof.
  induction l as [|y l IH]; cbn [app Row.findLast].
  - now destruct (p x).
  - rewrite IH. now destruct (p x).
Qed.

Lemma spaceElems_length (this : RenderInfo.t) (els : list Measurable.t) :
  List.length (RenderInfo.spaceElems this els) = (2 * List.length els)%nat.
Proof.
  induction els as [|e els IH]; [reflexivity|].
  cbn [RenderInfo.spaceElems List.length]. rewrite IH. lia.
Qed.

Lemma spaceElems_nth (this : RenderInfo.t) (els : list Measurable.t) :
  forall i e,
    nth_error els i = Some e ->
    nth_error (RenderInfo.spaceElems this els) (2 * i) = Some e /\
    exists sp,
      nth_error (RenderInfo.spaceElems this els) (2 * i + 1) = Some sp /\
      Measurable.type sp = Some "in-row spacer".
Proof.
  induction els as [|x els IH]; intros i e Hi.
  - now destruct i.
  - destruct i as [|i]; cbn [nth_error] in Hi.
    + injection Hi as ->. split; [reflexivity|].
      eexists. split; reflexivity.
    + destruct (IH i e Hi) as (He & sp & Hsp & Hty).
      replace (2 * S i)%nat with (S (S (2 * i))) by lia.
      replace (S (S (2 * i)) + 1)%nat with (S (S (2 * i + 1))) by lia.
      cbn [RenderInfo.spaceElems nth_error]. split; [exact He|].
      now exists sp.
Qed.

Lemma spaceElems_last (this : RenderInfo.t) (els : list Measurable.t) :
  els <> [] ->
  exists init sp,
    RenderInfo.spaceElems this els = init ++ [sp] /\
    Measurable.type sp = Some "in-row spacer".
Proof.
  induction els as [|e els IH]; intros Hne; [contradiction|].
  destruct els as [|e' els].
  - exists [e]. eexists. split; reflexivity.
  - destruct IH as (init & sp & Heq & Hty); [discriminate|].
    exists (e :: blockRendering.InRowSpacer (RenderInfo.constants_ this)
                   (RenderInfo.getInRowSpacing_ this (Some e)
                      (hd_error (e' :: els))) :: init), sp.
    split; [|exact Hty].
    change (RenderInfo.spaceElems this (e :: e' :: els))
      with (e :: blockRendering.InRowSpacer (RenderInfo.constants_ this)
                   (RenderInfo.getInRowSpacing_ this (Some e)
                      (hd_error (e' :: els)))
              :: RenderInfo.spaceElems this (e' :: els)).
    now rewrite Heq.
Qed.

Lemma inRowSpacer_isSpacer (m : Measurable.t) :
  Measurable.type m = Some "in-row spacer" -> Measurable.isSpacer m = true.
Proof.
  intros H. unfold Measurable.isSpacer.
  rewrite !(typeIs_Some _ _ _ H). reflexivity.
Qed.

Lemma addElemSpacing_row_elements (this : RenderInfo.t) (row : Row.t) :
  Row.elements (RenderInfo.addElemSpacing_row this row)
  = (if isTopOrBottom row then []
     else [blockRendering.InRowSpacer (RenderInfo.constants_ this)
             (RenderInfo.getInRowSpacing_ this None
                (hd_error (Row.elements row)))])
    ++ RenderInfo.spaceElems this (Row.elements row).
Proof.
  unfold RenderInfo.addElemSpacing_row, isTopOrBottom.
  cbn [Row.setElements Row.elements].
  now destruct (String.eqb (Row.type row) "top row"),
    (String.eqb (Row.type row) "bottom row").
Qed.

Lemma addElemSpacing_rowList (this : RenderInfo.t) :
  aliasFree (RenderInfo.rows this) = true ->
  RenderInfo.rowList (RenderInfo.addElemSpacing_ this)
  = map (RenderInfo.addElemSpacing_row this) (RenderInfo.rowList this).
Proof.
  intros Hfree. unfold RenderInfo.addElemSpacing_.
  pose proof (eachRow_values
                (fun (_ : unit) row =>
                   (tt, RenderInfo.addElemSpacing_row this row))
                tt this Hfree) as H.
  rewrite mapAccum_map in H. now injection H as H _.
Qed.

(** The elements of a row after the loop body of addElemSpacing_. *)
Lemma addElemSpacing_row_layout (this : RenderInfo.t) (row : Row.t) :
  let row' := RenderInfo.addElemSpacing_row this row in
  List.length (Row.elements row')
  = (leadingSpacers row + 2 * List.length (Row.elements row))%nat /\
  (forall i e,
      nth_error (Row.elements row) i = Some e ->
      nth_error (Row.elements row') (leadingSpacers row + 2 * i) = Some e /\
      exists sp,
        nth_error (Row.elements row') (leadingSpacers row + 2 * i + 1)
        = Some sp /\
        Measurable.type sp = Some "in-row spacer") /\
  (isTopOrBottom row = false ->
   exists sp,
     hd_error (Row.elements row') = Some sp /\
     Measurable.type sp = Some "in-row spacer") /\
  (Row.elements row <> [] ->
   exists init sp,
     Row.elements row' = init ++ [sp] /\
     Measurable.type sp = Some "in-row spacer" /\
     Row.getLastSpacer row' = Some sp).
Proof.
  intros row'. subst row'.
  rewrite addElemSpacing_row_elements. unfold leadingSpacers.
  split; [|split; [|split]].
  - rewrite length_app, spaceElems_length.
    now destruct (isTopOrBottom row).
  - intros i e Hi.
    destruct (spaceElems_nth this _ _ _ Hi) as (He & sp & Hsp & Hty).
    split; [now destruct (isTopOrBottom row)|].
    exists sp. split; [|exact Hty].
    now destruct (isTopOrBottom row).
  - intros ->. eexists. split; reflexivity.
  - intros Hne.
    destruct (spaceElems_last this _ Hne) as (init & sp & Heq & Hty).
    eexists (_ ++ init), sp. rewrite Heq, app_assoc.
    split; [reflexivity|]. split; [exact Hty|].
    unfold Row.getLastSpacer. rewrite addElemSpacing_row_elements.
    rewrite Heq, app_assoc, findLast_app_last.
    now rewrite (inRowSpacer_isSpacer _ Hty).
Qed.

(** ** Positions *)

Lemma chained_nil {A : Type} (pos size : A -> Z) (start : Z) :
  chained pos size start [].
Proof.
  split.
  - intros x H. discriminate H.
  - intros i x y H. now destruct i.
Qed.

Lemma chained_cons {A : Type} (pos size : A -> Z) (start : Z) (x : A)
    (l : list A) :
  pos x = start ->
  chained pos size (start + size x) l ->
  chained pos size start (x :: l).
Proof.
  intros Hx [Hhd Hnext]. split.
  - intros x' H. now injection H as <-.
  - intros [|i] y z Hy Hz; cbn [nth_error] in Hy, Hz.
    + injection Hy as <-. rewrite Hx. apply Hhd. now destruct l.
    + now apply Hnext with i.
Qed.

Lemma sumHeights_cons (r : Row.t) (l : list Row.t) :
  sumHeights (r :: l) = Row.height r + sumHeights l.
Proof. reflexivity. Qed.

Lemma placeElems_chained (this : RenderInfo.t) (row : Row.t)
    (elems : list Measurable.t) :
  forall xCursor,
    chained Measurable.xPos Measurable.width xCursor
      (RenderInfo.placeElems this row xCursor elems).
Proof.
  induction elems as [|elem elems IH]; intros xCursor.
  - apply chained_nil.
  - cbn [RenderInfo.placeElems]. apply chained_cons; [reflexivity|].
    apply IH.
Qed.

Lemma finalize_rows (this : RenderInfo.t) (l : list Row.t) :
  forall widest yCursor l' widest' yCursor',
    mapAccum (RenderInfo.finalize_row this) l (widest, yCursor)
    = (l', (widest', yCursor')) ->
    chained Row.yPos Row.height yCursor l' /\
    yCursor' = yCursor + sumHeights l' /\
    Forall (fun row =>
              chained Measurable.xPos Measurable.width (Row.xPos row)
                (Row.elements row)) l'.
Proof.
  induction l as [|row l IH]; intros widest yCursor l' widest' yCursor' Hrun;
    cbn [mapAccum] in Hrun.
  - injection Hrun as <- <- <-. split; [apply chained_nil|].
    split; [cbn; lia|constructor].
  - cbn [RenderInfo.finalize_row] in Hrun.
    match type of Hrun with
    | context [mapAccum ?f l ?acc] =>
        destruct (mapAccum f l acc) as [rest [w y]] eqn:Hrest
    end.
    injection Hrun as <- <- <-.
    destruct (IH _ _ _ _ _ Hrest) as (Hy & Hsum & Hx).
    split; [|split].
    + apply chained_cons; [reflexivity|exact Hy].
    + rewrite Hsum, sumHeights_cons.
      cbn [Row.height Row.setElements Row.setPosition]. lia.
    + constructor; [|exact Hx]. apply placeElems_chained.
Qed.

Lemma finalize_values (this : RenderInfo.t) :
  aliasFree (RenderInfo.rows this) = true ->
  mapAccum (RenderInfo.finalize_row this) (RenderInfo.rowList this) (0, 0)
  = (RenderInfo.rowList (RenderInfo.finalize_ this),
     (RenderInfo.widthWithChildren (RenderInfo.finalize_ this)
      - RenderInfo.startX (RenderInfo.finalize_ this),
      RenderInfo.height (RenderInfo.finalize_ this))).
Proof.
  intros Hfree.
  rewrite <- (eachRow_values (RenderInfo.finalize_row this) (0, 0) this Hfree).
  unfold RenderInfo.finalize_.
  destruct (RenderInfo.eachRow (RenderInfo.finalize_row this) (0, 0) this)
    as [this' [w y]].
  cbn [fst snd]. f_equal. f_equal. cbn. lia.
Qed.

Lemma finalize_positioned (this : RenderInfo.t) :
  aliasFree (RenderInfo.rows this) = true ->
  positioned (RenderInfo.finalize_ this).
Proof.
  intros Hfree.
  destruct (finalize_rows this _ _ _ _ _ _ (finalize_values this Hfree))
    as (Hy & Hsum & Hx).
  split; [exact Hy|]. split; [lia|exact Hx].
Qed.

(** ** Last input and last spacer of a row *)

Lemma findLast_None {A : Type} (p : A -> bool) (l : list A) :
  Row.findLast p l = None <-> existsb p l = false.
Proof.
  induction l as [|x l IH]; cbn [Row.findLast existsb]; [tauto|].
  destruct (Row.findLast p l) as [y|].
  - destruct (existsb p l); [|destruct IH as [_ IH]; discriminate IH; auto].
    rewrite orb_true_r. split; discriminate.
  - destruct IH as [IH _]. rewrite (IH eq_refl), orb_false_r.
    destruct (p x); split; congruence.
Qed.

Lemma findLast_Some {A : Type} (p : A -> bool) (l : list A) (y : A) :
  Row.findLast p l = Some y -> p y = true.
Proof.
  induction l as [|x l IH]; cbn [Row.findLast]; [discriminate|].
  destruct (Row.findLast p l) as [z|].
  - intros H. injection H as ->. now apply IH.
  - destruct (p x) eqn:E; [|discriminate]. intros H. now injection H as <-.
Qed.

(** Changing the last [p]-element leaves the last [q]-element as it is when
    no [p]-element, changed or not, is a [q]-element. *)
Lemma findLast_modifyLast {A : Type} (p q : A -> bool) (f : A -> A)
    (l : list A) :
  Forall (fun e => p e = true -> q e = false) l ->
  (forall e, p e = true -> q e = false -> q (f e) = false) ->
  Row.findLast q (Row.modifyLast p f l) = Row.findLast q l.
Proof.
  intros Hl Hf. induction Hl as [|x l Hx Hl IH]; [reflexivity|].
  cbn [Row.modifyLast]. destruct (Row.findLast p l) as [y|].
  - cbn [Row.findLast]. now rewrite IH.
  - destruct (p x) eqn:Hp; [|reflexivity].
    cbn [Row.findLast]. rewrite (Hx eq_refl), (Hf x Hp (Hx eq_refl)).
    reflexivity.
Qed.

Lemma existsb_modifyLast {A : Type} (p q : A -> bool) (f : A -> A)
    (l : list A) :
  (forall e, q (f e) = q e) ->
  existsb q (Row.modifyLast p f l) = existsb q l.
Proof.
  intros Hf. induction l as [|x l IH]; [reflexivity|].
  cbn [Row.modifyLast]. destruct (Row.findLast p l) as [y|].
  - cbn [existsb]. now rewrite IH.
  - destruct (p x); [|reflexivity]. cbn [existsb]. now rewrite Hf.
Qed.

Lemma findLast_app {A : Type} (p : A -> bool) (l l' : list A) :
  Row.findLast p (l ++ l')
  = match Row.findLast p l' with
    | Some y => Some y
    | None => Row.findLast p l
    end.
Proof.
  induction l as [|x l IH]; cbn [app Row.findLast].
  - now destruct (Row.findLast p l').
  - rewrite IH. now destruct (Row.findLast p l').
Qed.

Lemma findLast_app_not_None {A : Type} (p : A -> bool) (l l' : list A) :
  Row.findLast p l <> None -> Row.findLast p (l ++ l') <> None.
Proof.
  rewrite findLast_app. now destruct (Row.findLast p l').
Qed.

Lemma spaceElems_lastInput (this : RenderInfo.t) (els : list Measurable.t) :
  Row.findLast Measurable.isInput (RenderInfo.spaceElems this els)
  = Row.findLast Measurable.isInput els.
Proof.
  induction els as [|e els IH]; [reflexivity|].
  cbn [RenderInfo.spaceElems Row.findLast]. rewrite IH.
  now destruct (Row.findLast Measurable.isInput els).
Qed.

Lemma placeElems_lastInput (this : RenderInfo.t) (row : Row.t)
    (els : list Measurable.t) :
  forall xCursor,
    option_map Measurable.width
      (Row.findLast Measurable.isInput
         (RenderInfo.placeElems this row xCursor els))
    = option_map Measurable.width (Row.findLast Measurable.isInput els).
Proof.
  induction els as [|e els IH]; intros xCursor; [reflexivity|].
  cbn [RenderInfo.placeElems Row.findLast].
  specialize (IH (xCursor + Measurable.width e)).
  destruct (Row.findLast Measurable.isInput els),
    (Row.findLast Measurable.isInput
       (RenderInfo.placeElems this row (xCursor + Measurable.width e) els));
    try discriminate IH; [exact IH|].
  cbn [Measurable.isInput Measurable.setPosition].
  now destruct (Measurable.isInput e).
Qed.

Lemma option_map_not_None {A B : Type} (f : A -> B) (o o' : option A) :
  option_map f o = option_map f o' -> o' <> None -> o <> None.
Proof. destruct o, o'; cbn; congruence. Qed.

(** ** The loops of RenderInfo *)

Lemma eachRow_rule {A : Type} (body : A -> Row.t -> A * Row.t)
    (I P Q : Row.t -> Prop) (a : A) (this : RenderInfo.t) :
  (forall a r, I r -> I (snd (body a r))) ->
  (forall a r, P r -> Q (snd (body a r))) ->
  rowsSatisfy I P this ->
  exists rs top bottom,
    fst (RenderInfo.eachRow body a this)
    = RenderInfo.setRows rs top bottom this /\
    I top /\ I bottom /\ Forall (owned Q) rs /\
    List.length rs = List.length (RenderInfo.rows this).
Proof.
  intros HI HPQ (Ht & Hb & Hrows). unfold RenderInfo.eachRow.
  destruct (forRowsPure body (RenderInfo.rows this) (RenderInfo.topRow this)
              (RenderInfo.bottomRow this) a) as [[[rs t] b] a'] eqn:Hrun.
  destruct (forRowsPure_rule body I P Q HI HPQ _ _ _ _ _ _ _ _ Ht Hb Hrows Hrun)
    as (Ht' & Hb' & Hrs & Hkinds).
  exists rs, t, b. repeat split; auto.
  now apply Forall2_sameKind_length.
Qed.

Lemma eachRowThrowing_rule {A : Type}
    (body : A -> Row.t -> Completion (A * Row.t))
    (I P Q : Row.t -> Prop) (a a' : A) (this this' : RenderInfo.t) :
  (forall a r a' r', I r -> body a r = Normal (a', r') -> I r') ->
  (forall a r a' r', P r -> body a r = Normal (a', r') -> Q r') ->
  rowsSatisfy I P this ->
  RenderInfo.eachRowThrowing body a this = Normal (this', a') ->
  exists rs top bottom,
    this' = RenderInfo.setRows rs top bottom this /\
    I top /\ I bottom /\ Forall (owned Q) rs /\
    List.length rs = List.length (RenderInfo.rows this).
Proof.
  intros HI HPQ (Ht & Hb & Hrows). unfold RenderInfo.eachRowThrowing.
  destruct (forRows body (RenderInfo.rows this) (RenderInfo.topRow this)
              (RenderInfo.bottomRow this) a) as [[[[rs t] b] a1]|e] eqn:Hrun;
    cbn [bind]; [|discriminate].
  intros H. injection H as <- <-.
  destruct (forRows_rule body I P Q HI HPQ _ _ _ _ _ _ _ _ Ht Hb Hrows Hrun)
    as (Ht' & Hb' & Hrs & Hkinds).
  exists rs, t, b. repeat split; auto.
  now apply Forall2_sameKind_length.
Qed.

Lemma eachRowThrowing_returns {A : Type}
    (body : A -> Row.t -> Completion (A * Row.t))
    (I : Row.t -> Prop) (a : A) (this : RenderInfo.t) :
  (forall a r, I r -> exists a' r', body a r = Normal (a', r') /\ I r') ->
  rowsSatisfy I I this ->
  exists res, RenderInfo.eachRowThrowing body a this = Normal res.
Proof.
  intros HI (Ht & Hb & Hrows). unfold RenderInfo.eachRowThrowing.
  destruct (forRows_returns body I HI _ _ _ a Ht Hb Hrows)
    as ([[[rs t] b] a'] & Hrun).
  rewrite Hrun. cbn [bind]. now eexists.
Qed.

(** *** What the loop bodies keep *)

Lemma addElemSpacing_row_lastInput (this : RenderInfo.t) (row : Row.t) :
  Row.getLastInput (RenderInfo.addElemSpacing_row this row)
  = Row.getLastInput row.
Proof.
  unfold Row.getLastInput. rewrite addElemSpacing_row_elements.
  rewrite findLast_app, spaceElems_lastInput.
  destruct (Row.findLast Measurable.isInput (Row.elements row));
    [reflexivity|].
  now destruct (isTopOrBottom row).
Qed.

Lemma addElemSpacing_row_statementHasInput (this : RenderInfo.t)
    (row : Row.t) :
  statementHasInput row ->
  statementHasInput (RenderInfo.addElemSpacing_row this row).
Proof.
  unfold statementHasInput. now rewrite addElemSpacing_row_lastInput.
Qed.

Lemma spaceElems_spacersAreNotInputs (this : RenderInfo.t)
    (els : list Measurable.t) :
  Forall (fun e => Measurable.isSpacer e = false) els ->
  Forall (fun e => Measurable.isSpacer e = true -> Measurable.isInput e = false)
    (RenderInfo.spaceElems this els).
Proof.
  induction 1 as [|e els He Hels IH]; [constructor|].
  cbn [RenderInfo.spaceElems]. constructor; [congruence|].
  constructor; [reflexivity|exact IH].
Qed.

Lemma addElemSpacing_row_spaced (this : RenderInfo.t) (row : Row.t) :
  unspaced row -> spaced (RenderInfo.addElemSpacing_row this row).
Proof.
  intros [Htype Hels]. split; [exact Htype|]. split.
  - unfold spacersAreNotInputs. rewrite addElemSpacing_row_elements, Htype.
    constructor; [reflexivity|].
    now apply spaceElems_spacersAreNotInputs.
  - unfold Row.getLastSpacer. rewrite addElemSpacing_row_elements, Htype.
    rewrite findLast_app.
    destruct (Row.findLast Measurable.isSpacer
                (RenderInfo.spaceElems this (Row.elements row)));
      discriminate.
Qed.

Lemma computeBounds_row_result (acc acc' : Z * Z * Z) (row row' : Row.t) :
  RenderInfo.computeBounds_row acc row = Normal (acc', row') ->
  row' = Row.measure row.
Proof.
  unfold RenderInfo.computeBounds_row. destruct acc as [[s w] c].
  destruct (Row.hasStatement (Row.measure row));
    [destruct (Row.getLastInput (Row.measure row))|];
    cbn [bind]; intros H; now inversion H.
Qed.

Lemma computeBounds_row_returns (acc : Z * Z * Z) (row : Row.t) :
  statementHasInput row ->
  exists acc' row',
    RenderInfo.computeBounds_row acc row = Normal (acc', row') /\
    statementHasInput row'.
Proof.
  intros Hrow. unfold RenderInfo.computeBounds_row.
  destruct acc as [[s w] c].
  change (Row.hasStatement (Row.measure row)) with (Row.hasStatement row).
  change (Row.getLastInput (Row.measure row)) with (Row.getLastInput row).
  destruct (Row.hasStatement row) eqn:Hs.
  - destruct (Row.getLastInput row) eqn:Hi; [|now destruct (Hrow Hs)].
    cbn [bind]. do 2 eexists. split; [reflexivity|]. exact Hrow.
  - cbn [bind]. do 2 eexists. split; [reflexivity|]. exact Hrow.
Qed.

Lemma addAlignmentPadding_lastInput (row : Row.t) (missingSpace : Z) :
  spacersAreNotInputs row ->
  Row.getLastInput (RenderInfo.addAlignmentPadding_ row missingSpace)
  = Row.getLastInput row.
Proof.
  intros Hrow. unfold RenderInfo.addAlignmentPadding_.
  destruct (Row.getLastSpacer row); [|reflexivity].
  unfold Row.getLastInput. cbn [Row.elements Row.setWidth Row.setElements].
  apply findLast_modifyLast; [exact Hrow|].
  intros e _ He. exact He.
Qed.

Lemma addAlignmentPadding_statementHasInput (row : Row.t)
    (missingSpace : Z) :
  statementHasInput row ->
  statementHasInput (RenderInfo.addAlignmentPadding_ row missingSpace).
Proof.
  unfold statementHasInput, RenderInfo.addAlignmentPadding_.
  destruct (Row.getLastSpacer row); [|auto].
  cbn [Row.hasStatement Row.setWidth Row.setElements].
  intros Hrow Hs. specialize (Hrow Hs). unfold Row.getLastInput in *.
  cbn [Row.elements Row.setWidth Row.setElements].
  intros Hnone. apply Hrow.
  apply findLast_None. apply findLast_None in Hnone.
  rewrite existsb_modifyLast in Hnone; [exact Hnone|reflexivity].
Qed.

Lemma addAlignmentPadding_flags (row : Row.t) (missingSpace : Z) :
  Row.type (RenderInfo.addAlignmentPadding_ row missingSpace) = Row.type row /\
  Row.hasStatement (RenderInfo.addAlignmentPadding_ row missingSpace)
  = Row.hasStatement row /\
  Row.hasInlineInput (RenderInfo.addAlignmentPadding_ row missingSpace)
  = Row.hasInlineInput row.
Proof.
  unfold RenderInfo.addAlignmentPadding_.
  now destruct (Row.getLastSpacer row).
Qed.

(** The three outcomes of the body of the alignment loop. *)
Lemma alignRowElements_row_cases (this : RenderInfo.t) (row row' : Row.t) :
  RenderInfo.alignRowElements_row this row = Normal row' ->
  (Row.hasInlineInput row = true /\ row' = row) \/
  (Row.hasInlineInput row = false /\
   exists current,
     (if Row.hasStatement row
      then exists statementInput,
          Row.getLastInput row = Some statementInput /\
          current = Row.width row - Measurable.width statementInput
      else current = Row.width row) /\
     ((desiredWidth this row - current = 0 /\ row' = row) \/
      (desiredWidth this row - current <> 0 /\
       row' = RenderInfo.addAlignmentPadding_ row
                (desiredWidth this row - current)))).
Proof.
  unfold RenderInfo.alignRowElements_row, desiredWidth.
  destruct (Row.hasInlineInput row); cbn [negb]; intros Hrun.
  - injection Hrun as <-. now left.
  - right. split; [reflexivity|].
    destruct (Row.hasStatement row).
    + destruct (Row.getLastInput row) as [si|]; cbn [bind] in Hrun;
        [|discriminate Hrun].
      exists (Row.width row - Measurable.width si). split; [now exists si|].
      destruct (_ =? 0) eqn:E; cbn [negb] in Hrun; injection Hrun as <-.
      * left. split; [now apply Z.eqb_eq|reflexivity].
      * right. split; [now apply Z.eqb_neq|reflexivity].
    + cbn [bind] in Hrun. exists (Row.width row). split; [reflexivity|].
      destruct (_ =? 0) eqn:E; cbn [negb] in Hrun; injection Hrun as <-.
      * left. split; [now apply Z.eqb_eq|reflexivity].
      * right. split; [now apply Z.eqb_neq|reflexivity].
Qed.

Lemma alignRowElements_row_flags (this : RenderInfo.t) (row row' : Row.t) :
  RenderInfo.alignRowElements_row this row = Normal row' ->
  Row.type row' = Row.type row /\
  Row.hasStatement row' = Row.hasStatement row /\
  Row.hasInlineInput row' = Row.hasInlineInput row.
Proof.
  intros Hrun.
  destruct (alignRowElements_row_cases this row row' Hrun)
    as [[_ ->]|(_ & current & _ & [[_ ->]|[_ ->]])];
    auto using addAlignmentPadding_flags.
Qed.

Lemma alignRowElements_row_statementHasInput (this : RenderInfo.t)
    (row row' : Row.t) :
  statementHasInput row ->
  RenderInfo.alignRowElements_row this row = Normal row' ->
  statementHasInput row'.
Proof.
  intros Hrow Hrun.
  destruct (alignRowElements_row_cases this row row' Hrun)
    as [[_ ->]|(_ & current & _ & [[_ ->]|[_ ->]])];
    auto using addAlignmentPadding_statementHasInput.
Qed.

Lemma alignRowElements_row_returns (this : RenderInfo.t) (row : Row.t) :
  statementHasInput row ->
  exists row', RenderInfo.alignRowElements_row this row = Normal row'.
Proof.
  intros Hrow. unfold RenderInfo.alignRowElements_row.
  destruct (Row.hasInlineInput row); cbn [negb]; [now eexists|].
  destruct (Row.hasStatement row) eqn:Hs.
  - destruct (Row.getLastInput row) eqn:Hi; [|now destruct (Hrow Hs)].
    cbn [bind]. destruct (negb _); now eexists.
  - cbn [bind]. destruct (negb _); now eexists.
Qed.

Lemma addAlignmentPadding_width (row : Row.t) (missingSpace : Z) :
  Row.getLastSpacer row <> None ->
  Row.width (RenderInfo.addAlignmentPadding_ row missingSpace)
  = Row.width row + missingSpace.
Proof.
  unfold RenderInfo.addAlignmentPadding_.
  destruct (Row.getLastSpacer row); [reflexivity|contradiction].
Qed.

(** The alignment of one row: a spaced row comes out with its desired width,
    plus the width of its statement input when it is a statement row. *)
Lemma alignRowElements_row_aligned (this : RenderInfo.t) (row row' : Row.t) :
  spaced row ->
  RenderInfo.alignRowElements_row this row = Normal row' ->
  alignedContent (RenderInfo.statementEdge this) (RenderInfo.width this)
    (RenderInfo.startX this) row'.
Proof.
  intros (Htype & Hspacers & Hlast) Hrun.
  destruct (alignRowElements_row_flags this row row' Hrun)
    as (Hty & Hst & Hin).
  split; [unfold isTopOrBottom in *; now rewrite Hty|].
  intros Hinline. rewrite Hin in Hinline.
  unfold statementInputWidth, statementHasInput. rewrite Hst.
  destruct (alignRowElements_row_cases this row row' Hrun)
    as [[Hc _]|(_ & current & Hcur & Hcases)]; [congruence|].
  assert (Hinput : Row.getLastInput row' = Row.getLastInput row).
  { destruct Hcases as [[_ ->]|[_ ->]];
      [reflexivity|now apply addAlignmentPadding_lastInput]. }
  assert (Hwidth : Row.width row' = Row.width row
                                    + (desiredWidth this row - current)).
  { destruct Hcases as [[Hz ->]|[_ ->]];
      [lia|now apply addAlignmentPadding_width]. }
  rewrite Hinput, Hwidth. unfold desiredWidth in *.
  destruct (Row.hasStatement row).
  - destruct Hcur as (si & -> & ->). split; [lia|discriminate].
  - subst current. split; [lia|discriminate].
Qed.

Lemma finalize_row_keeps (this : RenderInfo.t) (acc : Z * Z) (row : Row.t) :
  let row' := snd (RenderInfo.finalize_row this acc row) in
  Row.type row' = Row.type row /\
  Row.width row' = Row.width row /\
  Row.hasStatement row' = Row.hasStatement row /\
  Row.hasInlineInput row' = Row.hasInlineInput row /\
  option_map Measurable.width (Row.getLastInput row')
  = option_map Measurable.width (Row.getLastInput row).
Proof.
  destruct acc as [w y]. cbn. repeat split.
  unfold Row.getLastInput. cbn [Row.elements Row.setElements].
  apply placeElems_lastInput.
Qed.

Lemma finalize_row_statementHasInput (this : RenderInfo.t) (acc : Z * Z)
    (row : Row.t) :
  statementHasInput row ->
  statementHasInput (snd (RenderInfo.finalize_row this acc row)).
Proof.
  destruct (finalize_row_keeps this acc row) as (_ & _ & Hst & _ & Hin).
  unfold statementHasInput. rewrite Hst. intros Hrow Hs.
  exact (option_map_not_None _ _ _ Hin (Hrow Hs)).
Qed.

Lemma finalize_row_isTopOrBottom (this : RenderInfo.t) (acc : Z * Z)
    (row : Row.t) :
  isTopOrBottom (snd (RenderInfo.finalize_row this acc row))
  = isTopOrBottom row.
Proof. now destruct acc. Qed.

Lemma finalize_row_aligned (this : RenderInfo.t) (acc : Z * Z) (row : Row.t)
    (se w sx : Z) :
  alignedContent se w sx row ->
  alignedContent se w sx (snd (RenderInfo.finalize_row this acc row)).
Proof.
  intros [Htype Hrow]. split; [now rewrite finalize_row_isTopOrBottom|].
  pose proof (finalize_row_statementHasInput this acc row) as Hkeep.
  destruct (finalize_row_keeps this acc row) as (_ & Hw & Hst & Hin & Hlast).
  unfold alignedTo in *. rewrite Hin. intros Hinline.
  destruct (Hrow Hinline) as [Hwidth Hhas].
  split; [|now apply Hkeep].
  rewrite Hw, Hwidth, Hst. f_equal. unfold statementInputWidth.
  rewrite Hst. destruct (Row.hasStatement row); [|reflexivity].
  destruct (Row.getLastInput row), (Row.getLastInput _);
    cbn in Hlast; congruence.
Qed.

(** ** createRows_ *)

Section CreateRows.

(** A property of rows that the new (empty) input row has and that adding
    the Measurables of icons, fields and inputs keeps. *)
Variable P : Row.t -> Prop.
Hypothesis P_new : P blockRendering.InputRow.
Hypothesis P_push :
  forall row e,
    P row -> Measurable.isSpacer e = false -> P (Row.push e row).
Hypothesis P_inline :
  forall row, P row -> P (Row.setHasInlineInput true row).
Hypothesis P_external :
  forall row, P row -> P (Row.setHasExternalInput true row).
Hypothesis P_dummy :
  forall row, P row -> P (Row.setHasDummyInput true row).
Hypothesis P_jagged :
  forall row, P row -> P (Row.setHasJaggedEdge true row).
Hypothesis P_statement :
  forall row e,
    P row -> Measurable.isSpacer e = false -> Measurable.isInput e = true ->
    P (Row.setHasStatement true (Row.push e row)).

Variable this : RenderInfo.t.

Lemma createRows_icons_keep (icons : list Blockly.Icon.t) :
  forall st : list Measurable.t * Row.t,
    P (snd st) ->
    P (snd (fold_left (RenderInfo.createRows_icon this) icons st)).
Proof.
  induction icons as [|icon icons IH]; intros [hidden row] Hrow;
    [exact Hrow|].
  cbn [fold_left]. apply IH. unfold RenderInfo.createRows_icon.
  destruct (RenderInfo.isCollapsed this && Blockly.Icon.collapseHidden icon);
    [exact Hrow|].
  now apply P_push.
Qed.

Lemma pushFields_keep (input : Blockly.Input.t) (row : Row.t) :
  P row -> P (RenderInfo.pushFields this input row).
Proof.
  unfold RenderInfo.pushFields.
  generalize (Blockly.Input.fieldRow input) as fields.
  intros fields. revert row.
  induction fields as [|field fields IH]; intros row Hrow; [exact Hrow|].
  cbn [fold_left]. apply IH. now apply P_push.
Qed.

Lemma addInput_keep (input : Blockly.Input.t) (row : Row.t) :
  P row -> P (RenderInfo.addInput_ this input row).
Proof.
  intros Hrow. unfold RenderInfo.addInput_.
  repeat match goal with
         | |- P (if ?c then _ else _) => destruct c
         end; auto.
Qed.

Lemma createRows_input_keep (input : Blockly.Input.t)
    (st : list RowRef * Row.t * option Blockly.Input.t) :
  Forall (owned P) (fst (fst st)) -> P (snd (fst st)) ->
  let st' := RenderInfo.createRows_input this st input in
  Forall (owned P) (fst (fst st')) /\ P (snd (fst st')) /\
  (List.length (fst (fst st)) <= List.length (fst (fst st')))%nat.
Proof.
  destruct st as [[rs row] last]. cbn [fst snd]. intros Hrs Hrow.
  unfold RenderInfo.createRows_input.
  destruct (Blockly.Input.isVisible input); cbn [negb fst snd]; [|auto].
  destruct (RenderInfo.shouldStartNewRow_ this input last); cbn [fst snd].
  - split; [|split].
    + apply Forall_app. split; [exact Hrs|]. now constructor.
    + now apply addInput_keep, pushFields_keep.
    + rewrite length_app. lia.
  - split; [exact Hrs|]. split; [|lia].
    now apply addInput_keep, pushFields_keep.
Qed.

Lemma createRows_inputs_keep (inputs : list Blockly.Input.t) :
  forall st : list RowRef * Row.t * option Blockly.Input.t,
    Forall (owned P) (fst (fst st)) -> P (snd (fst st)) ->
    let st' := fold_left (RenderInfo.createRows_input this) inputs st in
    Forall (owned P) (fst (fst st')) /\ P (snd (fst st')) /\
    (List.length (fst (fst st)) <= List.length (fst (fst st')))%nat.
Proof.
  induction inputs as [|input inputs IH]; intros st Hrs Hrow.
  - cbn [fold_left]. auto.
  - cbn [fold_left].
    destruct (createRows_input_keep input st Hrs Hrow) as (Hrs' & Hrow' & Hlen).
    destruct (IH _ Hrs' Hrow') as (Hrs'' & Hrow'' & Hlen').
    repeat split; auto. lia.
Qed.

(** createRows_ adds the top row, rows that satisfy [P] and the bottom row
    to the rows that are already there. *)
Lemma createRows_rows :
  Forall (owned P) (RenderInfo.rows this) ->
  Forall (owned P) (RenderInfo.rows (RenderInfo.createRows_ this)) /\
  (List.length (RenderInfo.rows this) + 2
   <= List.length (RenderInfo.rows (RenderInfo.createRows_ this)))%nat.
Proof.
  intros Hrows. unfold RenderInfo.createRows_.
  pose proof (createRows_icons_keep
                (Blockly.Block.getIcons (RenderInfo.block_ this))
                (RenderInfo.hiddenIcons this, blockRendering.InputRow) P_new)
    as Hicons.
  destruct (fold_left (RenderInfo.createRows_icon this) _ _)
    as [hidden row0].
  cbn [snd] in Hicons.
  assert (Hstart : Forall (owned P) (RenderInfo.rows this ++ [RTop])).
  { apply Forall_app. split; [exact Hrows|]. now constructor. }
  pose proof (createRows_inputs_keep
                (Blockly.Block.inputList (RenderInfo.block_ this))
                (RenderInfo.rows this ++ [RTop], row0, None) Hstart Hicons)
    as (Hrs & Hrow & Hlen).
  destruct (fold_left (RenderInfo.createRows_input this) _ _)
    as [[rs row1] last].
  cbn [fst snd] in Hrs, Hrow, Hlen. rewrite length_app in Hlen.
  cbn [List.length] in Hlen.
  set (row2 := if RenderInfo.isCollapsed this then _ else row1).
  assert (Hrow2 : P row2).
  { subst row2. destruct (RenderInfo.isCollapsed this); [|exact Hrow].
    apply P_push; [|reflexivity]. now apply P_jagged. }
  cbn [RenderInfo.rows RenderInfo.setHiddenIcons RenderInfo.setRows].
  destruct (Row.elements row2).
  - split.
    + apply Forall_app. split; [exact Hrs|]. now constructor.
    + rewrite length_app. cbn [List.length]. lia.
  - split.
    + apply Forall_app. split; [|now constructor].
      apply Forall_app. split; [exact Hrs|]. now constructor.
    + rewrite !length_app. cbn [List.length]. lia.
Qed.

End CreateRows.

Lemma createRows_shared (this : RenderInfo.t) :
  RenderInfo.topRow (RenderInfo.createRows_ this)
  = blockRendering.populateTop (RenderInfo.block_ this)
      (RenderInfo.topRow this) /\
  RenderInfo.bottomRow (RenderInfo.createRows_ this)
  = blockRendering.populateBottom (RenderInfo.block_ this)
      (RenderInfo.bottomRow this).
Proof.
  unfold RenderInfo.createRows_.
  destruct (fold_left (RenderInfo.createRows_icon this) _ _) as [hidden row0].
  destruct (fold_left (RenderInfo.createRows_input this) _ _)
    as [[rs row1] last].
  split; reflexivity.
Qed.

Lemma push_statementHasInput (row : Row.t) (e : Measurable.t) :
  statementHasInput row -> statementHasInput (Row.push e row).
Proof.
  unfold statementHasInput, Row.push, Row.getLastInput.
  cbn [Row.hasStatement Row.elements Row.setElements].
  intros Hrow Hs. now apply findLast_app_not_None, Hrow.
Qed.

Lemma createRows_statementHasInput (this : RenderInfo.t) :
  rowsSatisfy statementHasInput statementHasInput this ->
  rowsSatisfy statementHasInput statementHasInput
    (RenderInfo.createRows_ this) /\
  (List.length (RenderInfo.rows this) + 2
   <= List.length (RenderInfo.rows (RenderInfo.createRows_ this)))%nat.
Proof.
  intros (Ht & Hb & Hrows).
  destruct (createRows_shared this) as [Htop Hbottom].
  destruct (createRows_rows statementHasInput) with (this := this)
    as [Hrs Hlen]; auto using push_statementHasInput.
  - intros Hs. discriminate Hs.
  - intros row e Hrow _ He _.
    unfold Row.getLastInput, Row.push.
    cbn [Row.elements Row.setElements Row.setHasStatement].
    rewrite findLast_app_last, He. discriminate.
  - split; [|exact Hlen]. unfold rowsSatisfy. rewrite Htop, Hbottom.
    repeat split; [| |exact Hrs].
    + intros Hs. apply findLast_app_not_None. now apply Ht.
    + intros Hs. apply findLast_app_not_None. now apply Hb.
Qed.

Lemma push_unspaced (row : Row.t) (e : Measurable.t) :
  unspaced row -> Measurable.isSpacer e = false -> unspaced (Row.push e row).
Proof.
  intros [Htype Hels] He. split; [exact Htype|].
  unfold Row.push. cbn [Row.elements Row.setElements].
  apply Forall_app. split; [exact Hels|]. now constructor.
Qed.

Lemma createRows_unspaced (this : RenderInfo.t) :
  rowsSatisfy isShared unspaced this ->
  rowsSatisfy isShared unspaced (RenderInfo.createRows_ this).
Proof.
  intros (Ht & Hb & Hrows).
  destruct (createRows_shared this) as [Htop Hbottom].
  destruct (createRows_rows unspaced) with (this := this)
    as [Hrs _]; auto using push_unspaced.
  - split; [reflexivity|constructor].
  - intros row e Hrow He _. now apply (push_unspaced row e).
  - unfold rowsSatisfy. rewrite Htop, Hbottom. now repeat split.
Qed.

(** ** The passes, on the rows *)

Lemma addElemSpacing_rule (I P Q : Row.t -> Prop) (this : RenderInfo.t) :
  (forall r, I r -> I (RenderInfo.addElemSpacing_row this r)) ->
  (forall r, P r -> Q (RenderInfo.addElemSpacing_row this r)) ->
  rowsSatisfy I P this ->
  exists rs top bottom,
    RenderInfo.addElemSpacing_ this = RenderInfo.setRows rs top bottom this /\
    I top /\ I bottom /\ Forall (owned Q) rs /\
    List.length rs = List.length (RenderInfo.rows this).
Proof.
  intros HI HPQ Hthis. unfold RenderInfo.addElemSpacing_.
  apply eachRow_rule with (I := I) (P := P); auto.
Qed.

Lemma computeBounds_rule (I P : Row.t -> Prop)
    (this this' : RenderInfo.t) :
  (forall r, I r -> I (Row.measure r)) ->
  (forall r, P r -> P (Row.measure r)) ->
  (forall r e, I r -> I (Row.setStatementEdge e r)) ->
  (forall r e, P r -> P (Row.setStatementEdge e r)) ->
  rowsSatisfy I P this ->
  RenderInfo.computeBounds_ this = Normal this' ->
  rowsSatisfy I P this' /\
  List.length (RenderInfo.rows this') = List.length (RenderInfo.rows this).
Proof.
  intros HIm HPm HIe HPe Hthis. unfold RenderInfo.computeBounds_.
  destruct (RenderInfo.eachRowThrowing RenderInfo.computeBounds_row
              (0, 0, 0) this) as [[this1 [[s w] c]]|e] eqn:Hloop;
    cbn [bind]; [|discriminate].
  assert (HI1 : forall a r a' r',
             I r -> RenderInfo.computeBounds_row a r = Normal (a', r') -> I r').
  { intros a r a' r' Hr Hbody.
    rewrite (computeBounds_row_result _ _ _ _ Hbody). now apply HIm. }
  assert (HP1 : forall a r a' r',
             P r -> RenderInfo.computeBounds_row a r = Normal (a', r') -> P r').
  { intros a r a' r' Hr Hbody.
    rewrite (computeBounds_row_result _ _ _ _ Hbody). now apply HPm. }
  destruct (eachRowThrowing_rule _ I P P _ _ _ _ HI1 HP1 Hthis Hloop)
    as (rs & t & b & -> & Ht & Hb & Hrs & Hlen).
  match goal with
  | |- context [RenderInfo.eachRow ?body tt ?x] =>
      destruct (eachRow_rule body I P P tt x) as
        (rs2 & t2 & b2 & Heq & Ht2 & Hb2 & Hrs2 & Hlen2)
  end.
  { intros _ r Hr. cbn [snd]. destruct (Row.hasStatement r); auto. }
  { intros _ r Hr. cbn [snd]. destruct (Row.hasStatement r); auto. }
  { now repeat split. }
  rewrite Heq. intros H. injection H as <-.
  cbn [RenderInfo.rows RenderInfo.setRows RenderInfo.setWidth
         RenderInfo.setStatementEdge] in Hlen2.
  destruct (RenderInfo.outputConnection _);
    (split; [now repeat split|cbn; congruence]).
Qed.

Lemma computeBounds_returns (this : RenderInfo.t) :
  rowsSatisfy statementHasInput statementHasInput this ->
  exists this', RenderInfo.computeBounds_ this = Normal this'.
Proof.
  intros Hthis. unfold RenderInfo.computeBounds_.
  destruct (eachRowThrowing_returns RenderInfo.computeBounds_row
              statementHasInput (0, 0, 0) this)
    as ([this1 [[s w] c]] & ->); [|exact Hthis|].
  - intros a r Hr. apply computeBounds_row_returns, Hr.
  - cbn [bind]. now eexists.
Qed.

Lemma alignRowElements_rule (I P Q : Row.t -> Prop)
    (this this' : RenderInfo.t) :
  (forall r r',
      I r -> RenderInfo.alignRowElements_row this r = Normal r' -> I r') ->
  (forall r r',
      P r -> RenderInfo.alignRowElements_row this r = Normal r' -> Q r') ->
  rowsSatisfy I P this ->
  RenderInfo.alignRowElements_ this = Normal this' ->
  exists rs top bottom,
    this' = RenderInfo.setRows rs top bottom this /\
    I top /\ I bottom /\ Forall (owned Q) rs /\
    List.length rs = List.length (RenderInfo.rows this).
Proof.
  intros HI HPQ Hthis. unfold RenderInfo.alignRowElements_.
  match goal with
  | |- context [RenderInfo.eachRowThrowing ?body tt this] =>
      destruct (RenderInfo.eachRowThrowing body tt this)
        as [[this1 []]|e] eqn:Hloop; cbn [bind]; [|discriminate];
      intros H; injection H as <-;
      apply (eachRowThrowing_rule body I P Q tt tt this this1); auto
  end.
  - intros [] r [] r' Hr Hbody.
    destruct (RenderInfo.alignRowElements_row this r) eqn:Hrow;
      cbn [bind] in Hbody; [|discriminate].
    injection Hbody as <-. now apply (HI r).
  - intros [] r [] r' Hr Hbody.
    destruct (RenderInfo.alignRowElements_row this r) eqn:Hrow;
      cbn [bind] in Hbody; [|discriminate].
    injection Hbody as <-. now apply (HPQ r).
Qed.

Lemma alignRowElements_returns (this : RenderInfo.t) :
  rowsSatisfy statementHasInput statementHasInput this ->
  exists this', RenderInfo.alignRowElements_ this = Normal this'.
Proof.
  intros Hthis. unfold RenderInfo.alignRowElements_.
  match goal with
  | |- context [RenderInfo.eachRowThrowing ?body tt this] =>
      destruct (eachRowThrowing_returns body statementHasInput tt this)
        as ([this1 []] & ->); [|exact Hthis|]
  end.
  - intros [] r Hr.
    destruct (alignRowElements_row_returns this r Hr) as [r' Hrow].
    exists tt, r'. rewrite Hrow. split; [reflexivity|].
    now apply (alignRowElements_row_statementHasInput this r).
  - cbn [bind]. now eexists.
Qed.

Lemma interleaveSpacers_rule (P : Row.t -> Prop) (this : RenderInfo.t)
    (refs : list RowRef) :
  (forall prev next, P (RenderInfo.makeSpacerRow_ this prev next)) ->
  Forall (owned P) refs ->
  Forall (owned P) (RenderInfo.interleaveSpacers this refs).
Proof.
  intros Hspacer. induction 1 as [|ref refs Href Hrefs IH]; [constructor|].
  cbn [RenderInfo.interleaveSpacers]. destruct refs as [|next refs].
  - now constructor.
  - constructor; [exact Href|]. constructor; [apply Hspacer|exact IH].
Qed.

Lemma interleaveSpacers_length (this : RenderInfo.t) (refs : list RowRef) :
  refs <> [] ->
  (List.length (RenderInfo.interleaveSpacers this refs) + 1
   = 2 * List.length refs)%nat.
Proof.
  induction refs as [|ref refs IH]; [contradiction|]. intros _.
  cbn [RenderInfo.interleaveSpacers]. destruct refs as [|next refs].
  - reflexivity.
  - cbn [List.length] in *.
    specialize (IH ltac:(discriminate)). lia.
Qed.

Lemma finalize_rule (I P Q : Row.t -> Prop) (this : RenderInfo.t) :
  (forall a r, I r -> I (snd (RenderInfo.finalize_row this a r))) ->
  (forall a r, P r -> Q (snd (RenderInfo.finalize_row this a r))) ->
  rowsSatisfy I P this ->
  rowsSatisfy I Q (RenderInfo.finalize_ this) /\
  List.length (RenderInfo.rows (RenderInfo.finalize_ this))
  = List.length (RenderInfo.rows this) /\
  RenderInfo.statementEdge (RenderInfo.finalize_ this)
  = RenderInfo.statementEdge this /\
  RenderInfo.width (RenderInfo.finalize_ this) = RenderInfo.width this /\
  RenderInfo.startX (RenderInfo.finalize_ this) = RenderInfo.startX this.
Proof.
  intros HI HPQ Hthis. unfold RenderInfo.finalize_.
  destruct (eachRow_rule (RenderInfo.finalize_row this) I P Q (0, 0) this
              HI HPQ Hthis) as (rs & t & b & Heq & Ht & Hb & Hrs & Hlen).
  destruct (RenderInfo.eachRow (RenderInfo.finalize_row this) (0, 0) this)
    as [this1 [w y]].
  cbn [fst] in Heq. subst this1. now repeat split.
Qed.

(** ** measure *)

Lemma makeSpacerRow_aligned (this : RenderInfo.t) (prev next : Row.t) :
  alignedContent (RenderInfo.statementEdge this) (RenderInfo.width this)
    (RenderInfo.startX this) (RenderInfo.makeSpacerRow_ this prev next).
Proof.
  unfold RenderInfo.makeSpacerRow_.
  destruct (Row.hasStatement prev); (split; [reflexivity|]);
    intros _;
    (split; [cbn; unfold RenderInfo.getSpacerRowWidth_; lia
            |intros H; discriminate H]).
Qed.

Lemma makeSpacerRow_statementHasInput (this : RenderInfo.t)
    (prev next : Row.t) :
  statementHasInput (RenderInfo.makeSpacerRow_ this prev next).
Proof.
  unfold RenderInfo.makeSpacerRow_.
  destruct (Row.hasStatement prev); intros H; discriminate H.
Qed.

Lemma rows_not_nil_of_length (refs : list RowRef) (n : nat) :
  (n + 2 <= List.length refs)%nat -> refs <> [].
Proof. destruct refs; cbn; [lia|discriminate]. Qed.

(** On a RenderInfo whose statement rows hold an input, measure returns; the
    rows of the result are the rows that were there, the rows createRows_
    adds to them and a spacer row between every two of these. *)
Lemma measure_returns (this : RenderInfo.t) :
  rowsSatisfy statementHasInput statementHasInput this ->
  exists this',
    RenderInfo.measure this = Normal this' /\
    rowsSatisfy statementHasInput statementHasInput this' /\
    (2 * List.length (RenderInfo.rows this) + 3
     <= List.length (RenderInfo.rows this'))%nat.
Proof.
  intros Hthis. unfold RenderInfo.measure.
  destruct (createRows_statementHasInput this Hthis) as [H1 Hlen1].
  set (this1 := RenderInfo.createRows_ this) in *.
  destruct (addElemSpacing_rule statementHasInput statementHasInput
              statementHasInput this1)
    as (rs2 & t2 & b2 & Heq2 & Ht2 & Hb2 & Hrs2 & Hlen2);
    auto using addElemSpacing_row_statementHasInput.
  assert (H2 : rowsSatisfy statementHasInput statementHasInput
                 (RenderInfo.addElemSpacing_ this1)).
  { rewrite Heq2. now repeat split. }
  assert (Hl2 : List.length (RenderInfo.rows (RenderInfo.addElemSpacing_ this1))
                = List.length (RenderInfo.rows this1)).
  { now rewrite Heq2. }
  set (this2 := RenderInfo.addElemSpacing_ this1) in *.
  destruct (computeBounds_returns this2 H2) as [this3 Hrun3].
  destruct (computeBounds_rule statementHasInput statementHasInput
              this2 this3) as [H3 Hlen3]; auto.
  rewrite Hrun3. cbn [bind].
  destruct (alignRowElements_returns this3 H3) as [this4 Hrun4].
  destruct (alignRowElements_rule statementHasInput statementHasInput
              statementHasInput this3 this4)
    as (rs4 & t4 & b4 & Heq4 & Ht4 & Hb4 & Hrs4 & Hlen4);
    eauto using alignRowElements_row_statementHasInput.
  rewrite Hrun4. cbn [bind].
  assert (H5 : rowsSatisfy statementHasInput statementHasInput
                 (RenderInfo.addRowSpacing_ this4)).
  { subst this4. repeat split; auto.
    apply interleaveSpacers_rule; [|exact Hrs4].
    apply makeSpacerRow_statementHasInput. }
  assert (Hl5 : (List.length (RenderInfo.rows (RenderInfo.addRowSpacing_ this4))
                 + 1 = 2 * List.length (RenderInfo.rows this4))%nat).
  { apply interleaveSpacers_length.
    apply rows_not_nil_of_length with (List.length (RenderInfo.rows this)).
    subst this4. cbn [RenderInfo.rows RenderInfo.setRows]. lia. }
  destruct (finalize_rule statementHasInput statementHasInput
              statementHasInput (RenderInfo.addRowSpacing_ this4))
    as (H6 & Hlen6 & _); auto using finalize_row_statementHasInput.
  eexists. split; [reflexivity|]. split; [exact H6|].
  rewrite Hlen6. subst this4. cbn [RenderInfo.rows RenderInfo.setRows] in Hl5.
  lia.
Qed.

Lemma new_statementHasInput (block : Blockly.Block.t)
    (constants : ConstantProvider.t) :
  rowsSatisfy statementHasInput statementHasInput
    (RenderInfo.new block constants).
Proof.
  repeat split; try constructor; intros H; discriminate H.
Qed.

Lemma new_unspaced (block : Blockly.Block.t)
    (constants : ConstantProvider.t) :
  rowsSatisfy isShared unspaced (RenderInfo.new block constants).
Proof. repeat split; constructor. Qed.

Lemma isShared_type (row row' : Row.t) :
  Row.type row' = Row.type row -> isShared row -> isShared row'.
Proof.
  unfold isShared, isTopOrBottom. now intros ->.
Qed.

(** The rows of a measured block that are not its top or bottom row are
    aligned to the bounds of the block. *)
Lemma addElemSpacing_row_isShared (this : RenderInfo.t) (row : Row.t) :
  isShared row -> isShared (RenderInfo.addElemSpacing_row this row).
Proof. now apply isShared_type. Qed.

Lemma alignRowElements_row_isShared (this : RenderInfo.t)
    (row row' : Row.t) :
  isShared row ->
  RenderInfo.alignRowElements_row this row = Normal row' ->
  isShared row'.
Proof.
  intros Hrow Hrun. apply isShared_type with row; [|exact Hrow].
  now destruct (alignRowElements_row_flags this row row' Hrun).
Qed.

Lemma finalize_row_isShared (this : RenderInfo.t) (acc : Z * Z)
    (row : Row.t) :
  isShared row -> isShared (snd (RenderInfo.finalize_row this acc row)).
Proof. unfold isShared. now rewrite finalize_row_isTopOrBottom. Qed.

(** The rows of a measured block that are not its top or bottom row are
    aligned to the bounds of the block. *)
Lemma measure_aligned (block : Blockly.Block.t)
    (constants : ConstantProvider.t) (info : RenderInfo.t) :
  RenderInfo.measure (RenderInfo.new block constants) = Normal info ->
  rowsSatisfy isShared
    (alignedContent (RenderInfo.statementEdge info) (RenderInfo.width info)
       (RenderInfo.startX info))
    info.
Proof.
  unfold RenderInfo.measure.
  pose proof (createRows_unspaced _ (new_unspaced block constants)) as H1.
  set (this1 := RenderInfo.createRows_ _) in *.
  destruct (addElemSpacing_rule isShared unspaced spaced this1
              (addElemSpacing_row_isShared this1)
              (addElemSpacing_row_spaced this1) H1)
    as (rs2 & t2 & b2 & Heq2 & Ht2 & Hb2 & Hrs2 & _).
  assert (H2 : rowsSatisfy isShared spaced (RenderInfo.addElemSpacing_ this1)).
  { rewrite Heq2. now repeat split. }
  set (this2 := RenderInfo.addElemSpacing_ this1) in *.
  destruct (RenderInfo.computeBounds_ this2) as [this3|] eqn:Hrun3;
    cbn [bind]; [|discriminate].
  destruct (computeBounds_rule isShared spaced this2 this3) as [H3 _]; auto.
  destruct (RenderInfo.alignRowElements_ this3) as [this4|] eqn:Hrun4;
    cbn [bind]; [|discriminate].
  destruct (alignRowElements_rule isShared spaced
              (alignedContent (RenderInfo.statementEdge this3)
                 (RenderInfo.width this3) (RenderInfo.startX this3))
              this3 this4
              (alignRowElements_row_isShared this3)
              (alignRowElements_row_aligned this3) H3 Hrun4)
    as (rs4 & t4 & b4 & Heq4 & Ht4 & Hb4 & Hrs4 & _).
  intros H. injection H as <-.
  assert (H5 : rowsSatisfy isShared
                 (alignedContent (RenderInfo.statementEdge this3)
                    (RenderInfo.width this3) (RenderInfo.startX this3))
                 (RenderInfo.addRowSpacing_ this4)).
  { subst this4. repeat split; auto.
    apply interleaveSpacers_rule; [|exact Hrs4].
    intros prev next.
    apply (makeSpacerRow_aligned (RenderInfo.setRows rs4 t4 b4 this3)). }
  destruct (finalize_rule isShared
              (alignedContent (RenderInfo.statementEdge this3)
                 (RenderInfo.width this3) (RenderInfo.startX this3))
              (alignedContent (RenderInfo.statementEdge this3)
                 (RenderInfo.width this3) (RenderInfo.startX this3))
              (RenderInfo.addRowSpacing_ this4)
              (finalize_row_isShared _)
              (fun a r => finalize_row_aligned _ a r _ _ _) H5)
    as (H6 & _ & Hse & Hw & Hsx).
  rewrite Hse, Hw, Hsx. subst this4. exact H6.
Qed.

(** ** Rows stay distinct objects *)

Lemma sameKind_aliasFree (refs refs' : list RowRef) :
  Forall2 sameKind refs refs' -> aliasFree refs' = aliasFree refs.
Proof.
  intros H. unfold aliasFree.
  assert (Hcount :
            List.length (filter isRTop refs') = List.length (filter isRTop refs)
            /\ List.length (filter isRBottom refs')
               = List.length (filter isRBottom refs)).
  { induction H as [|ref ref' refs refs' Hk _ [IHt IHb]]; [now split|].
    destruct ref, ref'; try contradiction;
      cbn [filter isRTop isRBottom List.length]; split; congruence. }
  destruct Hcount as [-> ->]. reflexivity.
Qed.

Lemma forRows_kinds {A : Type} (body : A -> Row.t -> Completion (A * Row.t))
    (refs refs' : list RowRef) (top bottom top' bottom' : Row.t) (a a' : A) :
  forRows body refs top bottom a = Normal (refs', top', bottom', a') ->
  Forall2 sameKind refs refs'.
Proof.
  intros Hrun.
  apply (forRows_rule body (fun _ => True) (fun _ => True) (fun _ => True))
    with (top := top) (bottom := bottom) (a := a) (top' := top')
         (bottom' := bottom') (a' := a'); auto.
  apply Forall_forall. intros ref _. now destruct ref.
Qed.

Lemma eachRow_aliasFree {A : Type} (body : A -> Row.t -> A * Row.t) (a : A)
    (this : RenderInfo.t) :
  aliasFree (RenderInfo.rows (fst (RenderInfo.eachRow body a this)))
  = aliasFree (RenderInfo.rows this).
Proof.
  unfold RenderInfo.eachRow.
  destruct (forRowsPure body (RenderInfo.rows this) (RenderInfo.topRow this)
              (RenderInfo.bottomRow this) a) as [[[rs t] b] a'] eqn:Hrun.
  cbn [fst RenderInfo.rows RenderInfo.setRows].
  apply sameKind_aliasFree.
  apply (forRows_kinds (fun a r => Normal (body a r)))
    with (top := RenderInfo.topRow this) (bottom := RenderInfo.bottomRow this)
         (a := a) (top' := t) (bottom' := b) (a' := a').
  now rewrite forRows_pure, Hrun.
Qed.

Lemma eachRowThrowing_aliasFree {A : Type}
    (body : A -> Row.t -> Completion (A * Row.t)) (a a' : A)
    (this this' : RenderInfo.t) :
  RenderInfo.eachRowThrowing body a this = Normal (this', a') ->
  aliasFree (RenderInfo.rows this') = aliasFree (RenderInfo.rows this).
Proof.
  unfold RenderInfo.eachRowThrowing.
  destruct (forRows body (RenderInfo.rows this) (RenderInfo.topRow this)
              (RenderInfo.bottomRow this) a) as [[[[rs t] b] a1]|e] eqn:Hrun;
    cbn [bind]; [|discriminate].
  intros H. injection H as <- <-.
  cbn [RenderInfo.rows RenderInfo.setRows].
  apply sameKind_aliasFree. eapply forRows_kinds, Hrun.
Qed.

Lemma addElemSpacing_aliasFree (this : RenderInfo.t) :
  aliasFree (RenderInfo.rows (RenderInfo.addElemSpacing_ this))
  = aliasFree (RenderInfo.rows this).
Proof. apply eachRow_aliasFree. Qed.

Lemma computeBounds_aliasFree (this this' : RenderInfo.t) :
  RenderInfo.computeBounds_ this = Normal this' ->
  aliasFree (RenderInfo.rows this') = aliasFree (RenderInfo.rows this).
Proof.
  unfold RenderInfo.computeBounds_.
  destruct (RenderInfo.eachRowThrowing RenderInfo.computeBounds_row
              (0, 0, 0) this) as [[this1 [[s w] c]]|e] eqn:Hloop;
    cbn [bind]; [|discriminate].
  rewrite <- (eachRowThrowing_aliasFree _ _ _ _ _ Hloop).
  intros H. injection H as <-.
  match goal with
  | |- context [RenderInfo.eachRow ?body tt ?x] =>
      pose proof (eachRow_aliasFree body tt x) as Hkeep
  end.
  destruct (RenderInfo.outputConnection _); exact Hkeep.
Qed.

Lemma alignRowElements_aliasFree (this this' : RenderInfo.t) :
  RenderInfo.alignRowElements_ this = Normal this' ->
  aliasFree (RenderInfo.rows this') = aliasFree (RenderInfo.rows this).
Proof.
  unfold RenderInfo.alignRowElements_.
  match goal with
  | |- context [RenderInfo.eachRowThrowing ?body tt this] =>
      destruct (RenderInfo.eachRowThrowing body tt this)
        as [[this1 []]|e] eqn:Hloop; cbn [bind]; [|discriminate]
  end.
  intros H. injection H as <-.
  eapply eachRowThrowing_aliasFree, Hloop.
Qed.

Lemma interleaveSpacers_filter (this : RenderInfo.t) (p : RowRef -> bool)
    (refs : list RowRef) :
  (forall r, p (ROwn r) = false) ->
  filter p (RenderInfo.interleaveSpacers this refs) = filter p refs.
Proof.
  intros Hp. induction refs as [|ref refs IH]; [reflexivity|].
  cbn [RenderInfo.interleaveSpacers]. destruct refs as [|next refs];
    [reflexivity|].
  cbn [filter] in *. rewrite Hp, IH. reflexivity.
Qed.

Lemma addRowSpacing_aliasFree (this : RenderInfo.t) :
  aliasFree (RenderInfo.rows (RenderInfo.addRowSpacing_ this))
  = aliasFree (RenderInfo.rows this).
Proof.
  unfold RenderInfo.addRowSpacing_, aliasFree.
  cbn [RenderInfo.rows RenderInfo.setRows].
  now rewrite !interleaveSpacers_filter.
Qed.

Lemma createRows_inputs_filter (this : RenderInfo.t) (p : RowRef -> bool)
    (inputs : list Blockly.Input.t) :
  (forall r, p (ROwn r) = false) ->
  forall st : list RowRef * Row.t * option Blockly.Input.t,
    filter p (fst (fst (fold_left (RenderInfo.createRows_input this)
                          inputs st)))
    = filter p (fst (fst st)).
Proof.
  intros Hp. induction inputs as [|input inputs IH]; intros st;
    [reflexivity|].
  cbn [fold_left]. rewrite IH. destruct st as [[rs row] last].
  rewrite createRows_input_rows. cbn [fst].
  destruct (_ && _); [|reflexivity].
  rewrite filter_app. cbn [filter]. now rewrite Hp, app_nil_r.
Qed.

(** The rows createRows_ leaves on a new RenderInfo are distinct objects. *)
Lemma createRows_new_aliasFree (this : RenderInfo.t) :
  RenderInfo.rows this = [] ->
  aliasFree (RenderInfo.rows (RenderInfo.createRows_ this)) = true.
Proof.
  intros Hnew. unfold RenderInfo.createRows_. rewrite Hnew.
  destruct (fold_left (RenderInfo.createRows_icon this) _ _)
    as [hidden row0].
  pose proof (createRows_inputs_filter this isRTop
                (Blockly.Block.inputList (RenderInfo.block_ this))
                (fun _ => eq_refl) ([] ++ [RTop], row0, None)) as Htop.
  pose proof (createRows_inputs_filter this isRBottom
                (Blockly.Block.inputList (RenderInfo.block_ this))
                (fun _ => eq_refl) ([] ++ [RTop], row0, None)) as Hbottom.
  destruct (fold_left (RenderInfo.createRows_input this) _ _)
    as [[rs row1] last].
  cbn [fst snd app filter isRTop isRBottom] in Htop, Hbottom.
  cbn [RenderInfo.rows RenderInfo.setHiddenIcons RenderInfo.setRows].
  unfold aliasFree.
  destruct (Row.elements _);
    rewrite ?filter_app, Htop, Hbottom; reflexivity.
Qed.

(** The rows are distinct objects when finalize_ runs in a measure of a new
    RenderInfo. *)
Lemma measure_finalizes_aliasFree (block : Blockly.Block.t)
    (constants : ConstantProvider.t) (info : RenderInfo.t) :
  RenderInfo.measure (RenderInfo.new block constants) = Normal info ->
  exists this,
    aliasFree (RenderInfo.rows this) = true /\
    info = RenderInfo.finalize_ this.
Proof.
  unfold RenderInfo.measure.
  pose proof (createRows_new_aliasFree (RenderInfo.new block constants)
                eq_refl) as H1.
  rewrite <- addElemSpacing_aliasFree in H1.
  destruct (RenderInfo.computeBounds_ _) as [this3|] eqn:Hrun3;
    cbn [bind]; [|discriminate].
  rewrite <- (computeBounds_aliasFree _ _ Hrun3) in H1.
  destruct (RenderInfo.alignRowElements_ this3) as [this4|] eqn:Hrun4;
    cbn [bind]; [|discriminate].
  rewrite <- (alignRowElements_aliasFree _ _ Hrun4) in H1.
  rewrite <- addRowSpacing_aliasFree in H1.
  intros H. injection H as <-.
  exists (RenderInfo.addRowSpacing_ this4). split; [exact H1|reflexivity].
Qed.

(** C1 (as stated) fails: in the block with one statement input (30 wide),
    the statement row is a content row without inline input, its desired
    width is statementEdge - startX = 5, and its width after measure is 35:
    the 5 of the desired width and the 30 of the statement input. *)
Lemma statement_row_exceeds_desired_width :
  exists (info : RenderInfo.t) (R : Row.t),
    RenderInfo.measure (RenderInfo.new statementBlock sampleConstants)
    = Normal info /\
    nth_error (RenderInfo.rowList info) 2 = Some R /\
    isContentRow R = true /\
    Row.hasInlineInput R = false /\
    Row.hasStatement R = true /\
    desiredWidth info R = 5 /\
    Row.width R = 35 /\
    Row.width R <> desiredWidth info R.
Proof.
  do 2 eexists. repeat (split; [vm_compute; reflexivity|]).
  vm_compute. discriminate.
Qed.

(** C3, evaluated on the block with one statement input and an output
    connection 8 wide: after computeBounds_ the statement row is 35 wide and
    its last spacer 0 wide; statementEdge - startX is 5 - 8, so missingSpace
    is -8; alignRowElements_ adds it to the last spacer and to the row,
    which come out -8 and 27 wide. *)
Lemma alignment_shrinks_statement_row :
  exists (before after : RenderInfo.t) (R R' : Row.t),
    RenderInfo.computeBounds_
      (RenderInfo.addElemSpacing_
         (RenderInfo.createRows_
            (RenderInfo.new statementBlockWithOutput sampleConstants)))
    = Normal before /\
    RenderInfo.alignRowElements_ before = Normal after /\
    nth_error (RenderInfo.rowList before) 1 = Some R /\
    nth_error (RenderInfo.rowList after) 1 = Some R' /\
    Row.hasStatement R = true /\
    desiredWidth before R - (Row.width R - statementInputWidth R) = -8 /\
    Row.width R = 35 /\
    Row.width R' = 27 /\
    option_map Measurable.width (Row.getLastSpacer R) = Some 0 /\
    option_map Measurable.width (Row.getLastSpacer R') = Some (-8).
Proof.
  do 4 eexists. repeat (split; [vm_compute; reflexivity|]).
  vm_compute. reflexivity.
Qed.

(** C8 (as amended): measure returns on every freshly constructed
    RenderInfo, with rows that the block and the constants determine. A
    second call on the same RenderInfo returns too, but not with the rows of
    the first call: createRows_ adds the top row, the input rows and the
    bottom row again to the rows that are there, and addRowSpacing_ puts a
    spacer row between every two of them, so the second call leaves at
    least twice as many rows as the first plus three. *)
Theorem measure_again_adds_rows :
  forall (block : Blockly.Block.t) (constants : ConstantProvider.t),
  exists first second : RenderInfo.t,
    RenderInfo.measure (RenderInfo.new block constants) = Normal first /\
    RenderInfo.measure first = Normal second /\
    (2 * List.length (RenderInfo.rowList first) + 3
     <= List.length (RenderInfo.rowList second))%nat /\
    RenderInfo.rowList second <> RenderInfo.rowList first.
Proof.
  intros block constants.
  destruct (measure_returns _ (new_statementHasInput block constants))
    as (first & Hfirst & Hinv & _).
  destruct (measure_returns first Hinv) as (second & Hsecond & _ & Hlen).
  exists first, second. split; [exact Hfirst|]. split; [exact Hsecond|].
  unfold RenderInfo.rowList. rewrite !length_map.
  split; [exact Hlen|].
  intros Heq. apply (f_equal (@List.length Row.t)) in Heq.
  rewrite !length_map in Heq. lia.
Qed.

(** C8 (as stated) fails: on the block with one statement input the first
    call of measure leaves 5 rows and a second call on the same RenderInfo
    leaves 15. *)
Lemma second_measure_differs :
  exists first second : RenderInfo.t,
    RenderInfo.measure (RenderInfo.new statementBlock sampleConstants)
    = Normal first /\
    RenderInfo.measure first = Normal second /\
    List.length (RenderInfo.rowList first) = 5%nat /\
    List.length (RenderInfo.rowList second) = 15%nat /\
    RenderInfo.rowList second <> RenderInfo.rowList first.
Proof.
  do 2 eexists. repeat (split; [vm_compute; reflexivity|]).
  intros Heq. apply (f_equal (@List.length Row.t)) in Heq.
  vm_compute in Heq. discriminate Heq.
Qed.

(** C2 (as amended): after finalize_ on a RenderInfo whose rows are
    distinct objects, the first row is at [yPos] 0 and every next row is at
    the [yPos] of the row before it plus that row's height; the height of
    the RenderInfo is the sum of the heights of the rows; and in every row
    the first element is at the row's [xPos] and every next element is at
    the [xPos] of the element before it plus that element's width. The
    rows are distinct objects in the first measure of a new RenderInfo, so
    this holds of the RenderInfo that measure leaves for any block. *)
Theorem finalize_positions :
  (forall this : RenderInfo.t,
      aliasFree (RenderInfo.rows this) = true ->
      positioned (RenderInfo.finalize_ this)) /\
  (forall (block : Blockly.Block.t) (constants : ConstantProvider.t),
    exists info : RenderInfo.t,
      RenderInfo.measure (RenderInfo.new block constants) = Normal info /\
      chained Row.yPos Row.height 0 (RenderInfo.rowList info) /\
      RenderInfo.height info = sumHeights (RenderInfo.rowList info) /\
      Forall (fun row =>
                chained Measurable.xPos Measurable.width (Row.xPos row)
                  (Row.elements row))
        (RenderInfo.rowList info)).
Proof.
  split; [exact finalize_positioned|].
  intros block constants.
  destruct (measure_returns _ (new_statementHasInput block constants))
    as (info & Hrun & _).
  exists info. split; [exact Hrun|].
  destruct (measure_finalizes_aliasFree block constants info Hrun)
    as (this & Hfree & ->).
  now apply finalize_positioned.
Qed.

Lemma finalize_positions_witness :
  aliasFree (RenderInfo.rows statementBlockBeforeFinalize) = true /\
  map (fun R => (Row.yPos R, Row.height R))
    (RenderInfo.rowList (RenderInfo.finalize_ statementBlockBeforeFinalize))
  = [(0, 4); (4, 5); (9, 20); (29, 5); (34, 4)] /\
  map (fun R =>
         map (fun e => (Measurable.xPos e, Measurable.width e))
           (Row.elements R))
    (RenderInfo.rowList (RenderInfo.finalize_ statementBlockBeforeFinalize))
  = [[(0, 4); (4, 31)]; [(0, 35)]; [(0, 5); (5, 30); (35, 0)]; [(0, 35)];
     [(0, 4); (4, 31)]] /\
  RenderInfo.height (RenderInfo.finalize_ statementBlockBeforeFinalize)
  = 38 /\
  positioned (RenderInfo.finalize_ statementBlockBeforeFinalize).
Proof.
  split; [vm_compute; reflexivity|]. split; [vm_compute; reflexivity|].
  split; [vm_compute; reflexivity|]. split; [vm_compute; reflexivity|].
  apply (proj1 finalize_positions). vm_compute. reflexivity.
Defined.

(** C2 (as stated) fails for a RenderInfo that is measured a second time.
    createRows_ adds the top and the bottom row to [rows] once more, so
    each of them is held at several positions; finalize_ places the one
    object at each of them, and the last position is the one it keeps. On
    the block with one statement input the first row of [rows] is at
    [yPos] 53 after the second measure, not at 0, and the row after it at
    4, not at 53 plus the first row's height 4. *)
Lemma remeasured_rows_are_not_stacked :
  exists (first second : RenderInfo.t) (R0 R1 : Row.t),
    RenderInfo.measure (RenderInfo.new statementBlock sampleConstants)
    = Normal first /\
    RenderInfo.measure first = Normal second /\
    aliasFree (RenderInfo.rows second) = false /\
    nth_error (RenderInfo.rowList second) 0 = Some R0 /\
    nth_error (RenderInfo.rowList second) 1 = Some R1 /\
    Row.yPos R0 = 53 /\
    Row.height R0 = 4 /\
    Row.yPos R1 = 4 /\
    Row.yPos R0 <> 0 /\
    Row.yPos R1 <> Row.yPos R0 + Row.height R0 /\
    ~ positioned second.
Proof.
  do 4 eexists. do 8 (split; [vm_compute; reflexivity|]).
  split; [vm_compute; discriminate|].
  split; [vm_compute; discriminate|].
  intros [[Hhd _] _]. specialize (Hhd _ eq_refl).
  vm_compute in Hhd. discriminate Hhd.
Qed.

(** C9: in the row that the loop body of addElemSpacing_ leaves, every old
    element is followed by an in-row spacer, the last one included and in
    top and bottom rows too, and one more spacer stands before the first
    element exactly when the row is neither the top row nor the bottom row.
    So a row that held an element ends with an in-row spacer, and that
    spacer is the last spacer that the alignment pass finds. The loop
    rewrites every row once whenever the rows are distinct objects, as they
    are after createRows_ on a new RenderInfo. *)
Theorem addElemSpacing_adds_trailing_spacer :
  (forall (this : RenderInfo.t) (row : Row.t),
      let row' := RenderInfo.addElemSpacing_row this row in
      List.length (Row.elements row')
      = (leadingSpacers row + 2 * List.length (Row.elements row))%nat /\
      (forall i e,
          nth_error (Row.elements row) i = Some e ->
          nth_error (Row.elements row') (leadingSpacers row + 2 * i) = Some e /\
          exists sp,
            nth_error (Row.elements row') (leadingSpacers row + 2 * i + 1)
            = Some sp /\
            Measurable.type sp = Some "in-row spacer") /\
      (isTopOrBottom row = false ->
       exists sp,
         hd_error (Row.elements row') = Some sp /\
         Measurable.type sp = Some "in-row spacer") /\
      (Row.elements row <> [] ->
       exists init sp,
         Row.elements row' = init ++ [sp] /\
         Measurable.type sp = Some "in-row spacer" /\
         Row.getLastSpacer row' = Some sp)) /\
  (forall this : RenderInfo.t,
      aliasFree (RenderInfo.rows this) = true ->
      RenderInfo.rowList (RenderInfo.addElemSpacing_ this)
      = map (RenderInfo.addElemSpacing_row this) (RenderInfo.rowList this)) /\
  (forall (block : Blockly.Block.t) (constants : ConstantProvider.t),
      let this := RenderInfo.createRows_ (RenderInfo.new block constants) in
      RenderInfo.rowList (RenderInfo.addElemSpacing_ this)
      = map (RenderInfo.addElemSpacing_row this) (RenderInfo.rowList this)).
Proof.
  split; [exact addElemSpacing_row_layout|].
  split; [exact addElemSpacing_rowList|].
  intros block constants this. apply addElemSpacing_rowList.
  now apply createRows_new_aliasFree.
Qed.

Lemma addElemSpacing_adds_trailing_spacer_witness :
  aliasFree (RenderInfo.rows statementBlockRows) = true /\
  RenderInfo.rowList (RenderInfo.addElemSpacing_ statementBlockRows)
  = map (RenderInfo.addElemSpacing_row statementBlockRows)
      (RenderInfo.rowList statementBlockRows).
Proof.
  split; [vm_compute; reflexivity|].
  apply (proj1 (proj2 addElemSpacing_adds_trailing_spacer)).
  vm_compute. reflexivity.
Defined.

(** ** Alignment never shrinks a row of a block without output connection *)

Lemma forRows_values {A : Type} (body : A -> Row.t -> Completion (A * Row.t))
    (refs : list RowRef) :
  forall top bottom a refs' top' bottom' a',
    forRows body refs top bottom a = Normal (refs', top', bottom', a') ->
    (filter isRTop refs = [] -> top' = top) /\
    (filter isRBottom refs = [] -> bottom' = bottom) /\
    (aliasFree refs = true ->
     mapAccumThrowing body (map (deref top bottom) refs) a
     = Normal (map (deref top' bottom') refs', a')).
Proof.
  induction refs as [|[| |r] rest IH];
    intros top bottom a refs' top' bottom' a' Hrun.
  - cbn in Hrun. injection Hrun as <- <- <- <-. now repeat split.
  - forRows_step Hrun body a top IH.
    destruct (IH _ _ _ _ _ _ _ Hrest) as (IHt & IHb & IHv).
    split; [intros H; discriminate H|]. split; [exact IHb|].
    intros Hfree. apply aliasFree_cons_top in Hfree as [Hnone Hfree].
    cbn [map deref mapAccumThrowing]. rewrite Hbody. cbn [bind].
    rewrite (deref_no_top top r1 bottom rest Hnone), (IHv Hfree).
    cbn [bind]. now rewrite (IHt Hnone).
  - forRows_step Hrun body a bottom IH.
    destruct (IH _ _ _ _ _ _ _ Hrest) as (IHt & IHb & IHv).
    split; [exact IHt|]. split; [intros H; discriminate H|].
    intros Hfree. apply aliasFree_cons_bottom in Hfree as [Hnone Hfree].
    cbn [map deref mapAccumThrowing]. rewrite Hbody. cbn [bind].
    rewrite (deref_no_bottom top bottom r1 rest Hnone), (IHv Hfree).
    cbn [bind]. now rewrite (IHb Hnone).
  - forRows_step Hrun body a r IH.
    destruct (IH _ _ _ _ _ _ _ Hrest) as (IHt & IHb & IHv).
    split; [exact IHt|]. split; [exact IHb|].
    intros Hfree. cbn [map deref mapAccumThrowing]. rewrite Hbody.
    cbn [bind]. now rewrite (IHv Hfree).
Qed.

Lemma eachRowThrowing_values {A : Type}
    (body : A -> Row.t -> Completion (A * Row.t)) (a a' : A)
    (this this' : RenderInfo.t) :
  aliasFree (RenderInfo.rows this) = true ->
  RenderInfo.eachRowThrowing body a this = Normal (this', a') ->
  mapAccumThrowing body (RenderInfo.rowList this) a
  = Normal (RenderInfo.rowList this', a').
Proof.
  intros Hfree. unfold RenderInfo.eachRowThrowing.
  destruct (forRows body (RenderInfo.rows this) (RenderInfo.topRow this)
              (RenderInfo.bottomRow this) a) as [[[[rs t] b] a1]|e] eqn:Hrun;
    cbn [bind]; [|discriminate].
  intros H. injection H as <- <-.
  destruct (forRows_values body _ _ _ _ _ _ _ _ Hrun) as (_ & _ & Hv).
  rewrite (rowList_deref this), (Hv Hfree). reflexivity.
Qed.

Lemma boundedBy_mono (s w s' w' : Z) (row : Row.t) :
  s <= s' -> w <= w' -> boundedBy s w row -> boundedBy s' w' row.
Proof.
  intros Hs Hw [Hrow Hst]. split; [lia|].
  intros H. specialize (Hst H). lia.
Qed.

Lemma computeBounds_row_bounds (s w c s' w' c' : Z) (row row' : Row.t) :
  RenderInfo.computeBounds_row (s, w, c) row = Normal (s', w', c', row') ->
  s <= s' /\ w <= w' /\ boundedBy s' w' row'.
Proof.
  unfold RenderInfo.computeBounds_row, boundedBy, statementInputWidth.
  destruct (Row.hasStatement (Row.measure row)) eqn:Hs.
  - destruct (Row.getLastInput (Row.measure row)) as [si|] eqn:Hi;
      cbn [bind]; [|discriminate].
    intros H. injection H as <- <- <- <-. rewrite Hs, Hi.
    cbn [Row.width Row.measure Row.setSize].
    split; [lia|]. split; [lia|]. split; [lia|intros _; lia].
  - cbn [bind]. intros H. injection H as <- <- <- <-. rewrite Hs.
    cbn [Row.width Row.measure Row.setSize].
    split; [lia|]. split; [lia|]. split; [lia|discriminate].
Qed.

Lemma computeBounds_rows_bounds (l : list Row.t) :
  forall s w c l' s' w' c',
    mapAccumThrowing RenderInfo.computeBounds_row l (s, w, c)
    = Normal (l', (s', w', c')) ->
    s <= s' /\ w <= w' /\ Forall (boundedBy s' w') l'.
Proof.
  induction l as [|row l IH]; intros s w c l' s' w' c' Hrun;
    cbn [mapAccumThrowing] in Hrun.
  - injection Hrun as <- <- <- <-. split; [lia|]. split; [lia|constructor].
  - destruct (RenderInfo.computeBounds_row (s, w, c) row)
      as [[[[s1 w1] c1] row1]|e] eqn:Hbody; cbn [bind] in Hrun;
      [|discriminate].
    destruct (mapAccumThrowing RenderInfo.computeBounds_row l (s1, w1, c1))
      as [[rest [[s2 w2] c2]]|e] eqn:Hrest; cbn [bind] in Hrun;
      [|discriminate].
    injection Hrun as <- <- <- <-.
    destruct (computeBounds_row_bounds _ _ _ _ _ _ _ _ Hbody)
      as (Hs & Hw & Hrow).
    destruct (IH _ _ _ _ _ _ _ Hrest) as (Hs' & Hw' & Hrows).
    split; [lia|]. split; [lia|]. constructor; [|exact Hrows].
    now apply boundedBy_mono with s1 w1.
Qed.

Lemma createRows_fields (this : RenderInfo.t) :
  RenderInfo.outputConnection (RenderInfo.createRows_ this)
  = RenderInfo.outputConnection this /\
  RenderInfo.startX (RenderInfo.createRows_ this) = RenderInfo.startX this.
Proof.
  unfold RenderInfo.createRows_.
  destruct (fold_left (RenderInfo.createRows_icon this) _ _) as [hidden row0].
  destruct (fold_left (RenderInfo.createRows_input this) _ _)
    as [[rs row1] last].
  split; reflexivity.
Qed.

Lemma eachRow_fields {A : Type} (body : A -> Row.t -> A * Row.t) (a : A)
    (this : RenderInfo.t) :
  exists rs top bottom,
    fst (RenderInfo.eachRow body a this)
    = RenderInfo.setRows rs top bottom this.
Proof.
  unfold RenderInfo.eachRow.
  destruct (forRowsPure body _ _ _ a) as [[[rs t] b] a'].
  now exists rs, t, b.
Qed.

Lemma eachRowThrowing_fields {A : Type}
    (body : A -> Row.t -> Completion (A * Row.t)) (a a' : A)
    (this this' : RenderInfo.t) :
  RenderInfo.eachRowThrowing body a this = Normal (this', a') ->
  exists rs top bottom, this' = RenderInfo.setRows rs top bottom this.
Proof.
  unfold RenderInfo.eachRowThrowing.
  destruct (forRows body _ _ _ a) as [[[[rs t] b] a1]|e]; cbn [bind];
    [|discriminate].
  intros H. injection H as <- <-. now exists rs, t, b.
Qed.

Lemma setStatementEdge_boundedBy (s w e : Z) (row : Row.t) :
  boundedBy s w row ->
  boundedBy s w
    (if Row.hasStatement row then Row.setStatementEdge e row else row).
Proof. now destruct (Row.hasStatement row). Qed.

(** After computeBounds_ on rows that are distinct objects, no row is wider
    than the block, and no statement row is wider before its statement
    input than the statement edge; [startX] stays 0 unless the block has an
    output connection. *)
Lemma computeBounds_bounds (this this' : RenderInfo.t) :
  aliasFree (RenderInfo.rows this) = true ->
  RenderInfo.startX this = 0 ->
  RenderInfo.computeBounds_ this = Normal this' ->
  Forall (boundedBy (RenderInfo.statementEdge this')
            (RenderInfo.width this' - RenderInfo.startX this'))
    (RenderInfo.rowList this') /\
  (RenderInfo.outputConnection this = None ->
   RenderInfo.startX this' = RenderInfo.startX this).
Proof.
  intros Hfree Hstart. unfold RenderInfo.computeBounds_.
  destruct (RenderInfo.eachRowThrowing RenderInfo.computeBounds_row
              (0, 0, 0) this) as [[this1 [[s w] c]]|e] eqn:Hloop;
    cbn [bind]; [|discriminate].
  pose proof (eachRowThrowing_values _ _ _ _ _ Hfree Hloop) as Hvalues.
  destruct (computeBounds_rows_bounds _ _ _ _ _ _ _ _ Hvalues)
    as (_ & _ & Hrows).
  pose proof (eachRowThrowing_aliasFree _ _ _ _ _ Hloop) as Hfree1.
  rewrite Hfree in Hfree1.
  destruct (eachRowThrowing_fields _ _ _ _ _ Hloop) as (rs & t & b & Heq1).
  match goal with
  | |- context [RenderInfo.eachRow ?body tt ?x] =>
      pose proof (eachRow_values body tt x Hfree1) as Hvalues2;
      destruct (eachRow_fields body tt x) as (rs2 & t2 & b2 & Heq2);
      destruct (RenderInfo.eachRow body tt x) as [this2 []]
  end.
  rewrite mapAccum_map in Hvalues2. cbn [fst snd] in Hvalues2, Heq2.
  injection Hvalues2 as Hvalues2.
  assert (Hrows2 : Forall (boundedBy s w) (RenderInfo.rowList this2)).
  { rewrite Hvalues2. apply Forall_map.
    revert Hrows. apply Forall_impl. intros r.
    apply setStatementEdge_boundedBy. }
  cbn [fst]. intros H. injection H as <-.
  subst this2 this1.
  cbn [RenderInfo.outputConnection RenderInfo.setRows RenderInfo.setWidth
         RenderInfo.setStatementEdge RenderInfo.setWidthWithChildren].
  destruct (RenderInfo.outputConnection this) as [oc|].
  - split; [|discriminate].
    cbn [RenderInfo.statementEdge RenderInfo.width RenderInfo.startX
           RenderInfo.setRows RenderInfo.setWidth RenderInfo.setStatementEdge
           RenderInfo.setWidthWithChildren RenderInfo.setStartX].
    replace (w + Measurable.width oc - Measurable.width oc) with w by lia.
    exact Hrows2.
  - split; [|reflexivity].
    cbn [RenderInfo.statementEdge RenderInfo.width RenderInfo.startX
           RenderInfo.setRows RenderInfo.setWidth RenderInfo.setStatementEdge
           RenderInfo.setWidthWithChildren RenderInfo.setStartX].
    rewrite Hstart. replace (w - 0) with w by lia. exact Hrows2.
Qed.

Lemma addAlignmentPadding_width_le (row : Row.t) (missingSpace : Z) :
  0 <= missingSpace ->
  Row.width row <= Row.width (RenderInfo.addAlignmentPadding_ row missingSpace).
Proof.
  intros Hm. unfold RenderInfo.addAlignmentPadding_.
  destruct (Row.getLastSpacer row); cbn [Row.width Row.setWidth]; lia.
Qed.

Lemma alignRowElements_row_grows (this : RenderInfo.t) (row row' : Row.t) :
  boundedBy (RenderInfo.statementEdge this)
    (RenderInfo.width this - RenderInfo.startX this) row ->
  RenderInfo.alignRowElements_row this row = Normal row' ->
  Row.hasStatement row = false \/ RenderInfo.startX this = 0 ->
  Row.width row <= Row.width row'.
Proof.
  intros [Hw Hs] Hrun Hcase.
  destruct (alignRowElements_row_cases this row row' Hrun)
    as [[_ ->]|(_ & current & Hcur & [[_ ->]|[_ ->]])]; try lia.
  apply addAlignmentPadding_width_le.
  unfold desiredWidth, statementInputWidth in *.
  destruct (Row.hasStatement row).
  - destruct Hcur as (si & Hsi & ->). rewrite Hsi in Hs.
    destruct Hcase as [Hcase|Hcase]; [discriminate Hcase|].
    specialize (Hs eq_refl). lia.
  - subst current. lia.
Qed.

Lemma alignRowElements_rows (this : RenderInfo.t) (l : list Row.t) :
  forall l',
    mapAccumThrowing
      (fun (_ : unit) row =>
         row' <- RenderInfo.alignRowElements_row this row ;; Normal (tt, row'))
      l tt = Normal (l', tt) ->
    Forall2 (fun row row' =>
               RenderInfo.alignRowElements_row this row = Normal row') l l'.
Proof.
  induction l as [|row l IH]; intros l' Hrun; cbn [mapAccumThrowing] in Hrun.
  - injection Hrun as <-. constructor.
  - destruct (RenderInfo.alignRowElements_row this row) as [row1|e] eqn:Hrow;
      cbn [bind] in Hrun; [|discriminate].
    match type of Hrun with
    | context [mapAccumThrowing ?body l tt] =>
        destruct (mapAccumThrowing body l tt) as [[rest []]|e] eqn:Hrest;
        cbn [bind] in Hrun; [|discriminate]
    end.
    injection Hrun as <-. constructor; [exact Hrow|now apply IH].
Qed.

Lemma alignRowElements_values (this this' : RenderInfo.t) :
  aliasFree (RenderInfo.rows this) = true ->
  RenderInfo.alignRowElements_ this = Normal this' ->
  Forall2 (fun row row' =>
             RenderInfo.alignRowElements_row this row = Normal row')
    (RenderInfo.rowList this) (RenderInfo.rowList this').
Proof.
  intros Hfree. unfold RenderInfo.alignRowElements_.
  match goal with
  | |- context [RenderInfo.eachRowThrowing ?body tt this] =>
      destruct (RenderInfo.eachRowThrowing body tt this)
        as [[this1 []]|e] eqn:Hloop; cbn [bind]; [|discriminate]
  end.
  intros H. injection H as <-.
  apply alignRowElements_rows.
  now apply eachRowThrowing_values.
Qed.

Lemma modifyLast_split {A : Type} (p : A -> bool) (f : A -> A) (l : list A)
    (y : A) :
  Row.findLast p l = Some y ->
  exists init rest,
    l = init ++ y :: rest /\ existsb p rest = false /\
    Row.modifyLast p f l = init ++ f y :: rest.
Proof.
  induction l as [|x l IH]; cbn [Row.findLast Row.modifyLast];
    [discriminate|].
  destruct (Row.findLast p l) as [z|] eqn:Hlast.
  - intros H. injection H as ->.
    destruct (IH eq_refl) as (init & rest & -> & Hrest & ->).
    now exists (x :: init), rest.
  - destruct (p x); [|discriminate]. intros H. injection H as ->.
    exists [], l. split; [reflexivity|]. split; [|reflexivity].
    now apply findLast_None.
Qed.

(** What the alignment of one row changes. With
    [missingSpace = desiredWidth - currentWidth], where [currentWidth] is
    the width of the row less the width of its last input if it is a
    statement row: a row with an inline input, a row whose [missingSpace]
    is 0 and a row without spacer stay as they are; in every other row the
    width of the last spacer and the width of the row grow by
    [missingSpace], and nothing else changes. *)
Theorem alignment_changes_last_spacer_only (this : RenderInfo.t)
    (row row' : Row.t) :
  RenderInfo.alignRowElements_row this row = Normal row' ->
  let missingSpace :=
    desiredWidth this row - (Row.width row - statementInputWidth row) in
  ((Row.hasInlineInput row = true \/ missingSpace = 0 \/
    Row.getLastSpacer row = None) /\
   row' = row) \/
  (Row.hasInlineInput row = false /\ missingSpace <> 0 /\
   exists init lastSpacer rest,
     Row.elements row = init ++ lastSpacer :: rest /\
     Measurable.isSpacer lastSpacer = true /\
     existsb Measurable.isSpacer rest = false /\
     row' = Row.setWidth (Row.width row + missingSpace)
              (Row.setElements
                 (init
                  ++ Measurable.setWidth
                       (Measurable.width lastSpacer + missingSpace) lastSpacer
                  :: rest)
                 row)).
Proof.
  intros Hrun missingSpace.
  destruct (alignRowElements_row_cases this row row' Hrun)
    as [[Hin ->]|(Hin & current & Hcur & Hcases)]; [left; auto|].
  assert (Hms : desiredWidth this row - current = missingSpace).
  { subst missingSpace. unfold statementInputWidth.
    destruct (Row.hasStatement row).
    - destruct Hcur as (si & -> & ->). reflexivity.
    - subst current. lia. }
  rewrite Hms in Hcases.
  destruct Hcases as [[Hm ->]|[Hm ->]]; [left; auto|].
  unfold RenderInfo.addAlignmentPadding_, Row.getLastSpacer.
  destruct (Row.findLast Measurable.isSpacer (Row.elements row))
    as [sp|] eqn:Hlast; [|left; auto].
  right. split; [exact Hin|]. split; [exact Hm|].
  destruct (modifyLast_split Measurable.isSpacer
              (fun lastSpacer =>
                 Measurable.setWidth
                   (Measurable.width lastSpacer + missingSpace) lastSpacer)
              _ _ Hlast) as (init & rest & Hels & Hrest & ->).
  exists init, sp, rest.
  split; [exact Hels|].
  split; [now apply findLast_Some with (Row.elements row)|].
  split; [exact Hrest|reflexivity].
Qed.

Lemma alignment_changes_last_spacer_only_witness :
  RenderInfo.alignRowElements_row wideInfo fieldRow = Normal alignedFieldRow /\
  Row.width fieldRow = 30 /\ Row.width alignedFieldRow = 40 /\
  desiredWidth wideInfo fieldRow
  - (Row.width fieldRow - statementInputWidth fieldRow) = 10 /\
  exists init lastSpacer rest,
    Row.elements fieldRow = init ++ lastSpacer :: rest /\
    Measurable.isSpacer lastSpacer = true /\
    existsb Measurable.isSpacer rest = false /\
    alignedFieldRow
    = Row.setWidth (Row.width fieldRow + 10)
        (Row.setElements
           (init
            ++ Measurable.setWidth (Measurable.width lastSpacer + 10)
                 lastSpacer
            :: rest)
           fieldRow).
Proof.
  split; [vm_compute; reflexivity|]. split; [vm_compute; reflexivity|].
  split; [vm_compute; reflexivity|].
  assert (Hms : desiredWidth wideInfo fieldRow
                - (Row.width fieldRow - statementInputWidth fieldRow) = 10)
    by (vm_compute; reflexivity).
  split; [exact Hms|].
  destruct (alignment_changes_last_spacer_only wideInfo fieldRow
              alignedFieldRow) as [[_ Hsame]|(_ & _ & Hchange)];
    [vm_compute; reflexivity| |].
  - exfalso. apply (f_equal Row.width) in Hsame.
    vm_compute in Hsame. discriminate Hsame.
  - rewrite Hms in Hchange. exact Hchange.
Defined.

Lemma new_createRows_spaced_fields (block : Blockly.Block.t)
    (constants : ConstantProvider.t) :
  let this :=
    RenderInfo.addElemSpacing_
      (RenderInfo.createRows_ (RenderInfo.new block constants)) in
  RenderInfo.startX this = 0 /\
  (Blockly.Block.outputConnection block = None ->
   RenderInfo.outputConnection this = None).
Proof.
  intros this. subst this. unfold RenderInfo.addElemSpacing_.
  match goal with
  | |- context [RenderInfo.eachRow ?body tt ?x] =>
      destruct (eachRow_fields body tt x) as (rs & t & b & ->)
  end.
  cbn [RenderInfo.startX RenderInfo.outputConnection RenderInfo.setRows].
  destruct (createRows_fields (RenderInfo.new block constants)) as [-> ->].
  split; [reflexivity|]. cbn. now intros ->.
Qed.

(** ** The widths of the rows of a measured block *)

(** [startX] of a measured block without output connection is 0. *)
Lemma measure_startX (block : Blockly.Block.t)
    (constants : ConstantProvider.t) (info : RenderInfo.t) :
  RenderInfo.measure (RenderInfo.new block constants) = Normal info ->
  Blockly.Block.outputConnection block = None ->
  RenderInfo.startX info = 0.
Proof.
  intros Hrun Hnone. unfold RenderInfo.measure in Hrun.
  pose proof (createRows_new_aliasFree (RenderInfo.new block constants)
                eq_refl) as Hfree.
  destruct (new_createRows_spaced_fields block constants) as [Hstart Hout].
  rewrite <- addElemSpacing_aliasFree in Hfree.
  set (this2 := RenderInfo.addElemSpacing_ _) in *.
  destruct (RenderInfo.computeBounds_ this2) as [this3|] eqn:Hrun3;
    cbn [bind] in Hrun; [|discriminate].
  destruct (computeBounds_bounds this2 this3 Hfree Hstart Hrun3)
    as [_ Hkeep].
  destruct (RenderInfo.alignRowElements_ this3) as [this4|] eqn:Hrun4;
    cbn [bind] in Hrun; [|discriminate].
  injection Hrun as <-.
  unfold RenderInfo.alignRowElements_ in Hrun4.
  match type of Hrun4 with
  | context [RenderInfo.eachRowThrowing ?body tt this3] =>
      destruct (RenderInfo.eachRowThrowing body tt this3)
        as [[this4' []]|] eqn:Hloop; cbn [bind] in Hrun4; [|discriminate]
  end.
  injection Hrun4 as <-.
  destruct (eachRowThrowing_fields _ _ _ _ _ Hloop) as (rs & t & b & ->).
  unfold RenderInfo.finalize_.
  match goal with
  | |- context [RenderInfo.eachRow ?body ?a ?x] =>
      destruct (eachRow_fields body a x) as (rs5 & t5 & b5 & Heq5);
      destruct (RenderInfo.eachRow body a x) as [this5 [w y]]
  end.
  cbn [fst] in Heq5. subst this5.
  cbn [RenderInfo.startX RenderInfo.setStartY RenderInfo.setHeight
         RenderInfo.setWidthWithChildren RenderInfo.setRows
         RenderInfo.addRowSpacing_].
  rewrite Hkeep; [exact Hstart|]. now apply Hout.
Qed.

(** C1 (as amended), for a block whose lengths are integers: measure
    returns on every block, and afterwards every content row R (a row that
    is neither the top nor the bottom row) without inline input is as wide
    as the block less [startX] when it is not a statement row; when it is
    a statement row and the block has no output connection ([startX] is
    then 0), it is as wide as [statementEdge] plus the width of its
    statement input, the last input of the row. *)
Theorem measure_aligns_content_rows :
  forall (block : Blockly.Block.t) (constants : ConstantProvider.t),
  exists info : RenderInfo.t,
    RenderInfo.measure (RenderInfo.new block constants) = Normal info /\
    (Blockly.Block.outputConnection block = None ->
     RenderInfo.startX info = 0) /\
    forall R : Row.t,
      In R (RenderInfo.rowList info) ->
      isContentRow R = true ->
      Row.hasInlineInput R = false ->
      (Row.hasStatement R = false ->
       Row.width R = RenderInfo.width info - RenderInfo.startX info) /\
      (Row.hasStatement R = true ->
       Blockly.Block.outputConnection block = None ->
       exists statementInput,
         Row.getLastInput R = Some statementInput /\
         Row.width R
         = RenderInfo.statementEdge info + Measurable.width statementInput).
Proof.
  intros block constants.
  destruct (measure_returns _ (new_statementHasInput block constants))
    as (info & Hrun & _).
  exists info. split; [exact Hrun|].
  split; [now apply measure_startX with constants|].
  destruct (measure_aligned block constants info Hrun) as (Ht & Hb & Hrows).
  intros R HR Hcontent Hinline.
  apply in_map_iff in HR as (ref & <- & Href).
  unfold isContentRow in Hcontent. apply negb_true_iff in Hcontent.
  destruct ref as [| |r]; cbn [RenderInfo.getRow] in *.
  - unfold isShared in Ht. congruence.
  - unfold isShared in Hb. congruence.
  - rewrite Forall_forall in Hrows. specialize (Hrows _ Href) as [_ Hr].
    destruct (Hr Hinline) as [Hwidth Hinput].
    unfold statementInputWidth, statementHasInput in *.
    split; intros Hs; rewrite Hs in *.
    + lia.
    + intros Hnone.
      rewrite (measure_startX block constants info Hrun Hnone) in Hwidth.
      destruct (Row.getLastInput r) as [si|]; [|now destruct Hinput].
      exists si. split; [reflexivity|lia].
Qed.

(** For every block without output connection, alignRowElements_ returns
    after computeBounds_ on a new RenderInfo and narrows no row: [startX]
    is 0, so no [desiredWidth] is less than the width it is compared
    with. *)
Theorem alignment_grows_rows :
  forall (block : Blockly.Block.t) (constants : ConstantProvider.t),
    Blockly.Block.outputConnection block = None ->
    exists before after : RenderInfo.t,
      RenderInfo.computeBounds_
        (RenderInfo.addElemSpacing_
           (RenderInfo.createRows_ (RenderInfo.new block constants)))
      = Normal before /\
      RenderInfo.alignRowElements_ before = Normal after /\
      RenderInfo.startX before = 0 /\
      Forall2 (fun R R' => Row.width R <= Row.width R')
        (RenderInfo.rowList before) (RenderInfo.rowList after).
Proof.
  intros block constants Hnone.
  destruct (createRows_statementHasInput _
              (new_statementHasInput block constants)) as [H1 _].
  pose proof (createRows_new_aliasFree (RenderInfo.new block constants)
                eq_refl) as Hfree.
  destruct (new_createRows_spaced_fields block constants) as [Hstart Hout].
  set (this1 := RenderInfo.createRows_ _) in *.
  destruct (addElemSpacing_rule statementHasInput statementHasInput
              statementHasInput this1
              (addElemSpacing_row_statementHasInput this1)
              (addElemSpacing_row_statementHasInput this1) H1)
    as (rs2 & t2 & b2 & Heq2 & Ht2 & Hb2 & Hrs2 & _).
  assert (H2 : rowsSatisfy statementHasInput statementHasInput
                 (RenderInfo.addElemSpacing_ this1)).
  { rewrite Heq2. now repeat split. }
  rewrite <- addElemSpacing_aliasFree in Hfree.
  set (this2 := RenderInfo.addElemSpacing_ this1) in *.
  destruct (computeBounds_returns this2 H2) as [before Hrun3].
  destruct (computeBounds_rule statementHasInput statementHasInput
              this2 before) as [H3 _]; auto.
  destruct (alignRowElements_returns before H3) as [after Hrun4].
  destruct (computeBounds_bounds this2 before Hfree Hstart Hrun3)
    as [Hbounds Hkeep].
  rewrite <- (computeBounds_aliasFree _ _ Hrun3) in Hfree.
  assert (Hzero : RenderInfo.startX before = 0).
  { rewrite Hkeep; auto. }
  exists before, after. split; [exact Hrun3|]. split; [exact Hrun4|].
  split; [exact Hzero|].
  pose proof (alignRowElements_values before after Hfree Hrun4) as Hrows.
  clear - Hbounds Hrows Hzero.
  induction Hrows as [|R R' l l' HR _ IH]; [constructor|].
  inversion Hbounds as [|? ? HbR Hbl]; subst.
  constructor; [|now apply IH].
  apply alignRowElements_row_grows with before; auto.
Qed.

Lemma alignment_grows_rows_witness :
  exists before after : RenderInfo.t,
    RenderInfo.computeBounds_
      (RenderInfo.addElemSpacing_
         (RenderInfo.createRows_
            (RenderInfo.new statementBlock sampleConstants)))
    = Normal before /\
    RenderInfo.alignRowElements_ before = Normal after /\
    RenderInfo.startX before = 0 /\
    Forall2 (fun R R' => Row.width R <= Row.width R')
      (RenderInfo.rowList before) (RenderInfo.rowList after).
Proof.
  apply (alignment_grows_rows statementBlock sampleConstants). reflexivity.
Defined.

(* ================================================================= *)
(** * Further properties of the code *)

(** ** The corner tests of Measurable *)

Lemma indexOfFrom_range (sub : string) (s : string) :
  forall i, indexOfFrom s sub i = -1 \/ i <= indexOfFrom s sub i.
Proof.
  induction s as [|c s IH]; intros i; cbn [indexOfFrom].
  - destruct (String.prefix sub ""); [right; lia|now left].
  - destruct (String.prefix sub (String c s)); [right; lia|].
    destruct (IH (i + 1)) as [H|H]; [now left|right; lia].
Qed.

Lemma indexOfFrom_occurs (sub : string) (s : string) :
  forall i, 0 <= i -> (indexOfFrom s sub i >? -1) = occurs sub s.
Proof.
  induction s as [|c s IH]; intros i Hi; cbn [indexOfFrom occurs].
  - destruct (String.prefix sub ""); cbn [orb]; lia.
  - destruct (String.prefix sub (String c s)); cbn [orb]; [lia|].
    apply IH. lia.
Qed.

Lemma indexOf_zero (sub s : string) :
  (indexOf s sub =? 0) = String.prefix sub s.
Proof.
  unfold indexOf. destruct s as [|c s]; cbn [indexOfFrom].
  - destruct (String.prefix sub ""); reflexivity.
  - destruct (String.prefix sub (String c s)); [reflexivity|].
    destruct (indexOfFrom_range sub s (0 + 1)) as [H|H]; lia.
Qed.

Lemma prefix_app (a b s : string) :
  String.prefix (a ++ b) s = true -> String.prefix a s = true.
Proof.
  revert s. induction a as [|c a IH]; intros s; [now destruct s|].
  destruct s as [|c' s]; cbn [String.append String.prefix]; [discriminate|].
  destruct (ascii_dec c c'); [apply IH|discriminate].
Qed.

Lemma prefix_occurs (sub s : string) :
  String.prefix sub s = true -> occurs sub s = true.
Proof. intros H. destruct s; cbn [occurs]; now rewrite H. Qed.

Lemma occurs_weaken (a b s : string) :
  occurs (a ++ b) s = true -> occurs a s = true.
Proof.
  induction s as [|c s IH]; cbn [occurs]; intros H;
    apply orb_true_iff in H; destruct H as [H|H];
    try discriminate; apply orb_true_iff.
  - left. now apply prefix_app with b.
  - left. now apply prefix_app with b.
  - right. now apply IH.
Qed.

Lemma prefix_trans (b a s : string) :
  String.prefix b a = true -> String.prefix a s = true ->
  String.prefix b s = true.
Proof.
  revert a s. induction b as [|cb b IH]; intros a s Hb Ha;
    [now destruct s|].
  destruct a as [|ca a]; cbn [String.prefix] in Hb; [discriminate|].
  destruct (ascii_dec cb ca) as [<-|]; [|discriminate].
  destruct s as [|cs s]; cbn [String.prefix] in *; [discriminate|].
  destruct (ascii_dec cb cs); [|discriminate].
  now apply IH with a.
Qed.

Lemma occurs_after (a b s : string) :
  String.prefix a s = true -> occurs b a = true -> occurs b s = true.
Proof.
  revert s. induction a as [|c a IH]; intros s Ha Hb.
  - cbn [occurs] in Hb. rewrite orb_false_r in Hb.
    apply prefix_occurs. now apply prefix_trans with "".
  - cbn [occurs] in Hb. apply orb_true_iff in Hb. destruct Hb as [Hb|Hb].
    + apply prefix_occurs. now apply prefix_trans with (String c a).
    + destruct s as [|c' s]; cbn [String.prefix] in Ha; [discriminate|].
      destruct (ascii_dec c c'); [|discriminate].
      cbn [occurs]. apply orb_true_iff. right. now apply IH.
Qed.

Lemma prefix_differ (a b s : string) :
  String.prefix a s = true -> String.prefix b s = true ->
  String.prefix a b = true \/ String.prefix b a = true.
Proof.
  revert b s. induction a as [|c a IH]; intros b s Ha Hb;
    [left; now destruct b|].
  destruct b as [|cb b]; [now right|].
  destruct s as [|cs s]; cbn [String.prefix] in *; [discriminate|].
  destruct (ascii_dec c cs) as [<-|]; [|discriminate].
  destruct (ascii_dec cb c) as [->|]; [|discriminate].
  destruct (ascii_dec c c); [|congruence].
  now apply IH with s.
Qed.

(** Every rounded corner, square corner and right corner is a corner; no
    Measurable is both a rounded and a square corner; a spacer is never a
    corner. Each of the four corner tests, which search the type string,
    throws exactly when the type has not been set, where the tests that
    compare the type return false; on a type that is set, isCorner and
    isRightCorner tell whether 'corner' and 'corner right' occur in it,
    isRoundedCorner and isSquareCorner whether it starts with 'round
    corner' and 'square corner'. *)
Theorem corner_kinds :
  forall m : Measurable.t,
    (Measurable.isRoundedCorner m = Normal true ->
     Measurable.isCorner m = Normal true) /\
    (Measurable.isSquareCorner m = Normal true ->
     Measurable.isCorner m = Normal true) /\
    (Measurable.isRightCorner m = Normal true ->
     Measurable.isCorner m = Normal true) /\
    (Measurable.isRoundedCorner m = Normal true ->
     Measurable.isSquareCorner m = Normal false) /\
    (Measurable.isSpacer m = true -> Measurable.isCorner m = Normal false) /\
    (Measurable.type m = None <->
     Measurable.isCorner m = Throw TypeError) /\
    (Measurable.type m = None <->
     Measurable.isRoundedCorner m = Throw TypeError) /\
    (Measurable.type m = None <->
     Measurable.isSquareCorner m = Throw TypeError) /\
    (Measurable.type m = None <->
     Measurable.isRightCorner m = Throw TypeError) /\
    (forall ty,
        Measurable.type m = Some ty ->
        Measurable.isCorner m = Normal (occurs "corner" ty) /\
        Measurable.isRoundedCorner m
        = Normal (String.prefix "round corner" ty) /\
        Measurable.isSquareCorner m
        = Normal (String.prefix "square corner" ty) /\
        Measurable.isRightCorner m = Normal (occurs "corner right" ty)) /\
    (Measurable.type m = None ->
     Measurable.isSpacer m = false /\
     Measurable.isField m = false /\
     Measurable.isNextConnection m = false /\
     Measurable.isPreviousConnection m = false).
Proof.
  intros m.
  unfold Measurable.isRoundedCorner, Measurable.isSquareCorner,
    Measurable.isRightCorner, Measurable.isCorner, Measurable.isSpacer,
    Measurable.isField, Measurable.isNextConnection,
    Measurable.isPreviousConnection, Measurable.typeIndexOf,
    Measurable.typeIs.
  destruct (Measurable.type m) as [ty|]; cbn [bind].
  - assert (Hocc : forall sub,
               (indexOf ty sub >? -1) = occurs sub ty).
    { intros sub. apply indexOfFrom_occurs. lia. }
    rewrite !Hocc, !indexOf_zero.
    repeat split; try discriminate;
      try (match goal with
           | H : Some _ = Some _ |- _ => injection H as <-; reflexivity
           end).
    + intros H. injection H as H. f_equal.
      now apply occurs_after with "round corner".
    + intros H. injection H as H. f_equal.
      now apply occurs_after with "square corner".
    + intros H. injection H as H. f_equal.
      now apply (occurs_weaken "corner" " right").
    + intros H. injection H as H. f_equal.
      destruct (String.prefix "square corner" ty) eqn:Hsq; [|reflexivity].
      now destruct (prefix_differ _ _ _ H Hsq).
    + intros H. f_equal. apply orb_true_iff in H.
      destruct H as [H|H]; apply String.eqb_eq in H; now subst ty.
  - repeat split; try discriminate; reflexivity.
Qed.

(** ** When the walks of the Drawer fail *)

Lemma roundedAnd_typed (negated : bool) (m : Measurable.t) (ty : string) :
  Measurable.type m = Some ty ->
  exists b, Drawer.roundedAnd negated m = Normal b /\
            (b = true -> String.prefix "round corner" ty = true).
Proof.
  intros Hty. unfold Drawer.roundedAnd, Measurable.isRoundedCorner,
    Measurable.isRightCorner.
  rewrite !(typeIndexOf_Some _ _ _ Hty). cbn [bind].
  rewrite indexOf_zero.
  destruct (String.prefix "round corner" ty); cbn [bind]; eauto.
Qed.

Lemma roundedAnd_untyped (negated : bool) (m : Measurable.t) :
  Measurable.type m = None ->
  Drawer.roundedAnd negated m = Throw TypeError.
Proof.
  intros Hty. unfold Drawer.roundedAnd, Measurable.isRoundedCorner,
    Measurable.typeIndexOf. now rewrite Hty.
Qed.

(** What one step of the top walk does to the drawer: it fails on an
    element that is not walkable, and otherwise adds at most one step, a
    relative horizontal line for a spacer and for nothing else. *)
Lemma drawTop_elem_step (this : Drawer.t) (elem : Measurable.t) :
  if walkable "previous connection" elem then
    exists steps,
      Drawer.drawTop_elem this elem = Normal (Drawer.addToOutline steps this)
      /\ horizontalTravel steps = spacerWidths [elem]
  else Drawer.drawTop_elem this elem = Throw TypeError.
Proof.
  unfold walkable, Drawer.drawTop_elem, spacerWidths, Measurable.isSpacer,
    Drawer.shapePath.
  destruct (Measurable.type elem) as [ty|] eqn:Hty;
    [|now rewrite roundedAnd_untyped].
  destruct (roundedAnd_typed true elem ty Hty) as (c1 & -> & Hc1).
  destruct (roundedAnd_typed false elem ty Hty) as (c2 & -> & Hc2).
  cbn [bind fold_right]. rewrite !(typeIs_Some _ _ _ Hty).
  assert (Hround : String.prefix "round corner" ty = true ->
                   String.eqb ty "previous connection" = false /\
                   String.eqb ty "between-row spacer" = false /\
                   String.eqb ty "in-row spacer" = false).
  { intros H. repeat split; apply String.eqb_neq; intros ->; discriminate. }
  destruct c1.
  { destruct (Hround (Hc1 eq_refl)) as (-> & -> & ->).
    eexists. split; [reflexivity|]. reflexivity. }
  destruct c2.
  { destruct (Hround (Hc2 eq_refl)) as (-> & -> & ->).
    eexists. split; [reflexivity|]. reflexivity. }
  destruct (String.eqb ty "previous connection") eqn:Hprev.
  { apply String.eqb_eq in Hprev. subst ty. cbn.
    destruct (Measurable.shape elem); cbn [bind]; [|reflexivity].
    eexists. split; reflexivity. }
  destruct (String.eqb ty "hat") eqn:Hhat.
  { apply String.eqb_eq in Hhat. subst ty. cbn.
    eexists. split; reflexivity. }
  destruct (String.eqb ty "between-row spacer"
            || String.eqb ty "in-row spacer").
  - eexists. split; [reflexivity|]. cbn. lia.
  - exists []. split; [|reflexivity].
    unfold Drawer.addToOutline. rewrite app_nil_r. now destruct this.
Qed.

Lemma drawBottom_elem_step (this : Drawer.t) (elem : Measurable.t) :
  if walkable "next connection" elem then
    exists steps,
      Drawer.drawBottom_elem this elem
      = Normal (Drawer.addToOutline steps this)
      /\ horizontalTravel steps = - spacerWidths [elem]
  else Drawer.drawBottom_elem this elem = Throw TypeError.
Proof.
  unfold walkable, Drawer.drawBottom_elem, spacerWidths, Measurable.isSpacer,
    Measurable.isNextConnection, Drawer.shapePath.
  destruct (Measurable.type elem) as [ty|] eqn:Hty.
  2:{ unfold Measurable.typeIs. rewrite Hty.
      now rewrite roundedAnd_untyped. }
  destruct (roundedAnd_typed true elem ty Hty) as (c1 & -> & Hc1).
  destruct (roundedAnd_typed false elem ty Hty) as (c2 & -> & Hc2).
  cbn [bind fold_right]. rewrite !(typeIs_Some _ _ _ Hty).
  destruct (String.eqb ty "next connection") eqn:Hnext.
  { apply String.eqb_eq in Hnext. subst ty. cbn.
    destruct (Measurable.shape elem); cbn [bind]; [|reflexivity].
    eexists. split; reflexivity. }
  destruct (String.eqb ty "square corner left") eqn:Hsq.
  { apply String.eqb_eq in Hsq. subst ty. cbn.
    eexists. split; reflexivity. }
  assert (Hround : String.prefix "round corner" ty = true ->
                   String.eqb ty "between-row spacer" = false /\
                   String.eqb ty "in-row spacer" = false).
  { intros H. split; apply String.eqb_neq; intros ->; discriminate. }
  destruct c1.
  { destruct (Hround (Hc1 eq_refl)) as (-> & ->).
    eexists. split; reflexivity. }
  destruct c2.
  { destruct (Hround (Hc2 eq_refl)) as (-> & ->).
    eexists. split; reflexivity. }
  destruct (String.eqb ty "between-row spacer"
            || String.eqb ty "in-row spacer").
  - eexists. split; [reflexivity|]. cbn. lia.
  - exists []. split; [|reflexivity].
    unfold Drawer.addToOutline. rewrite app_nil_r. now destruct this.
Qed.

Lemma horizontalTravel_app (l l' : list PathStep) :
  horizontalTravel (l ++ l') = horizontalTravel l + horizontalTravel l'.
Proof.
  induction l as [|step l IH]; [reflexivity|].
  cbn [app horizontalTravel fold_right]. fold (horizontalTravel (l ++ l')).
  fold (horizontalTravel l). rewrite IH.
  destruct step as [| axis v |]; try reflexivity.
  destruct (String.eqb axis "h"); lia.
Qed.

Lemma spacerWidths_app (l l' : list Measurable.t) :
  spacerWidths (l ++ l') = spacerWidths l + spacerWidths l'.
Proof.
  induction l as [|e l IH]; [reflexivity|].
  cbn [app spacerWidths fold_right]. fold (spacerWidths (l ++ l')).
  fold (spacerWidths l). rewrite IH.
  destruct (Measurable.isSpacer e); lia.
Qed.

Lemma addToOutline_app (l l' : list PathStep) (this : Drawer.t) :
  Drawer.addToOutline l' (Drawer.addToOutline l this)
  = Drawer.addToOutline (l ++ l') this.
Proof. unfold Drawer.addToOutline. cbn. now rewrite app_assoc. Qed.

(** A loop of the Drawer over elements, for a body that fails on the
    elements that are not [ok] and adds steps for the others. *)
Lemma forElems_steps (body : Drawer.t -> Measurable.t -> Completion Drawer.t)
    (ok : Measurable.t -> bool) (sign : Z) :
  (forall this elem,
      if ok elem then
        exists steps,
          body this elem = Normal (Drawer.addToOutline steps this) /\
          horizontalTravel steps = sign * spacerWidths [elem]
      else body this elem = Throw TypeError) ->
  forall elems this,
    if forallb ok elems then
      exists steps,
        Drawer.forElems body elems this
        = Normal (Drawer.addToOutline steps this) /\
        horizontalTravel steps = sign * spacerWidths elems
    else Drawer.forElems body elems this = Throw TypeError.
Proof.
  intros Hbody. induction elems as [|elem elems IH]; intros this.
  - cbn [forallb Drawer.forElems]. exists [].
    split; [|unfold horizontalTravel, spacerWidths; cbn [fold_right]; lia].
    unfold Drawer.addToOutline. rewrite app_nil_r. now destruct this.
  - cbn [forallb Drawer.forElems]. specialize (Hbody this elem).
    destruct (ok elem); cbn [andb].
    + destruct Hbody as (steps & -> & Hsteps). cbn [bind].
      specialize (IH (Drawer.addToOutline steps this)).
      destruct (forallb ok elems).
      * destruct IH as (steps' & -> & Hsteps').
        exists (steps ++ steps'). rewrite addToOutline_app.
        split; [reflexivity|].
        rewrite horizontalTravel_app, Hsteps, Hsteps'.
        change (elem :: elems) with ([elem] ++ elems).
        rewrite spacerWidths_app. lia.
      * exact IH.
    + now rewrite Hbody.
Qed.

Lemma forallb_rev {A : Type} (p : A -> bool) (l : list A) :
  forallb p (rev l) = forallb p l.
Proof.
  induction l as [|x l IH]; [reflexivity|].
  cbn [rev forallb]. rewrite forallb_app, IH. cbn. rewrite andb_true_r.
  apply andb_comm.
Qed.

Lemma spacerWidths_rev (l : list Measurable.t) :
  spacerWidths (rev l) = spacerWidths l.
Proof.
  induction l as [|x l IH]; [reflexivity|].
  cbn [rev]. rewrite spacerWidths_app, IH.
  change (x :: l) with ([x] ++ l). rewrite spacerWidths_app. lia.
Qed.

(** The top walk returns exactly when every element of the top row has its
    type set and every 'previous connection' among them has a shape, and
    the bottom walk exactly when every element of the bottom row has its
    type set and every 'next connection' among them has a shape; otherwise
    the walk throws a TypeError (from searching a [null] type or reading
    the path of a missing shape). *)
Theorem walk_fails_on_untyped_element :
  forall this : Drawer.t,
    let top := Row.elements (RenderInfo.topRow (Drawer.info_ this)) in
    let bottom := Row.elements (RenderInfo.bottomRow (Drawer.info_ this)) in
    (forallb (walkable "previous connection") top = true <->
     exists this', Drawer.drawTop_ this = Normal this') /\
    (forallb (walkable "previous connection") top = false <->
     Drawer.drawTop_ this = Throw TypeError) /\
    (forallb (walkable "next connection") bottom = true <->
     exists this', Drawer.drawBottom_ this = Normal this') /\
    (forallb (walkable "next connection") bottom = false <->
     Drawer.drawBottom_ this = Throw TypeError).
Proof.
  intros this top bottom. subst top bottom.
  unfold Drawer.drawTop_, Drawer.drawBottom_.
  pose proof (forElems_steps Drawer.drawTop_elem
                (walkable "previous connection") 1) as Htop.
  pose proof (forElems_steps Drawer.drawBottom_elem
                (walkable "next connection") (-1)) as Hbottom.
  match goal with
  | |- context [Drawer.forElems Drawer.drawTop_elem ?els ?d] =>
      specialize (Htop
                    (fun this elem =>
                       ltac:(pose proof (drawTop_elem_step this elem) as H;
                             destruct (walkable _ elem);
                             [destruct H as (steps & H1 & H2);
                              exists steps; split; [exact H1|lia]
                             |exact H]))
                    els d)
  end.
  match goal with
  | |- context [Drawer.forElems Drawer.drawBottom_elem ?els ?d] =>
      specialize (Hbottom
                    (fun this elem =>
                       ltac:(pose proof (drawBottom_elem_step this elem) as H;
                             destruct (walkable _ elem);
                             [destruct H as (steps & H1 & H2);
                              exists steps; split; [exact H1|lia]
                             |exact H]))
                    els d)
  end.
  rewrite forallb_rev in Hbottom.
  destruct (forallb (walkable "previous connection") _);
    destruct (forallb (walkable "next connection") _);
    repeat match goal with
           | H : exists _, _ /\ _ |- _ => destruct H as (? & -> & _)
           | H : _ = Throw _ |- _ => rewrite H
           end;
    cbn [bind]; repeat split; intros; try discriminate; eauto;
    repeat match goal with
           | H : exists _, Throw _ = Normal _ |- _ => destruct H; discriminate
           end.
Qed.

(** The walks only add to the outline. The top walk adds a move to the
    start of the top row, then the steps of the elements, then the vertical
    line of the row's height; the bottom walk adds the vertical line of the
    row's height less its overhang, then the steps of the elements. The
    relative horizontal lines among the steps of the elements add up to the
    widths of the row's spacers on the top, and to their negation on the
    bottom, which is drawn right to left. *)
Theorem walk_draws_spacer_widths :
  forall this this' : Drawer.t,
    (Drawer.drawTop_ this = Normal this' ->
     let topRow := RenderInfo.topRow (Drawer.info_ this) in
     exists steps,
       Drawer.outlinePath_ this'
       = Drawer.outlinePath_ this
         ++ [moveBy (Row.xPos topRow) (RenderInfo.startY (Drawer.info_ this))]
         ++ steps ++ [lineOnAxis "v" (Row.height topRow)] /\
       horizontalTravel steps = spacerWidths (Row.elements topRow) /\
       Drawer.info_ this' = Drawer.info_ this) /\
    (Drawer.drawBottom_ this = Normal this' ->
     let bottomRow := RenderInfo.bottomRow (Drawer.info_ this) in
     exists steps,
       Drawer.outlinePath_ this'
       = Drawer.outlinePath_ this
         ++ [lineOnAxis "v" (Row.height bottomRow - Row.overhangY bottomRow)]
         ++ steps /\
       horizontalTravel steps = - spacerWidths (Row.elements bottomRow) /\
       Drawer.info_ this' = Drawer.info_ this).
Proof.
  intros this this'. split; intros Hrun.
  - unfold Drawer.drawTop_ in Hrun.
    match type of Hrun with
    | context [Drawer.forElems _ ?els ?d] =>
        pose proof (forElems_steps Drawer.drawTop_elem
                      (walkable "previous connection") 1
                      (fun this elem =>
                         ltac:(pose proof (drawTop_elem_step this elem) as H;
                               destruct (walkable _ elem);
                               [destruct H as (steps & H1 & H2);
                                exists steps; split; [exact H1|lia]
                               |exact H]))
                      els d) as Hloop
    end.
    destruct (forallb _ _).
    + destruct Hloop as (steps & Hloop & Hsteps). rewrite Hloop in Hrun.
      cbn [bind] in Hrun. injection Hrun as <-. exists steps.
      cbn [Drawer.outlinePath_ Drawer.addToOutline Drawer.info_].
      rewrite <- !app_assoc. split; [reflexivity|]. split; [lia|reflexivity].
    + rewrite Hloop in Hrun. discriminate.
  - unfold Drawer.drawBottom_ in Hrun.
    match type of Hrun with
    | context [Drawer.forElems _ ?els ?d] =>
        pose proof (forElems_steps Drawer.drawBottom_elem
                      (walkable "next connection") (-1)
                      (fun this elem =>
                         ltac:(pose proof
                                 (drawBottom_elem_step this elem) as H;
                               destruct (walkable _ elem);
                               [destruct H as (steps & H1 & H2);
                                exists steps; split; [exact H1|lia]
                               |exact H]))
                      els d) as Hloop
    end.
    destruct (forallb _ _).
    + destruct Hloop as (steps & Hloop & Hsteps). rewrite Hloop in Hrun.
      injection Hrun as <-. exists steps.
      cbn [Drawer.outlinePath_ Drawer.addToOutline Drawer.info_].
      rewrite <- !app_assoc. split; [reflexivity|].
      rewrite spacerWidths_rev in Hsteps. split; [lia|reflexivity].
    + rewrite Hloop in Hrun. discriminate.
Qed.

Lemma walk_draws_spacer_widths_witness :
  exists top bottom : Drawer.t,
    Drawer.drawTop_ cornerDrawer = Normal top /\
    Drawer.drawBottom_ cornerDrawer = Normal bottom /\
    Drawer.outlinePath_ top
    = [moveBy 0 0; fragment "top left"; lineOnAxis "h" 7; lineOnAxis "v" 0] /\
    Drawer.outlinePath_ bottom
    = [lineOnAxis "v" 0; lineOnAxis "h" (-9); fragment "bottom left"] /\
    (exists steps,
        Drawer.outlinePath_ top
        = [] ++ [moveBy 0 0] ++ steps ++ [lineOnAxis "v" 0] /\
        horizontalTravel steps = 7) /\
    (exists steps,
        Drawer.outlinePath_ bottom = [] ++ [lineOnAxis "v" 0] ++ steps /\
        horizontalTravel steps = -9).
Proof.
  do 2 eexists.
  split; [vm_compute; reflexivity|]. split; [vm_compute; reflexivity|].
  split; [vm_compute; reflexivity|]. split; [vm_compute; reflexivity|].
  split.
  - match goal with
    | |- exists steps, Drawer.outlinePath_ ?d = _ /\ _ =>
        destruct (walk_draws_spacer_widths cornerDrawer d) as [Htop _]
    end.
    destruct Htop as (steps & H1 & H2 & _); [vm_compute; reflexivity|].
    exists steps. split; [exact H1|exact H2].
  - match goal with
    | |- exists steps, Drawer.outlinePath_ ?d = _ /\ _ =>
        destruct (walk_draws_spacer_widths cornerDrawer d) as [_ Hbottom]
    end.
    destruct Hbottom as (steps & H1 & H2 & _); [vm_compute; reflexivity|].
    exists steps. split; [exact H1|exact H2].
Defined.

(** ** The passes of RenderInfo *)

Lemma interleaveSpacers_nth (this : RenderInfo.t) (refs : list RowRef) :
  forall i r,
    nth_error refs i = Some r ->
    nth_error (RenderInfo.interleaveSpacers this refs) (2 * i) = Some r /\
    forall next,
      nth_error refs (S i) = Some next ->
      nth_error (RenderInfo.interleaveSpacers this refs) (2 * i + 1)
      = Some (ROwn (RenderInfo.makeSpacerRow_ this (RenderInfo.getRow this r)
                      (RenderInfo.getRow this next))).
Proof.
  induction refs as [|r0 refs IH]; intros i r Hi; [now destruct i|].
  destruct i as [|i].
  - cbn in Hi. injection Hi as <-.
    cbn [RenderInfo.interleaveSpacers]. destruct refs as [|next' refs'].
    + split; [reflexivity|]. intros next Hn. discriminate.
    + split; [reflexivity|]. intros next Hn. cbn in Hn.
      now injection Hn as <-.
  - cbn [nth_error] in Hi. destruct (IH i r Hi) as [Heven Hodd].
    cbn [RenderInfo.interleaveSpacers]. destruct refs as [|next' refs'];
      [now destruct i|].
    replace (2 * S i)%nat with (S (S (2 * i))) by lia.
    replace (S (S (2 * i)) + 1)%nat with (S (S (2 * i + 1))) by lia.
    cbn [nth_error]. split; [exact Heven|]. intros next Hn.
    now apply Hodd.
Qed.

(** addRowSpacing_ keeps every row of [rows], in order, and puts one new
    spacer row between every two neighbours and nowhere else: [n] rows
    become [2n - 1] (none stay none, one stays one), row [i] is found at
    position [2i], and position [2i + 1] holds a row of its own that
    makeSpacerRow_ built for rows [i] and [i + 1]: as wide as the block
    less [startX], MEDIUM_PADDING high, and following a statement exactly
    when row [i] has one. The top and the bottom row stay as they are. *)
Theorem addRowSpacing_interleaves :
  forall this : RenderInfo.t,
    let this' := RenderInfo.addRowSpacing_ this in
    RenderInfo.topRow this' = RenderInfo.topRow this /\
    RenderInfo.bottomRow this' = RenderInfo.bottomRow this /\
    List.length (RenderInfo.rows this')
    = (2 * List.length (RenderInfo.rows this) - 1)%nat /\
    (forall i r,
        nth_error (RenderInfo.rows this) i = Some r ->
        nth_error (RenderInfo.rows this') (2 * i) = Some r) /\
    (forall i prev next,
        nth_error (RenderInfo.rows this) i = Some prev ->
        nth_error (RenderInfo.rows this) (S i) = Some next ->
        exists spacer,
          nth_error (RenderInfo.rows this') (2 * i + 1) = Some (ROwn spacer) /\
          spacer = RenderInfo.makeSpacerRow_ this (RenderInfo.getRow this prev)
                     (RenderInfo.getRow this next) /\
          Row.width spacer = RenderInfo.width this - RenderInfo.startX this /\
          Row.height spacer
          = ConstantProvider.MEDIUM_PADDING (RenderInfo.constants_ this) /\
          Row.followsStatement spacer
          = Row.hasStatement (RenderInfo.getRow this prev)).
Proof.
  intros this this'. subst this'. unfold RenderInfo.addRowSpacing_.
  cbn [RenderInfo.topRow RenderInfo.bottomRow RenderInfo.rows
         RenderInfo.setRows].
  split; [reflexivity|]. split; [reflexivity|]. split; [|split].
  - destruct (RenderInfo.rows this) as [|r refs] eqn:Hrows; [reflexivity|].
    pose proof (interleaveSpacers_length this (r :: refs)
                  ltac:(discriminate)) as H.
    cbn [List.length] in *. lia.
  - intros i r Hi. now apply interleaveSpacers_nth.
  - intros i prev next Hi Hn.
    destruct (interleaveSpacers_nth this _ i prev Hi) as [_ Hodd].
    eexists. split; [exact (Hodd next Hn)|]. split; [reflexivity|].
    unfold RenderInfo.makeSpacerRow_.
    destruct (Row.hasStatement (RenderInfo.getRow this prev));
      repeat split; reflexivity.
Qed.

(** *** createRows_ *)

Lemma pushFields_elements (this : RenderInfo.t) (input : Blockly.Input.t)
    (row : Row.t) :
  RenderInfo.pushFields this input row
  = Row.setElements
      (Row.elements row
       ++ map (fun field =>
                 blockRendering.Field (RenderInfo.constants_ this) field input)
            (Blockly.Input.fieldRow input))
      row.
Proof.
  unfold RenderInfo.pushFields.
  generalize (Blockly.Input.fieldRow input) as fields. intros fields.
  revert row. induction fields as [|field fields IH]; intros row.
  - cbn. rewrite app_nil_r. now destruct row.
  - cbn [fold_left map]. rewrite IH. unfold Row.push.
    cbn [Row.elements Row.setElements]. now rewrite <- app_assoc.
Qed.

Lemma addInput_elements (this : RenderInfo.t) (input : Blockly.Input.t)
    (row : Row.t) :
  Row.elements (RenderInfo.addInput_ this input row)
  = Row.elements row ++ inputMeasurable this input /\
  Row.type (RenderInfo.addInput_ this input row) = Row.type row.
Proof.
  unfold RenderInfo.addInput_, inputMeasurable.
  destruct (RenderInfo.isInline this);
    destruct (Blockly.Input.type input); cbn;
    rewrite ?app_nil_r; split; reflexivity.
Qed.

Lemma createRows_icons_elements (this : RenderInfo.t)
    (icons : list Blockly.Icon.t) :
  forall hidden row,
    fold_left (RenderInfo.createRows_icon this) icons (hidden, row)
    = (hidden ++ iconMeasurables this (filter (isHiddenIcon this) icons),
       Row.setElements
         (Row.elements row
          ++ iconMeasurables this
               (filter (fun icon => negb (isHiddenIcon this icon)) icons))
         row).
Proof.
  induction icons as [|icon icons IH]; intros hidden row.
  - cbn. rewrite !app_nil_r. now destruct row.
  - cbn [fold_left filter]. unfold RenderInfo.createRows_icon at 2.
    fold (isHiddenIcon this icon).
    destruct (isHiddenIcon this icon); cbn [negb]; rewrite IH.
    + unfold iconMeasurables. cbn [map]. now rewrite <- app_assoc.
    + unfold iconMeasurables, Row.push. cbn [map Row.elements Row.setElements].
      now rewrite <- app_assoc.
Qed.

(** The rows that only [rows] holds, among references. *)
Lemma createRows_inputs_elements (this : RenderInfo.t)
    (inputs : list Blockly.Input.t) :
  forall (done : list Row.t) (refs : list RowRef) (row : Row.t)
         (last : option Blockly.Input.t),
    Forall (fun r => Row.type r = "input row") done ->
    Row.type row = "input row" ->
    exists done' row' last',
      fold_left (RenderInfo.createRows_input this) inputs
        (refs ++ map ROwn done, row, last)
      = (refs ++ map ROwn done', row', last') /\
      Forall (fun r => Row.type r = "input row") done' /\
      Row.type row' = "input row" /\
      flat_map Row.elements done' ++ Row.elements row'
      = flat_map Row.elements done ++ Row.elements row
        ++ flat_map (inputMeasurables this)
             (filter Blockly.Input.isVisible inputs).
Proof.
  induction inputs as [|input inputs IH]; intros done refs row last Hdone Hrow.
  - exists done, row, last. cbn. now rewrite app_nil_r.
  - cbn [fold_left filter]. unfold RenderInfo.createRows_input at 2.
    destruct (Blockly.Input.isVisible input); cbn [negb].
    2:{ now apply IH. }
    set (start := RenderInfo.shouldStartNewRow_ this input last).
    destruct start.
    + rewrite <- app_assoc. change [ROwn row] with (map ROwn [row]).
      rewrite <- map_app.
      destruct (IH (done ++ [row]) refs
                  (RenderInfo.addInput_ this input
                     (RenderInfo.pushFields this input
                        blockRendering.InputRow))
                  (Some input)) as (done' & row' & last' & -> & H1 & H2 & H3).
      * apply Forall_app. split; [exact Hdone|]. now constructor.
      * now rewrite (proj2 (addInput_elements _ _ _)), pushFields_elements.
      * exists done', row', last'. split; [reflexivity|].
        split; [exact H1|]. split; [exact H2|]. rewrite H3.
        rewrite (proj1 (addInput_elements _ _ _)), pushFields_elements.
        cbn [flat_map Row.elements Row.setElements blockRendering.InputRow
               blockRendering.newRow app].
        rewrite flat_map_app. cbn [flat_map]. unfold inputMeasurables.
        now rewrite !app_nil_r, <- !app_assoc.
    + destruct (IH done refs
                  (RenderInfo.addInput_ this input
                     (RenderInfo.pushFields this input row))
                  (Some input)) as (done' & row' & last' & -> & H1 & H2 & H3).
      * exact Hdone.
      * now rewrite (proj2 (addInput_elements _ _ _)), pushFields_elements.
      * exists done', row', last'. split; [reflexivity|].
        split; [exact H1|]. split; [exact H2|]. rewrite H3.
        rewrite (proj1 (addInput_elements _ _ _)), pushFields_elements.
        cbn [flat_map Row.elements Row.setElements]. unfold inputMeasurables.
        now rewrite <- !app_assoc.
Qed.

(** createRows_ loses, repeats and reorders nothing. It adds to [rows] the
    top row, input rows that only [rows] holds, and the bottom row; read
    row after row, the input rows hold the Measurables of the block in its
    order: the icons that are not hidden, then for every visible input its
    fields and the Measurable of the input, then the jagged edge of a
    collapsed block. The icons that a collapsed block hides are added to
    [hiddenIcons], and an invisible input leaves nothing. *)
Theorem createRows_keeps_every_element :
  forall this : RenderInfo.t,
    let this' := RenderInfo.createRows_ this in
    exists inputRows : list Row.t,
      RenderInfo.rows this'
      = RenderInfo.rows this ++ [RTop] ++ map ROwn inputRows ++ [RBottom] /\
      Forall (fun r => Row.type r = "input row") inputRows /\
      flat_map Row.elements inputRows = blockMeasurables this /\
      RenderInfo.hiddenIcons this'
      = RenderInfo.hiddenIcons this
        ++ iconMeasurables this
             (filter (isHiddenIcon this)
                (Blockly.Block.getIcons (RenderInfo.block_ this))).
Proof.
  intros this this'. subst this'. unfold RenderInfo.createRows_.
  rewrite createRows_icons_elements.
  destruct (createRows_inputs_elements this
              (Blockly.Block.inputList (RenderInfo.block_ this)) []
              (RenderInfo.rows this ++ [RTop])
              (Row.setElements
                 (Row.elements blockRendering.InputRow
                  ++ iconMeasurables this
                       (filter (fun icon => negb (isHiddenIcon this icon))
                          (Blockly.Block.getIcons (RenderInfo.block_ this))))
                 blockRendering.InputRow)
              None (Forall_nil _) eq_refl)
    as (done & row & last & Hfold & Hdone & Hrow & Hels).
  cbn [map] in Hfold. rewrite app_nil_r in Hfold. rewrite Hfold.
  cbn [flat_map Row.elements Row.setElements blockRendering.InputRow
         blockRendering.newRow app] in Hels.
  set (row2 := if RenderInfo.isCollapsed this then _ else row).
  assert (Hrow2 : Row.type row2 = "input row" /\
                  Row.elements row2
                  = Row.elements row
                    ++ (if RenderInfo.isCollapsed this
                        then [blockRendering.JaggedEdge
                                (RenderInfo.constants_ this)]
                        else [])).
  { subst row2. destruct (RenderInfo.isCollapsed this);
      [split; [exact Hrow|reflexivity]|].
    split; [exact Hrow|now rewrite app_nil_r]. }
  destruct Hrow2 as [Hty2 Hels2].
  assert (Hall : flat_map Row.elements done ++ Row.elements row2
                 = blockMeasurables this).
  { rewrite Hels2, app_assoc, Hels. unfold blockMeasurables.
    now rewrite <- app_assoc. }
  cbn [RenderInfo.rows RenderInfo.hiddenIcons RenderInfo.setHiddenIcons
         RenderInfo.setRows].
  destruct (Row.elements row2) as [|e els] eqn:Hrow2.
  - exists done. rewrite <- !app_assoc. split; [reflexivity|].
    split; [exact Hdone|]. split; [|reflexivity].
    now rewrite app_nil_r in Hall.
  - exists (done ++ [row2]). rewrite map_app, <- !app_assoc.
    split; [reflexivity|].
    split; [apply Forall_app; split; [exact Hdone|now constructor]|].
    split; [|reflexivity].
    rewrite flat_map_app. cbn [flat_map]. now rewrite app_nil_r, Hrow2.
Qed.

Section InputRows.

(** A property that the new input row has and that every step of
    createRows_ on the active row keeps. *)
Variable this : RenderInfo.t.
Variable P : Row.t -> Prop.
Hypothesis P_new : P blockRendering.InputRow.
Hypothesis P_icon :
  forall row icon,
    P row ->
    P (Row.push (blockRendering.Icon (RenderInfo.constants_ this) icon) row).
Hypothesis P_field :
  forall row field input,
    P row ->
    P (Row.push (blockRendering.Field (RenderInfo.constants_ this) field input)
         row).
Hypothesis P_input :
  forall row input, P row -> P (RenderInfo.addInput_ this input row).
Hypothesis P_jagged :
  forall row,
    P row ->
    P (Row.push (blockRendering.JaggedEdge (RenderInfo.constants_ this))
         (Row.setHasJaggedEdge true row)).

Lemma createRows_icons_satisfy (icons : list Blockly.Icon.t) :
  forall st : list Measurable.t * Row.t,
    P (snd st) ->
    P (snd (fold_left (RenderInfo.createRows_icon this) icons st)).
Proof.
  induction icons as [|icon icons IH]; intros [hidden row] Hrow;
    [exact Hrow|].
  cbn [fold_left]. apply IH. unfold RenderInfo.createRows_icon.
  destruct (RenderInfo.isCollapsed this && Blockly.Icon.collapseHidden icon);
    [exact Hrow|].
  now apply P_icon.
Qed.

Lemma pushFields_satisfy (input : Blockly.Input.t) (row : Row.t) :
  P row -> P (RenderInfo.pushFields this input row).
Proof.
  unfold RenderInfo.pushFields.
  generalize (Blockly.Input.fieldRow input) as fields.
  intros fields. revert row.
  induction fields as [|field fields IH]; intros row Hrow; [exact Hrow|].
  cbn [fold_left]. apply IH. now apply P_field.
Qed.

Lemma createRows_inputs_satisfy (inputs : list Blockly.Input.t) :
  forall (done : list Row.t) (refs : list RowRef) (row : Row.t)
         (last : option Blockly.Input.t),
    Forall P done -> P row ->
    exists done' row' last',
      fold_left (RenderInfo.createRows_input this) inputs
        (refs ++ map ROwn done, row, last)
      = (refs ++ map ROwn done', row', last') /\
      Forall P done' /\ P row'.
Proof.
  induction inputs as [|input inputs IH]; intros done refs row last Hdone Hrow.
  - now exists done, row, last.
  - cbn [fold_left]. unfold RenderInfo.createRows_input at 2.
    destruct (Blockly.Input.isVisible input); cbn [negb]; [|now apply IH].
    destruct (RenderInfo.shouldStartNewRow_ this input last).
    + rewrite <- app_assoc. change [ROwn row] with (map ROwn [row]).
      rewrite <- map_app. apply IH.
      * apply Forall_app. split; [exact Hdone|]. now constructor.
      * now apply P_input, pushFields_satisfy.
    + apply IH; [exact Hdone|]. now apply P_input, pushFields_satisfy.
Qed.

(** Every input row that createRows_ adds satisfies [P]. *)
Lemma createRows_input_rows_satisfy :
  exists inputRows : list Row.t,
    RenderInfo.rows (RenderInfo.createRows_ this)
    = RenderInfo.rows this ++ [RTop] ++ map ROwn inputRows ++ [RBottom] /\
    Forall P inputRows.
Proof.
  unfold RenderInfo.createRows_.
  pose proof (createRows_icons_satisfy
                (Blockly.Block.getIcons (RenderInfo.block_ this))
                (RenderInfo.hiddenIcons this, blockRendering.InputRow) P_new)
    as Hicons.
  destruct (fold_left (RenderInfo.createRows_icon this) _ _)
    as [hidden row0].
  cbn [snd] in Hicons.
  destruct (createRows_inputs_satisfy
              (Blockly.Block.inputList (RenderInfo.block_ this)) []
              (RenderInfo.rows this ++ [RTop]) row0 None (Forall_nil _) Hicons)
    as (done & row & last & Hfold & Hdone & Hrow).
  cbn [map] in Hfold. rewrite app_nil_r in Hfold. rewrite Hfold.
  set (row2 := if RenderInfo.isCollapsed this then _ else row).
  assert (Hrow2 : P row2).
  { subst row2. destruct (RenderInfo.isCollapsed this); [|exact Hrow].
    now apply P_jagged. }
  cbn [RenderInfo.rows RenderInfo.setHiddenIcons RenderInfo.setRows].
  destruct (Row.elements row2).
  - exists done. rewrite <- !app_assoc. now split.
  - exists (done ++ [row2]). rewrite map_app, <- !app_assoc.
    split; [reflexivity|].
    apply Forall_app. split; [exact Hdone|]. now constructor.
Qed.

End InputRows.

Lemma flagsMatchElements_push (row : Row.t) (e : Measurable.t) :
  flagsMatchElements row ->
  Measurable.isStatementInput e = false ->
  Measurable.isInlineInput e = false ->
  Measurable.isExternalInput e = false ->
  Measurable.isJaggedEdge e = false ->
  flagsMatchElements (Row.push e row).
Proof.
  unfold flagsMatchElements. intros (H1 & H2 & H3 & H4) E1 E2 E3 E4.
  unfold Row.push. cbn [Row.elements Row.setElements Row.hasStatement
                          Row.hasInlineInput Row.hasExternalInput
                          Row.hasJaggedEdge].
  rewrite !existsb_app. cbn [existsb]. rewrite E1, E2, E3, E4, H1, H2, H3, H4.
  now rewrite !orb_false_r.
Qed.

(** createRows_ keeps the flags of the input rows in step with their
    Measurables: an input row that it adds has [hasStatement] set exactly
    when it holds a statement input, [hasInlineInput] exactly when it holds
    an inline input, [hasExternalInput] exactly when it holds an external
    value input, and [hasJaggedEdge] exactly when it holds the jagged
    edge; so the later passes, which read the flags, find the input they
    look for. *)
Theorem createRows_flags_match_elements :
  forall this : RenderInfo.t,
  exists inputRows : list Row.t,
    RenderInfo.rows (RenderInfo.createRows_ this)
    = RenderInfo.rows this ++ [RTop] ++ map ROwn inputRows ++ [RBottom] /\
    Forall flagsMatchElements inputRows /\
    Forall (fun row =>
              Row.hasStatement row = true ->
              exists statementInput,
                Row.getLastInput row = Some statementInput)
      inputRows.
Proof.
  intros this.
  destruct (createRows_input_rows_satisfy this
              (fun row => flagsMatchElements row /\ statementHasInput row))
    as (inputRows & Hrows & Hall).
  - split; [now repeat split|]. intros H. discriminate.
  - intros row icon [H1 H2]. split.
    + now apply flagsMatchElements_push.
    + now apply push_statementHasInput.
  - intros row field input [H1 H2]. split.
    + now apply flagsMatchElements_push.
    + now apply push_statementHasInput.
  - intros row input [H1 H2]. split.
    + unfold RenderInfo.addInput_.
      repeat match goal with
             | |- flagsMatchElements (if ?c then _ else _) => destruct c
             end;
        try exact H1;
        destruct H1 as (F1 & F2 & F3 & F4);
        unfold flagsMatchElements, Row.push;
        cbn [Row.elements Row.setElements Row.hasStatement
               Row.hasInlineInput Row.hasExternalInput Row.hasJaggedEdge
               Row.setHasInlineInput Row.setHasStatement
               Row.setHasExternalInput Row.setHasDummyInput];
        rewrite ?existsb_app; cbn [existsb];
        rewrite <- ?F1, <- ?F2, <- ?F3, <- ?F4;
        cbn; rewrite ?orb_false_r, ?orb_true_r; repeat split; reflexivity.
    + unfold RenderInfo.addInput_.
      repeat match goal with
             | |- statementHasInput (if ?c then _ else _) => destruct c
             end; try exact H2.
      * unfold statementHasInput in *.
        cbn [Row.hasStatement Row.setHasInlineInput]. intros Hs.
        unfold Row.getLastInput, Row.push.
        cbn [Row.elements Row.setElements Row.setHasInlineInput].
        now rewrite findLast_app_last.
      * unfold statementHasInput. intros _.
        unfold Row.getLastInput, Row.push.
        cbn [Row.elements Row.setElements Row.setHasStatement].
        now rewrite findLast_app_last.
      * unfold statementHasInput in *.
        cbn [Row.hasStatement Row.setHasExternalInput]. intros Hs.
        unfold Row.getLastInput, Row.push.
        cbn [Row.elements Row.setElements Row.setHasExternalInput].
        now rewrite findLast_app_last.
  - intros row [H1 H2]. split.
    + destruct H1 as (F1 & F2 & F3 & F4).
      unfold flagsMatchElements, Row.push.
      cbn [Row.elements Row.setElements Row.hasStatement
             Row.hasInlineInput Row.hasExternalInput Row.hasJaggedEdge
             Row.setHasJaggedEdge].
      rewrite !existsb_app. cbn [existsb].
      rewrite <- F1, <- F2, <- F3.
      cbn. rewrite ?orb_false_r, ?orb_true_r. repeat split; reflexivity.
    + apply push_statementHasInput. exact H2.
  - exists inputRows. split; [exact Hrows|]. split.
    + eapply Forall_impl; [|exact Hall]. now intros row [H _].
    + eapply Forall_impl; [|exact Hall]. intros row [_ H] Hs.
      unfold statementHasInput in H. specialize (H Hs).
      destruct (Row.getLastInput row) as [si|]; [now exists si|easy].
Qed.

(** *** addElemSpacing_ *)

Lemma spaceElems_spacer (this : RenderInfo.t) (els : list Measurable.t) :
  forall i e,
    nth_error els i = Some e ->
    nth_error (RenderInfo.spaceElems this els) (2 * i + 1)
    = Some (blockRendering.InRowSpacer (RenderInfo.constants_ this)
              (RenderInfo.getInRowSpacing_ this (Some e)
                 (nth_error els (S i)))).
Proof.
  induction els as [|e0 els IH]; intros i e Hi; [now destruct i|].
  destruct i as [|i].
  - cbn in Hi. injection Hi as <-. cbn. now destruct els.
  - cbn [nth_error] in Hi. cbn [RenderInfo.spaceElems].
    replace (2 * S i + 1)%nat with (S (S (2 * i + 1))) by lia.
    cbn [nth_error]. now apply IH.
Qed.

(** In a row that the loop body of addElemSpacing_ leaves, every spacer
    but the one after the last element is MEDIUM_PADDING wide, whatever
    stands next to it: the spacer before the first element and every spacer
    between two elements. Only the spacer after the last element depends
    on that element: its width is NO_PADDING, MEDIUM_PADDING or
    LARGE_PADDING, and MEDIUM_PADDING whenever the element is not an
    input. *)
Theorem inner_spacers_are_medium :
  forall (this : RenderInfo.t) (row : Row.t),
    let row' := RenderInfo.addElemSpacing_row this row in
    let c := RenderInfo.constants_ this in
    (isTopOrBottom row = false ->
     exists sp,
       hd_error (Row.elements row') = Some sp /\
       Measurable.width sp = ConstantProvider.MEDIUM_PADDING c) /\
    (forall i e next,
        nth_error (Row.elements row) i = Some e ->
        nth_error (Row.elements row) (S i) = Some next ->
        exists sp,
          nth_error (Row.elements row') (leadingSpacers row + 2 * i + 1)
          = Some sp /\
          Measurable.width sp = ConstantProvider.MEDIUM_PADDING c) /\
    (forall i e,
        nth_error (Row.elements row) i = Some e ->
        nth_error (Row.elements row) (S i) = None ->
        exists sp,
          nth_error (Row.elements row') (leadingSpacers row + 2 * i + 1)
          = Some sp /\
          Measurable.width sp
          = RenderInfo.getInRowSpacing_ this (Some e) None /\
          (Measurable.width sp = ConstantProvider.NO_PADDING c \/
           Measurable.width sp = ConstantProvider.MEDIUM_PADDING c \/
           Measurable.width sp = ConstantProvider.LARGE_PADDING c) /\
          (Measurable.isInput e = false ->
           Measurable.width sp = ConstantProvider.MEDIUM_PADDING c)).
Proof.
  intros this row row' c. subst row' c.
  rewrite addElemSpacing_row_elements. unfold leadingSpacers.
  assert (Hnth : forall i e,
             nth_error (Row.elements row) i = Some e ->
             nth_error
               ((if isTopOrBottom row then []
                 else [blockRendering.InRowSpacer (RenderInfo.constants_ this)
                         (RenderInfo.getInRowSpacing_ this None
                            (hd_error (Row.elements row)))])
                ++ RenderInfo.spaceElems this (Row.elements row))
               ((if isTopOrBottom row then 0 else 1) + 2 * i + 1)
             = Some (blockRendering.InRowSpacer (RenderInfo.constants_ this)
                       (RenderInfo.getInRowSpacing_ this (Some e)
                          (nth_error (Row.elements row) (S i))))).
  { intros i e Hi. rewrite <- (spaceElems_spacer this _ i e Hi).
    destruct (isTopOrBottom row); cbn [app]; [reflexivity|].
    replace (1 + 2 * i + 1)%nat with (S (2 * i + 1)) by lia. reflexivity. }
  split; [|split].
  - intros ->. eexists. split; [reflexivity|]. reflexivity.
  - intros i e next Hi Hn. eexists. split; [exact (Hnth i e Hi)|].
    rewrite Hn. reflexivity.
  - intros i e Hi Hn. eexists. split; [exact (Hnth i e Hi)|].
    rewrite Hn. split; [reflexivity|].
    cbn [Measurable.width blockRendering.InRowSpacer blockRendering.make].
    unfold RenderInfo.getInRowSpacing_.
    destruct (Measurable.isInput e).
    + split; [|discriminate].
      destruct (Measurable.isExternalInput e); [now left|].
      destruct (Measurable.isInlineInput e); [now right; right|].
      destruct (Measurable.isStatementInput e); [now left|now right; left].
    + split; [now right; left|reflexivity].
Qed.

(** *** computeBounds_ *)

Lemma computeBounds_row_tight (s w c s' w' c' : Z) (row row' : Row.t) :
  RenderInfo.computeBounds_row (s, w, c) row = Normal (s', w', c', row') ->
  (w' = w \/ Row.width row' = w') /\
  (s' = s \/
   Row.hasStatement row' = true /\
   Row.width row' - statementInputWidth row' = s') /\
  c <= c'.
Proof.
  unfold RenderInfo.computeBounds_row, statementInputWidth.
  destruct (Row.hasStatement (Row.measure row)) eqn:Hs.
  - destruct (Row.getLastInput (Row.measure row)) as [si|] eqn:Hi;
      cbn [bind]; [|discriminate].
    intros H. injection H as <- <- <- <-. rewrite Hs, Hi.
    cbn [Row.width Row.measure Row.setSize].
    split; [lia|]. split; [|lia].
    destruct (Z.max_spec s
                (Row.sumWidths (Row.elements row) - Measurable.width si))
      as [[_ ->]|[_ ->]]; [right|left]; auto.
  - cbn [bind]. intros H. injection H as <- <- <- <-.
    cbn [Row.width Row.measure Row.setSize].
    split; [lia|]. split; [now left|lia].
Qed.

Lemma computeBounds_rows_tight (l : list Row.t) :
  forall s w c l' s' w' c',
    mapAccumThrowing RenderInfo.computeBounds_row l (s, w, c)
    = Normal (l', (s', w', c')) ->
    (w' = w \/ Exists (fun R => Row.width R = w') l') /\
    (s' = s \/
     Exists (fun R =>
               Row.hasStatement R = true /\
               Row.width R - statementInputWidth R = s') l') /\
    c <= c'.
Proof.
  induction l as [|row l IH]; intros s w c l' s' w' c' Hrun;
    cbn [mapAccumThrowing] in Hrun.
  - injection Hrun as <- <- <- <-. split; [now left|]. split; [now left|lia].
  - destruct (RenderInfo.computeBounds_row (s, w, c) row)
      as [[[[s1 w1] c1] row1]|e] eqn:Hbody; cbn [bind] in Hrun;
      [|discriminate].
    destruct (mapAccumThrowing RenderInfo.computeBounds_row l (s1, w1, c1))
      as [[rest [[s2 w2] c2]]|e] eqn:Hrest; cbn [bind] in Hrun;
      [|discriminate].
    injection Hrun as <- <- <- <-.
    destruct (computeBounds_row_tight _ _ _ _ _ _ _ _ Hbody)
      as (Hw & Hs & Hc).
    destruct (IH _ _ _ _ _ _ _ Hrest) as (Hw' & Hs' & Hc').
    split; [|split; [|lia]].
    + destruct Hw' as [->|Hw']; [|right; now constructor 2].
      destruct Hw as [->|Hw]; [now left|right; now constructor].
    + destruct Hs' as [->|Hs']; [|right; now constructor 2].
      destruct Hs as [->|Hs]; [now left|right; now constructor].
Qed.

(** What computeBounds_ finds, for rows that are distinct objects. The
    width of the block is [blockWidth], the width of its widest row (0
    when no row is wider than 0), or [blockWidth] plus the width of the
    output connection when there is one. [statementEdge] is the largest
    value, over the rows that have a statement, of the width of the row
    less the width of its last input (0 when no row has a statement), and
    every such row records it; the last input need not be the statement
    input: an inline input that follows it in the row is taken instead.
    The width with children is no less than the width; and [startX]
    becomes the width of the output connection, or stays as it is when
    there is none. *)
Theorem computeBounds_finds_the_widest_row :
  forall this this' : RenderInfo.t,
    aliasFree (RenderInfo.rows this) = true ->
    RenderInfo.computeBounds_ this = Normal this' ->
    exists blockWidth : Z,
    let statementEdge := RenderInfo.statementEdge this' in
    let rows := RenderInfo.rowList this' in
    RenderInfo.width this'
    = match RenderInfo.outputConnection this with
      | Some oc => blockWidth + Measurable.width oc
      | None => blockWidth
      end /\
    0 <= blockWidth /\
    Forall (fun R => Row.width R <= blockWidth) rows /\
    (blockWidth = 0 \/ Exists (fun R => Row.width R = blockWidth) rows) /\
    0 <= statementEdge /\
    Forall (fun R =>
              Row.hasStatement R = true ->
              Row.width R - statementInputWidth R <= statementEdge /\
              Row.statementEdge R = statementEdge)
      rows /\
    (statementEdge = 0 \/
     Exists (fun R =>
               Row.hasStatement R = true /\
               Row.width R - statementInputWidth R = statementEdge)
       rows) /\
    RenderInfo.width this' <= RenderInfo.widthWithChildren this' /\
    RenderInfo.startX this'
    = match RenderInfo.outputConnection this with
      | Some oc => Measurable.width oc
      | None => RenderInfo.startX this
      end.
Proof.
  intros this this' Hfree Hrun. revert Hrun.
  unfold RenderInfo.computeBounds_.
  destruct (RenderInfo.eachRowThrowing RenderInfo.computeBounds_row
              (0, 0, 0) this) as [[this1 [[s w] c]]|e] eqn:Hloop;
    cbn [bind]; [|discriminate].
  pose proof (eachRowThrowing_values _ _ _ _ _ Hfree Hloop) as Hvalues.
  destruct (computeBounds_rows_bounds _ _ _ _ _ _ _ _ Hvalues)
    as (Hs0 & Hw0 & Hrows).
  destruct (computeBounds_rows_tight _ _ _ _ _ _ _ _ Hvalues)
    as (Hw & Hs & Hc).
  pose proof (eachRowThrowing_aliasFree _ _ _ _ _ Hloop) as Hfree1.
  rewrite Hfree in Hfree1.
  destruct (eachRowThrowing_fields _ _ _ _ _ Hloop) as (rs & t & b & Heq1).
  match goal with
  | |- context [RenderInfo.eachRow ?body tt ?x] =>
      pose proof (eachRow_values body tt x Hfree1) as Hvalues2;
      destruct (eachRow_fields body tt x) as (rs2 & t2 & b2 & Heq2);
      destruct (RenderInfo.eachRow body tt x) as [this2 []]
  end.
  rewrite mapAccum_map in Hvalues2. cbn [fst snd] in Hvalues2, Heq2.
  injection Hvalues2 as Hvalues2.
  cbn [RenderInfo.statementEdge RenderInfo.setWidth
         RenderInfo.setStatementEdge] in Hvalues2.
  change (RenderInfo.rowList
            (RenderInfo.setWidth w (RenderInfo.setStatementEdge s this1)))
    with (RenderInfo.rowList this1) in Hvalues2.
  set (mark := fun row : Row.t =>
                 if Row.hasStatement row then Row.setStatementEdge s row
                 else row) in *.
  assert (Hmark : forall r,
             Row.width (mark r) = Row.width r /\
             Row.hasStatement (mark r) = Row.hasStatement r /\
             statementInputWidth (mark r) = statementInputWidth r /\
             (Row.hasStatement r = true -> Row.statementEdge (mark r) = s)).
  { intros r. subst mark. cbn beta. unfold statementInputWidth.
    destruct (Row.hasStatement r) eqn:Hr; cbn; rewrite ?Hr; auto.
    repeat split; auto. discriminate. }
  cbn [fst]. intros H. injection H as H.
  assert (Hthis' :
            RenderInfo.rowList this' = map mark (RenderInfo.rowList this1) /\
            RenderInfo.statementEdge this' = s /\
            RenderInfo.width this'
            = match RenderInfo.outputConnection this with
              | Some oc => w + Measurable.width oc
              | None => w
              end /\
            RenderInfo.width this' <= RenderInfo.widthWithChildren this' /\
            RenderInfo.startX this'
            = match RenderInfo.outputConnection this with
              | Some oc => Measurable.width oc
              | None => RenderInfo.startX this
              end).
  { rewrite <- Hvalues2. clear Hvalues2. subst this2 this1.
    cbn [RenderInfo.outputConnection RenderInfo.setRows RenderInfo.setWidth
           RenderInfo.setStatementEdge RenderInfo.setWidthWithChildren] in H.
    destruct (RenderInfo.outputConnection this); subst this'; cbn;
      repeat split; try reflexivity; lia. }
  destruct Hthis' as (E1 & E2 & E3 & E4 & E5).
  exists w. cbv zeta. rewrite E1, E2.
  split; [exact E3|]. split; [lia|].
  split; [|split; [|split; [lia|split; [|split; [|split]]]]].
  - apply Forall_map. revert Hrows. apply Forall_impl. intros r [Hr _].
    now rewrite (proj1 (Hmark r)).
  - destruct Hw as [->|Hw]; [now left|right].
    apply Exists_exists in Hw. destruct Hw as (r & Hin & Hr).
    apply Exists_exists. exists (mark r). split; [now apply in_map|].
    now rewrite (proj1 (Hmark r)).
  - apply Forall_map. revert Hrows. apply Forall_impl. intros r [_ Hr].
    destruct (Hmark r) as (M1 & M2 & M3 & M4). rewrite M1, M2, M3.
    intros Hst. split; [now apply Hr|now apply M4].
  - destruct Hs as [->|Hs]; [now left|right].
    apply Exists_exists in Hs. destruct Hs as (r & Hin & Hr1 & Hr2).
    apply Exists_exists. exists (mark r). split; [now apply in_map|].
    destruct (Hmark r) as (M1 & M2 & M3 & M4). now rewrite M1, M2, M3.
  - exact E4.
  - exact E5.
Qed.

Lemma computeBounds_finds_the_widest_row_witness :
  aliasFree (RenderInfo.rows spacedStatementRows) = true /\
  RenderInfo.computeBounds_ spacedStatementRows
  = Normal boundedStatementRows /\
  RenderInfo.width boundedStatementRows = 43 /\
  RenderInfo.statementEdge boundedStatementRows = 5 /\
  RenderInfo.startX boundedStatementRows = 8 /\
  Exists (fun R => Row.width R = 35)
    (RenderInfo.rowList boundedStatementRows).
Proof.
  split; [vm_compute; reflexivity|]. split; [vm_compute; reflexivity|].
  split; [vm_compute; reflexivity|]. split; [vm_compute; reflexivity|].
  split; [vm_compute; reflexivity|].
  destruct (computeBounds_finds_the_widest_row spacedStatementRows
              boundedStatementRows)
    as (blockWidth & Hwidth & _ & _ & Hwidest & _);
    [vm_compute; reflexivity|vm_compute; reflexivity|].
  assert (Hbw : blockWidth = 35).
  { assert (Hw : RenderInfo.width boundedStatementRows = 43)
      by (vm_compute; reflexivity).
    assert (Hoc : exists oc,
               RenderInfo.outputConnection spacedStatementRows = Some oc /\
               Measurable.width oc = 8)
      by (eexists; split; vm_compute; reflexivity).
    destruct Hoc as (oc & Hoc & Hocw).
    rewrite Hoc, Hocw, Hw in Hwidth. lia. }
  rewrite Hbw in Hwidest. destruct Hwidest as [H|H]; [discriminate H|exact H].
Defined.

(** *** finalize_ *)

Lemma placeElems_keeps (this : RenderInfo.t) (row : Row.t)
    (elems : list Measurable.t) :
  forall xCursor,
    Forall2 (fun e e' =>
               e' = Measurable.setPosition (Measurable.xPos e')
                      (inject_Z (Row.yPos row) + inject_Z (Row.height row) / 2)
                      e)
      elems (RenderInfo.placeElems this row xCursor elems).
Proof.
  induction elems as [|e elems IH]; intros xCursor; constructor.
  - reflexivity.
  - apply IH.
Qed.

Lemma finalize_rows_keep (this : RenderInfo.t) (l : list Row.t) :
  forall acc l' acc',
    mapAccum (RenderInfo.finalize_row this) l acc = (l', acc') ->
    Forall2 (fun R R' =>
               R' = Row.setElements (Row.elements R')
                      (Row.setPosition (Row.yPos R') (RenderInfo.startX this)
                         R) /\
               Forall2 (fun e e' =>
                          e' = Measurable.setPosition (Measurable.xPos e')
                                 (inject_Z (Row.yPos R')
                                  + inject_Z (Row.height R) / 2)
                                 e)
                 (Row.elements R) (Row.elements R'))
      l l'.
Proof.
  induction l as [|row l IH]; intros [widest yCursor] l' acc' Hrun;
    cbn [mapAccum] in Hrun.
  - injection Hrun as <- <-. constructor.
  - unfold RenderInfo.finalize_row at 1 in Hrun.
    destruct (mapAccum (RenderInfo.finalize_row this) l _)
      as [rest acc1] eqn:Hrest.
    injection Hrun as <- <-. constructor; [|now apply IH with (1 := Hrest)].
    cbn [Row.elements Row.setElements Row.yPos Row.xPos Row.height
           Row.setPosition].
    split; [reflexivity|].
    exact (placeElems_keeps this
             (Row.setPosition yCursor (RenderInfo.startX this) row) _ _).
Qed.

(** finalize_ only places: for rows that are distinct objects, every row
    keeps its type, size, flags and the number and order of its elements,
    and gets the [xPos] of the block's start; every element keeps its
    type, size and other fields and gets, with its [xPos], the centerline
    that lies at half the height of its row, [yPos + height / 2]. *)
Theorem finalize_centres_elements :
  forall this : RenderInfo.t,
    aliasFree (RenderInfo.rows this) = true ->
    Forall2 (fun R R' =>
               R' = Row.setElements (Row.elements R')
                      (Row.setPosition (Row.yPos R') (RenderInfo.startX this)
                         R) /\
               Forall2 (fun e e' =>
                          e' = Measurable.setPosition (Measurable.xPos e')
                                 (inject_Z (Row.yPos R')
                                  + inject_Z (Row.height R) / 2)
                                 e)
                 (Row.elements R) (Row.elements R'))
      (RenderInfo.rowList this)
      (RenderInfo.rowList (RenderInfo.finalize_ this)).
Proof.
  intros this Hfree.
  now apply finalize_rows_keep with (1 := finalize_values this Hfree).
Qed.

Lemma finalize_centres_elements_witness :
  aliasFree (RenderInfo.rows statementBlockRows) = true /\
  Forall2 (fun R R' =>
             Row.width R' = Row.width R /\ Row.height R' = Row.height R /\
             Row.type R' = Row.type R /\
             Forall2 (fun e e' =>
                        Measurable.width e' = Measurable.width e /\
                        Measurable.type e' = Measurable.type e /\
                        Measurable.centerline e'
                        = (inject_Z (Row.yPos R')
                           + inject_Z (Row.height R') / 2)%Q)
               (Row.elements R) (Row.elements R'))
    (RenderInfo.rowList statementBlockRows)
    (RenderInfo.rowList (RenderInfo.finalize_ statementBlockRows)).
Proof.
  split; [reflexivity|].
  pose proof (finalize_centres_elements statementBlockRows eq_refl) as H.
  eapply Forall2_impl; [|exact H].
  intros R R' [HR Hels]. rewrite HR.
  cbn [Row.width Row.height Row.type Row.elements Row.yPos Row.setElements
         Row.setPosition].
  repeat split. eapply Forall2_impl; [|exact Hels].
  intros e e' ->. repeat split.
Defined.

(** *** alignRowElements_ *)

Lemma alignRowElements_row_again (this : RenderInfo.t) (row row' : Row.t) :
  spacersAreNotInputs row ->
  RenderInfo.alignRowElements_row this row = Normal row' ->
  RenderInfo.alignRowElements_row this row' = Normal row' /\
  spacersAreNotInputs row'.
Proof.
  intros Hsp Hrun.
  destruct (alignRowElements_row_cases this row row' Hrun)
    as [[_ ->]|(Hinline & current & Hcur & [[_ ->]|[Hm ->]])]; auto.
  unfold RenderInfo.addAlignmentPadding_ in *.
  destruct (Row.getLastSpacer row) as [sp|] eqn:Hlast; auto.
  set (f := fun lastSpacer : Measurable.t => _) in *.
  assert (Hinput : Row.findLast Measurable.isInput
                     (Row.modifyLast Measurable.isSpacer f (Row.elements row))
                   = Row.findLast Measurable.isInput (Row.elements row)).
  { apply findLast_modifyLast; [exact Hsp|]. now intros e _ He. }
  split.
  - unfold RenderInfo.alignRowElements_row, Row.getLastInput.
    cbn [Row.hasInlineInput Row.hasStatement Row.elements Row.width
           Row.setWidth Row.setElements].
    rewrite Hinline, Hinput. cbn [negb].
    destruct (Row.hasStatement row) eqn:Hst.
    + destruct Hcur as (si & Hsi & ->). unfold Row.getLastInput in Hsi.
      rewrite Hsi. cbn [bind].
      match goal with
      | |- (if negb (?x =? 0) then _ else _) = _ =>
          replace x with 0 by (unfold desiredWidth; rewrite Hst; lia)
      end.
      reflexivity.
    + subst current. cbn [bind].
      match goal with
      | |- (if negb (?x =? 0) then _ else _) = _ =>
          replace x with 0 by (unfold desiredWidth; rewrite Hst; lia)
      end.
      reflexivity.
  - unfold spacersAreNotInputs in *.
    cbn [Row.elements Row.setWidth Row.setElements].
    clear - Hsp. induction (Row.elements row) as [|e l IH];
      cbn [Row.modifyLast]; [constructor|].
    inversion Hsp as [|? ? He Hl]; subst.
    destruct (Row.findLast Measurable.isSpacer l).
    + constructor; [exact He|now apply IH].
    + destruct (Measurable.isSpacer e) eqn:Hes; constructor; auto.
      intros H. congruence.
Qed.

Lemma forRows_fixed {A : Type} (body : A -> Row.t -> Completion (A * Row.t))
    (a : A) (top bottom : Row.t) (refs : list RowRef) :
  Forall (fun ref =>
            body a (deref top bottom ref) = Normal (a, deref top bottom ref))
    refs ->
  forRows body refs top bottom a = Normal (refs, top, bottom, a).
Proof.
  induction refs as [|ref refs IH]; intros Hall; [reflexivity|].
  inversion Hall as [|? ? Href Hrest]; subst.
  destruct ref as [| |r]; cbn [forRows deref] in *;
    rewrite Href; cbn [bind]; rewrite (IH Hrest); reflexivity.
Qed.

Lemma spacersAreNotInputsb_true (row : Row.t) :
  spacersAreNotInputsb row = true -> spacersAreNotInputs row.
Proof.
  unfold spacersAreNotInputsb, spacersAreNotInputs. intros H.
  apply Forall_forall. intros e He.
  rewrite forallb_forall in H. specialize (H e He). intros Hs.
  rewrite Hs in H. now destruct (Measurable.isInput e).
Qed.

(** On integer lengths alignRowElements_ is idempotent: on rows that are
    distinct objects and in which no spacer counts as an input, a second
    run right after the first finds no missing space and leaves the
    RenderInfo, every row and every spacer as the first run left them.
    (The first run leaves [width + (desiredWidth - currentWidth)]; with
    fractional lengths that sum may be rounded, and a second run of the
    source may then find a residue to add.) *)
Theorem alignment_is_idempotent :
  forall this this' : RenderInfo.t,
    aliasFree (RenderInfo.rows this) = true ->
    Forall spacersAreNotInputs (RenderInfo.rowList this) ->
    RenderInfo.alignRowElements_ this = Normal this' ->
    RenderInfo.alignRowElements_ this' = Normal this'.
Proof.
  intros this this' Hfree Hsp Hrun.
  pose proof (alignRowElements_values this this' Hfree Hrun) as Hrows.
  assert (Hfixed : Forall (fun row' =>
                             RenderInfo.alignRowElements_row this row'
                             = Normal row')
                     (RenderInfo.rowList this')).
  { clear - Hsp Hrows.
    induction Hrows as [|row row' l l' Hrow _ IH]; [constructor|].
    inversion Hsp; subst. constructor; [|now apply IH].
    now apply (alignRowElements_row_again this row row'). }
  unfold RenderInfo.alignRowElements_ in Hrun.
  match type of Hrun with
  | context [RenderInfo.eachRowThrowing ?body tt this] =>
      destruct (RenderInfo.eachRowThrowing body tt this)
        as [[this1 []]|e] eqn:Hloop; cbn [bind] in Hrun; [|discriminate]
  end.
  injection Hrun as ->.
  destruct (eachRowThrowing_fields _ _ _ _ _ Hloop) as (rs & t & b & ->).
  unfold RenderInfo.alignRowElements_, RenderInfo.eachRowThrowing.
  cbn [RenderInfo.rows RenderInfo.topRow RenderInfo.bottomRow
         RenderInfo.setRows].
  rewrite forRows_fixed.
  - cbn [bind]. reflexivity.
  - rewrite rowList_deref in Hfixed.
    cbn [RenderInfo.rows RenderInfo.topRow RenderInfo.bottomRow
           RenderInfo.setRows] in Hfixed.
    rewrite Forall_map in Hfixed. revert Hfixed. apply Forall_impl.
    intros ref Href.
    change (RenderInfo.alignRowElements_row
              (RenderInfo.setRows rs t b this) (deref t b ref))
      with (RenderInfo.alignRowElements_row this (deref t b ref)).
    now rewrite Href.
Qed.

Lemma alignment_is_idempotent_witness :
  aliasFree (RenderInfo.rows boundedStatementRows) = true /\
  Forall spacersAreNotInputs (RenderInfo.rowList boundedStatementRows) /\
  RenderInfo.alignRowElements_ boundedStatementRows
  = Normal alignedStatementRows /\
  alignedStatementRows <> boundedStatementRows /\
  RenderInfo.alignRowElements_ alignedStatementRows
  = Normal alignedStatementRows.
Proof.
  assert (Hsp : Forall spacersAreNotInputs
                  (RenderInfo.rowList boundedStatementRows)).
  { apply Forall_forall. intros row Hrow. apply spacersAreNotInputsb_true.
    assert (H : forallb spacersAreNotInputsb
                  (RenderInfo.rowList boundedStatementRows) = true)
      by (vm_compute; reflexivity).
    rewrite forallb_forall in H. now apply H. }
  split; [vm_compute; reflexivity|]. split; [exact Hsp|].
  split; [vm_compute; reflexivity|].
  split; [vm_compute; discriminate|].
  apply (alignment_is_idempotent boundedStatementRows alignedStatementRows);
    [vm_compute; reflexivity|exact Hsp|vm_compute; reflexivity].
Defined.

(** ** The shapes of the Zelos constant provider *)

(** The paths of the notch fit its declared size, whatever NOTCH_WIDTH and
    NOTCH_HEIGHT are (in exact arithmetic): the left path ends [width] to
    the right of its start and at the level of its start, the right path
    [width] to the left; after its first three commands the left path is
    at the bottom of the notch, a third of the width along and [height]
    down; and the pen positions along the right path are the mirror images
    of those along the left path. *)
Theorem notch_paths_fit_its_size :
  forall this : ZelosConstantProvider.t,
    let notch := ZelosConstantProvider.makeNotch this in
    let width := ZelosConstantProvider.notchWidth notch in
    let height := ZelosConstantProvider.notchHeight notch in
    let pathLeft := ZelosConstantProvider.notchPathLeft notch in
    let pathRight := ZelosConstantProvider.notchPathRight notch in
    width = ZelosConstantProvider.NOTCH_WIDTH this /\
    height = ZelosConstantProvider.NOTCH_HEIGHT this /\
    samePoint (penEnd pathLeft) (width, 0%Q) /\
    samePoint (penEnd pathRight) ((- width)%Q, 0%Q) /\
    samePoint (penEnd (firstn 3 pathLeft)) ((width / 3)%Q, height) /\
    Forall2 mirrorPoint (penTrace pathLeft) (penTrace pathRight).
Proof.
  intros this. cbv zeta.
  unfold ZelosConstantProvider.makeNotch, samePoint, mirrorPoint.
  cbn [ZelosConstantProvider.notchWidth ZelosConstantProvider.notchHeight
         ZelosConstantProvider.notchPathLeft
         ZelosConstantProvider.notchPathRight].
  split; [reflexivity|]. split; [reflexivity|].
  cbn [app firstn penEnd penTrace penTraceFrom fold_left penMove pointMove
         addPoints rev fst snd String.eqb Ascii.eqb Bool.eqb].
  unfold addPoints. cbn [fst snd].
  repeat split; try field.
  repeat (constructor; [split; cbn [fst snd]; field|]). constructor.
Qed.

(** The paths of the shapes that depend on the block's height [h] (the
    hexagon and the rounded shape) and of the triangle run over the whole
    height: a down path ends [h] below its start and an up path [h] above
    it, straight above or below. But [pathRightUp] is built with the
    arguments of [pathRightDown]: it is the same path and ends [h] below
    its start, not above. *)
Theorem right_up_path_goes_down :
  forall (this : ZelosConstantProvider.t) (h : Q),
    (forall shape,
        shape = ZelosConstantProvider.makeHexagonal this \/
        shape = ZelosConstantProvider.makeRounded this ->
        ZelosConstantProvider.isDynamic shape = true /\
        (ZelosConstantProvider.width shape h == h / 2)%Q /\
        ZelosConstantProvider.height shape h = h /\
        samePoint (penEnd (ZelosConstantProvider.pathDown shape h)) (0%Q, h) /\
        samePoint (penEnd (ZelosConstantProvider.pathUp shape h))
          (0%Q, (- h)%Q) /\
        samePoint (penEnd (ZelosConstantProvider.pathRightDown shape h))
          (0%Q, h) /\
        ZelosConstantProvider.pathRightUp shape h
        = ZelosConstantProvider.pathRightDown shape h /\
        samePoint (penEnd (ZelosConstantProvider.pathRightUp shape h))
          (0%Q, h)) /\
    (let triangle := ZelosConstantProvider.makeTriangle this in
     samePoint (penEnd (ZelosConstantProvider.trianglePathDown triangle))
       (0%Q, ZelosConstantProvider.triangleHeight triangle) /\
     samePoint (penEnd (ZelosConstantProvider.trianglePathUp triangle))
       (0%Q, (- ZelosConstantProvider.triangleHeight triangle)%Q)).
Proof.
  intros this h. split.
  - intros shape [-> | ->];
      unfold samePoint, penEnd, addPoints; cbn; repeat split; try field.
  - unfold samePoint, penEnd, addPoints; cbn; repeat split; try field;
      reflexivity.
Qed.

(** The four outside corners are quarter turns of the corner radius [r]:
    the top left corner, with the move that starts it, takes the pen [r]
    to the right at the same level, the top right arc [r] right and [r]
    down, the bottom right arc [r] left and [r] down, the bottom left arc
    [r] left and [r] up; the moves of the four arcs add up to nothing, so
    that an outline closes when its straight lines do. *)
Theorem outside_corners_turn_by_the_radius :
  forall this : ZelosConstantProvider.t,
    let corners := ZelosConstantProvider.makeOutsideCorners this in
    let r := ZelosConstantProvider.CORNER_RADIUS this in
    samePoint (penEnd (ZelosConstantProvider.topLeft corners)) (r, 0%Q) /\
    samePoint (penEnd (ZelosConstantProvider.topRight corners)) (r, r) /\
    samePoint (penEnd (ZelosConstantProvider.bottomRight corners))
      ((- r)%Q, r) /\
    samePoint (penEnd (ZelosConstantProvider.bottomLeft corners))
      ((- r)%Q, (- r)%Q) /\
    samePoint
      (penEnd (skipn 1 (ZelosConstantProvider.topLeft corners)
               ++ ZelosConstantProvider.topRight corners
               ++ ZelosConstantProvider.bottomRight corners
               ++ ZelosConstantProvider.bottomLeft corners))
      (0%Q, 0%Q).
Proof.
  intros this. cbv zeta.
  unfold samePoint, penEnd, addPoints; cbn; repeat split; field.
Qed.

(** ** The workspace search *)

Lemma filter_map_comm {A B : Type} (p : B -> bool) (f : A -> B)
    (l : list A) :
  filter p (map f l) = map f (filter (fun x => p (f x)) l).
Proof.
  induction l as [|x l IH]; [reflexivity|].
  cbn [map filter]. rewrite IH. now destruct (p (f x)).
Qed.

Lemma matchesFrom_filter (search : string) (blocks : list string) :
  forall i,
    Search.matchesFrom i blocks search
    = map (fun k => (i + k)%nat)
        (filter (fun k =>
                   match nth_error blocks k with
                   | Some blockStr => Search.searchBlock_ blockStr search
                   | None => false
                   end)
           (seq 0 (List.length blocks))).
Proof.
  induction blocks as [|blockStr blocks IH]; intros i; [reflexivity|].
  cbn [Search.matchesFrom List.length seq filter nth_error].
  rewrite <- seq_shift, filter_map_comm. cbn [nth_error]. rewrite IH.
  destruct (Search.searchBlock_ blockStr search); cbn [map];
    rewrite !map_map.
  - f_equal; [lia|]. apply map_ext. intros k. lia.
  - apply map_ext. intros k. lia.
Qed.

Lemma matchesFrom_none (search : string) (blocks : list string) :
  Forall (fun blockStr => Search.searchBlock_ blockStr search = false) blocks ->
  forall i, Search.matchesFrom i blocks search = [].
Proof.
  induction 1 as [|blockStr blocks Hb _ IH]; intros i; [reflexivity|].
  cbn [Search.matchesFrom]. rewrite Hb. apply IH.
Qed.

(** A search for a term that no block contains does not return: having
    found no result it goes on to highlight the first one and throws a
    TypeError. It leaves the search box with no results and no highlighted
    block, and the count span with the text of the search before. *)
Theorem search_without_match_throws :
  forall (this : Search.t) (term : string),
    term <> "" ->
    Forall (fun blockStr => Search.searchBlock_ blockStr term = false)
      (Search.workspace_ this) ->
    exists this',
      Search.search term this = (this', Throw TypeError) /\
      Search.searchResults_ this' = [] /\
      Search.highlightedBlock_ this' = None /\
      Search.highlightedIndex_ this' = Search.highlightedIndex_ this /\
      Search.countSpan_textContent this'
      = Search.countSpan_textContent this /\
      Search.setHighlightedCalls this'
      = Search.setHighlightedCalls this
        ++ match Search.highlightedBlock_ this with
           | Some highlighted => [(highlighted, false)]
           | None => []
           end.
Proof.
  intros this term Hterm Hnone. unfold Search.search.
  apply String.eqb_neq in Hterm. rewrite Hterm.
  destruct (Search.highlightedBlock_ this) as [highlighted|] eqn:Hh;
    cbn [Search.workspace_ Search.setHighlightedBlock Search.setHighlighted];
    rewrite (matchesFrom_none _ _ Hnone);
    unfold Search.higlightSearchIndex_;
    cbn [Search.highlightedBlock_ Search.setSearchResults
           Search.searchResults_ Search.at_];
    rewrite ?Hh; cbn; eexists; (split; [reflexivity|]); cbn;
    rewrite ?app_nil_r, ?Hh; repeat split; reflexivity.
Qed.

Lemma search_without_match_throws_witness :
  exists this',
    Search.search "while" sampleSearch = (this', Throw TypeError) /\
    Search.countSpan_textContent sampleSearch = Search.currentOfTotal 1 2 /\
    Search.countSpan_textContent this' = Search.currentOfTotal 1 2 /\
    Search.searchResults_ this' = [].
Proof.
  destruct (search_without_match_throws sampleSearch "while")
    as (this' & H1 & H2 & _ & _ & H3 & _).
  - discriminate.
  - repeat constructor.
  - exists this'. split; [exact H1|]. split; [reflexivity|].
    split; [exact H3|exact H2].
Defined.

(** A search for a term that some block contains returns the blocks that
    contain it, in the order of the workspace, keeps them as the results,
    takes the highlight off the block that had it and puts it on the first
    result, and shows '1 of n'. *)
Theorem search_highlights_first_match :
  forall (this : Search.t) (term : string) (first : Search.BlockRef)
         (rest : list Search.BlockRef),
    term <> "" ->
    filter (fun k =>
              match nth_error (Search.workspace_ this) k with
              | Some blockStr => indexOf blockStr term >? -1
              | None => false
              end)
      (seq 0 (List.length (Search.workspace_ this)))
    = first :: rest ->
    exists this',
      Search.search term this = (this', Normal (Some (first :: rest))) /\
      Search.searchResults_ this' = first :: rest /\
      Search.highlightedBlock_ this' = Some first /\
      Search.highlightedIndex_ this' = Some 0 /\
      Search.countSpan_textContent this'
      = Search.currentOfTotal 1 (Z.of_nat (S (List.length rest))) /\
      Search.setHighlightedCalls this'
      = Search.setHighlightedCalls this
        ++ match Search.highlightedBlock_ this with
           | Some highlighted => [(highlighted, false)]
           | None => []
           end
        ++ [(first, true)].
Proof.
  intros this term first rest Hterm Hmatches. unfold Search.search.
  apply String.eqb_neq in Hterm. rewrite Hterm.
  assert (Hres : Search.matchesFrom 0 (Search.workspace_ this) term
                 = first :: rest).
  { rewrite matchesFrom_filter. unfold Search.searchBlock_.
    rewrite Hmatches. cbn [map]. f_equal. now rewrite map_id. }
  destruct (Search.highlightedBlock_ this) as [highlighted|] eqn:Hh;
    cbn [Search.workspace_ Search.setHighlightedBlock Search.setHighlighted];
    rewrite Hres;
    unfold Search.higlightSearchIndex_;
    cbn [Search.highlightedBlock_ Search.setSearchResults
           Search.searchResults_ Search.at_];
    rewrite ?Hh; cbn [Z.ltb Z.compare Z.to_nat nth_error];
    eexists; (split; [reflexivity|]);
    cbn [Search.searchResults_ Search.highlightedBlock_
           Search.highlightedIndex_ Search.countSpan_textContent
           Search.setHighlightedCalls Search.setResultCount_
           Search.setHighlightedIndex Search.setHighlightedBlock
           Search.setHighlighted Search.setSearchResults List.length];
    rewrite <- ?app_assoc; repeat split; try reflexivity;
    destruct (Z.of_nat (S (List.length rest)) =? 0) eqn:Hz;
    try reflexivity; lia.
Qed.

Lemma search_highlights_first_match_witness :
  exists this',
    Search.search "repeat"
      (Search.new ["repeat 10 times"; "print hello"; "repeat forever"])
    = (this', Normal (Some [0%nat; 2%nat])) /\
    Search.highlightedBlock_ this' = Some 0%nat /\
    Search.countSpan_textContent this' = Search.currentOfTotal 1 2 /\
    Search.setHighlightedCalls this' = [(0%nat, true)].
Proof.
  destruct (search_highlights_first_match
              (Search.new ["repeat 10 times"; "print hello"; "repeat forever"])
              "repeat" 0%nat [2%nat])
    as (this' & H1 & _ & H2 & _ & H3 & H4).
  - discriminate.
  - reflexivity.
  - exists this'. split; [exact H1|]. split; [exact H2|].
    split; [exact H3|exact H4].
Defined.

Lemma highlightNext_index (this : Search.t) (i : Z) :
  let n := Z.of_nat (List.length (Search.searchResults_ this)) in
  Search.highlightedIndex_ this = Some i ->
  0 <= i < n ->
  exists this' block,
    Search.highlightNext_ this = (this', Normal tt) /\
    Search.searchResults_ this' = Search.searchResults_ this /\
    Search.workspace_ this' = Search.workspace_ this /\
    Search.highlightedIndex_ this' = Some ((i + 1) mod n) /\
    nth_error (Search.searchResults_ this) (Z.to_nat ((i + 1) mod n))
    = Some block /\
    Search.highlightedBlock_ this' = Some block /\
    Search.countSpan_textContent this'
    = Search.currentOfTotal ((i + 1) mod n + 1) n /\
    Search.setHighlightedCalls this'
    = Search.setHighlightedCalls this
      ++ match Search.highlightedBlock_ this with
         | Some highlighted => [(highlighted, false)]
         | None => []
         end
      ++ [(block, true)].
Proof.
  intros n Hindex Hi. unfold Search.highlightNext_. fold n.
  assert (Hn : (n =? 0) = false) by lia. rewrite Hn, Hindex. cbn [negb].
  rewrite Z.rem_mod_nonneg by lia.
  pose proof (Z.mod_pos_bound (i + 1) n ltac:(lia)) as Hbound.
  destruct (nth_error (Search.searchResults_ this)
              (Z.to_nat ((i + 1) mod n))) as [block|] eqn:Hblock.
  2:{ apply nth_error_None in Hblock. lia. }
  unfold Search.higlightSearchIndex_.
  assert (Hlt : ((i + 1) mod n <? 0) = false) by lia.
  destruct (Search.highlightedBlock_ this) as [highlighted|];
    cbn [Search.searchResults_ Search.setHighlighted Search.at_];
    rewrite Hlt, Hblock; do 2 eexists;
    (split; [reflexivity|]);
    cbn [Search.searchResults_ Search.workspace_ Search.highlightedBlock_
           Search.highlightedIndex_ Search.countSpan_textContent
           Search.setHighlightedCalls Search.setResultCount_
           Search.setHighlightedIndex Search.setHighlightedBlock
           Search.setHighlighted];
    fold n; rewrite Hn, <- ?app_assoc; repeat split; reflexivity.
Qed.

Lemma pressNext_index (k : nat) :
  forall (this : Search.t) (i : Z),
    let n := Z.of_nat (List.length (Search.searchResults_ this)) in
    Search.highlightedIndex_ this = Some i ->
    0 <= i < n ->
    Search.searchResults_ (pressNext k this) = Search.searchResults_ this /\
    Search.highlightedIndex_ (pressNext k this)
    = Some ((i + Z.of_nat k) mod n) /\
    (k <> 0%nat ->
     Search.highlightedBlock_ (pressNext k this)
     = nth_error (Search.searchResults_ this)
         (Z.to_nat ((i + Z.of_nat k) mod n))).
Proof.
  induction k as [|k IH]; intros this i n Hindex Hi.
  - cbn [pressNext]. rewrite Z.add_0_r, Z.mod_small by lia.
    split; [reflexivity|]. split; [exact Hindex|]. now intros H.
  - cbn [pressNext].
    destruct (highlightNext_index this i Hindex Hi)
      as (this' & block & -> & Hres & _ & Hindex' & Hblock & Hhb & _).
    cbn [fst]. fold n in Hindex', Hblock.
    pose proof (Z.mod_pos_bound (i + 1) n ltac:(lia)) as Hbound.
    destruct (IH this' ((i + 1) mod n)) as (IH1 & IH2 & IH3);
      [exact Hindex'|rewrite Hres; exact Hbound|].
    rewrite Hres in IH1, IH2, IH3. fold n in IH2, IH3.
    assert (Hmod : ((i + 1) mod n + Z.of_nat k) mod n
                   = (i + Z.of_nat (S k)) mod n).
    { rewrite Zplus_mod_idemp_l. f_equal. lia. }
    rewrite Hmod in IH2, IH3.
    split; [exact IH1|]. split; [exact IH2|]. intros _.
    destruct k as [|k]; [|now apply IH3].
    cbn [pressNext]. rewrite Hhb, <- Hblock. reflexivity.
Qed.

(** highlightNext_ goes round the results: from the result at position
    [i] of [n] it moves the highlight to the result at position
    [(i + 1) mod n], the first one after the last, and shows its position
    counted from one; [n] steps bring the highlight back to the result it
    was on. With no results it does nothing. *)
Theorem highlightNext_goes_round :
  forall (this : Search.t) (i : Z),
    let n := Z.of_nat (List.length (Search.searchResults_ this)) in
    (Search.searchResults_ this = [] ->
     Search.highlightNext_ this = (this, Normal tt)) /\
    (Search.highlightedIndex_ this = Some i ->
     0 <= i < n ->
     (exists this' block,
         Search.highlightNext_ this = (this', Normal tt) /\
         Search.highlightedIndex_ this' = Some ((i + 1) mod n) /\
         nth_error (Search.searchResults_ this) (Z.to_nat ((i + 1) mod n))
         = Some block /\
         Search.highlightedBlock_ this' = Some block /\
         Search.countSpan_textContent this'
         = Search.currentOfTotal ((i + 1) mod n + 1) n) /\
     Search.highlightedIndex_ (pressNext (Z.to_nat n) this) = Some i /\
     Search.highlightedBlock_ (pressNext (Z.to_nat n) this)
     = nth_error (Search.searchResults_ this) (Z.to_nat i)).
Proof.
  intros this i n. split.
  - intros Hnil. unfold Search.highlightNext_. now rewrite Hnil.
  - intros Hindex Hi. split.
    + destruct (highlightNext_index this i Hindex Hi)
        as (this' & block & H1 & _ & _ & H2 & H3 & H4 & H5 & _).
      now exists this', block.
    + destruct (pressNext_index (Z.to_nat n) this i Hindex Hi)
        as (_ & H1 & H2).
      fold n in H1, H2. rewrite Z2Nat.id in H1, H2 by lia.
      assert (Hmod : (i + n) mod n = i).
      { replace (i + n) with (i + 1 * n) by lia.
        rewrite Z_mod_plus_full. apply Z.mod_small. lia. }
      rewrite Hmod in H1, H2.
      split; [exact H1|]. apply H2. lia.
Qed.

Lemma highlightNext_goes_round_witness :
  Search.searchResults_ sampleSearch = [0%nat; 2%nat] /\
  Search.highlightedIndex_ sampleSearch = Some 0 /\
  Search.highlightedBlock_ (pressNext 1 sampleSearch) = Some 2%nat /\
  Search.highlightedIndex_ (pressNext 2 sampleSearch) = Some 0 /\
  Search.highlightedBlock_ (pressNext 2 sampleSearch) = Some 0%nat.
Proof.
  split; [reflexivity|]. split; [reflexivity|]. split; [reflexivity|].
  destruct (highlightNext_goes_round sampleSearch 0) as [_ H].
  destruct (H eq_refl ltac:(cbn; lia)) as (_ & H1 & H2).
  split; [exact H1|exact H2].
Defined.

Lemma highlightedBy_app (calls : list (Search.BlockRef * bool))
    (block : Search.BlockRef) (flag : bool) (b : Search.BlockRef) :
  highlightedBy (calls ++ [(block, flag)]) b
  = if Nat.eqb block b then flag else highlightedBy calls b.
Proof.
  unfold highlightedBy. rewrite fold_left_app. reflexivity.
Qed.

Lemma singleHighlight_off (this : Search.t) :
  singleHighlight this ->
  forall b,
    highlightedBy
      (Search.setHighlightedCalls this
       ++ match Search.highlightedBlock_ this with
          | Some highlighted => [(highlighted, false)]
          | None => []
          end) b = false.
Proof.
  intros Hinv b. specialize (Hinv b).
  destruct (Search.highlightedBlock_ this) as [highlighted|].
  - rewrite highlightedBy_app.
    destruct (Nat.eqb highlighted b) eqn:Hb; [reflexivity|].
    apply Nat.eqb_neq in Hb.
    destruct (highlightedBy _ b); [|reflexivity].
    destruct Hinv as [Hinv _]. specialize (Hinv eq_refl). congruence.
  - rewrite app_nil_r. destruct (highlightedBy _ b); [|reflexivity].
    destruct Hinv as [Hinv _]. now specialize (Hinv eq_refl).
Qed.

Ltac simplSearch :=
  cbn [fst Search.searchResults_ Search.workspace_ Search.highlightedBlock_
         Search.highlightedIndex_ Search.countSpan_textContent
         Search.setHighlightedCalls Search.setResultCount_
         Search.setHighlightedIndex Search.setHighlightedBlock
         Search.setHighlighted Search.setSearchResults].

(** The search never has two blocks highlighted. If the blocks it has
    highlighted are the block it records as highlighted and no other, as
    in a new search box, then the same holds after a search, whether it
    returns or throws, and after a highlightNext_ that returns. *)
Theorem search_keeps_a_single_highlight :
  (forall workspace, singleHighlight (Search.new workspace)) /\
  (forall this term,
      singleHighlight this ->
      singleHighlight (fst (Search.search term this))) /\
  (forall this this',
      singleHighlight this ->
      Search.highlightNext_ this = (this', Normal tt) ->
      singleHighlight this').
Proof.
  split; [|split].
  - intros workspace block. cbn. split; discriminate.
  - intros this term Hinv.
    pose proof (singleHighlight_off this Hinv) as Hoff.
    unfold Search.search.
    set (this1 := match Search.highlightedBlock_ this with
                  | Some highlighted => _
                  | None => this
                  end).
    assert (H1 : Search.highlightedBlock_ this1 = None /\
                 forall b,
                   highlightedBy (Search.setHighlightedCalls this1) b
                   = false).
    { subst this1. destruct (Search.highlightedBlock_ this) eqn:Hh.
      - split; [reflexivity|]. exact Hoff.
      - split; [exact Hh|]. intros b. specialize (Hoff b).
        now rewrite app_nil_r in Hoff. }
    destruct H1 as [Hnone Hcalls]. clearbody this1.
    destruct (String.eqb term "").
    + cbn [fst]. intros b. simplSearch. rewrite Hcalls, Hnone.
      split; discriminate.
    + unfold Search.higlightSearchIndex_.
      cbn [Search.highlightedBlock_ Search.setSearchResults
             Search.searchResults_].
      rewrite Hnone.
      destruct (Search.at_ _ (Some 0)) as [block|]; cbn [fst].
      * intros b. simplSearch. rewrite highlightedBy_app, Hcalls.
        destruct (Nat.eqb block b) eqn:Hb.
        -- apply Nat.eqb_eq in Hb. subst b. now split.
        -- apply Nat.eqb_neq in Hb. split; [discriminate|congruence].
      * intros b. simplSearch. rewrite Hcalls, Hnone. split; discriminate.
  - intros this this' Hinv Hrun.
    pose proof (singleHighlight_off this Hinv) as Hoff.
    unfold Search.highlightNext_ in Hrun.
    destruct (negb _).
    2:{ injection Hrun as <-. exact Hinv. }
    unfold Search.higlightSearchIndex_ in Hrun.
    set (this1 := match Search.highlightedBlock_ this with
                  | Some highlighted => _
                  | None => this
                  end) in Hrun.
    assert (H1 : forall b,
               highlightedBy (Search.setHighlightedCalls this1) b = false).
    { subst this1. intros b. specialize (Hoff b).
      destruct (Search.highlightedBlock_ this); [exact Hoff|].
      now rewrite app_nil_r in Hoff. }
    clearbody this1.
    destruct (Search.at_ _ _) as [block|]; [|discriminate].
    injection Hrun as <-. intros b. simplSearch. rewrite highlightedBy_app, H1.
    destruct (Nat.eqb block b) eqn:Hb.
    + apply Nat.eqb_eq in Hb. subst b. now split.
    + apply Nat.eqb_neq in Hb. split; [discriminate|congruence].
Qed.

(** ** The options of a dropdown field *)

Lemma validateOptions_tuple_cases (foundError : bool) (tuple : JS.Value) :
  (validOption tuple = true /\
   FieldDropdown.validateOptions_tuple foundError tuple = Normal foundError)
  \/
  (validOption tuple = false /\
   (FieldDropdown.validateOptions_tuple foundError tuple = Normal true \/
    FieldDropdown.validateOptions_tuple foundError tuple = Throw TypeError)).
Proof.
  unfold FieldDropdown.validateOptions_tuple, validOption.
  destruct (JS.isArray tuple); cbn [negb andb]; [|right; auto].
  destruct (JS.isString (JS.item tuple 1)); cbn [negb andb]; [|right; auto].
  destruct (JS.isString (JS.item tuple 0)); cbn [negb orb]; [left; auto|].
  unfold isImage, JS.get.
  destruct (JS.item tuple 0); cbn [bind JS.isString negb]; auto.
  destruct (JS.isString (JS.lookup props "src")); cbn [negb]; auto.
Qed.

Lemma validateOptions_loop_cases (tuples : list JS.Value) :
  forall foundError,
    (forallb validOption tuples = true /\
     FieldDropdown.validateOptions_loop foundError tuples = Normal foundError)
    \/
    (forallb validOption tuples = false /\
     (FieldDropdown.validateOptions_loop foundError tuples = Normal true \/
      FieldDropdown.validateOptions_loop foundError tuples
      = Throw TypeError)).
Proof.
  induction tuples as [|tuple tuples IH]; intros foundError;
    cbn [forallb FieldDropdown.validateOptions_loop]; [left; auto|].
  destruct (validateOptions_tuple_cases foundError tuple)
    as [[-> ->]|[-> [-> | ->]]]; cbn [bind andb]; auto.
  right. split; [reflexivity|].
  destruct (IH true) as [[_ ->]|[_ H]]; auto.
Qed.

(** validateOptions_ returns exactly for an array of options that are
    each an array with a string as second item (the value) and, as first
    item (the label), a string or an object with a string [src]; the empty
    array is among them. For anything else it throws: at once for what is
    not an array, at the first option with a string value whose label is
    [undefined] or [null], and else after it has looked at every option. *)
Theorem validateOptions_accepts_valid_options_only :
  forall options : JS.Value,
    (FieldDropdown.validateOptions_ options = Normal tt <->
     exists tuples,
       options = JS.array tuples /\ forallb validOption tuples = true) /\
    (JS.isArray options = false ->
     FieldDropdown.validateOptions_ options
     = Throw "FieldDropdown options must be an array.") /\
    (forall tuples,
        options = JS.array tuples ->
        forallb validOption tuples = false ->
        FieldDropdown.validateOptions_ options
        = Throw "Found invalid FieldDropdown options." \/
        FieldDropdown.validateOptions_ options = Throw TypeError) /\
    FieldDropdown.validateOptions_ (JS.array []) = Normal tt.
Proof.
  intros options. split; [|split; [|split]].
  - split.
    + destruct options; try discriminate. intros H. exists items.
      split; [reflexivity|]. unfold FieldDropdown.validateOptions_ in H.
      destruct (validateOptions_loop_cases items false)
        as [[Hv _]|[_ [Hl | Hl]]]; [exact Hv| |];
        rewrite Hl in H; discriminate.
    + intros (tuples & -> & Hv). unfold FieldDropdown.validateOptions_.
      destruct (validateOptions_loop_cases tuples false)
        as [[_ ->]|[Hv' _]]; [reflexivity|congruence].
  - now destruct options.
  - intros tuples -> Hv. unfold FieldDropdown.validateOptions_.
    destruct (validateOptions_loop_cases tuples false)
      as [[Hv' _]|[_ [-> | ->]]]; [congruence|left|right]; reflexivity.
  - reflexivity.
Qed.

Lemma substring_length (s : string) :
  forall n m,
    String.length (String.substring n m s)
    = Nat.min m (String.length s - n).
Proof.
  induction s as [|c s IH]; intros n m.
  - destruct n, m; reflexivity.
  - destruct n as [|n].
    + destruct m as [|m]; [reflexivity|].
      cbn [String.substring String.length]. rewrite IH.
      rewrite Nat.sub_0_r. reflexivity.
    + cbn [String.substring String.length]. now rewrite IH.
Qed.

Lemma substring_app (s : string) :
  forall n m1 m2,
    String.substring n (m1 + m2) s
    = (String.substring n m1 s ++ String.substring (n + m1) m2 s)%string.
Proof.
  induction s as [|c s IH]; intros n m1 m2.
  - destruct n, m1, m2; reflexivity.
  - destruct n as [|n].
    + destruct m1 as [|m1]; [reflexivity|].
      cbn [String.substring Nat.add String.append]. now rewrite IH.
    + cbn [String.substring Nat.add]. apply IH.
Qed.

Lemma substring_all (s : string) :
  String.substring 0 (String.length s) s = s.
Proof.
  induction s as [|c s IH]; [reflexivity|].
  cbn [String.substring String.length]. now rewrite IH.
Qed.

(** applyTrim_ cuts the same number of characters off every text and
    nothing else: it returns as many options, with the values as they
    were, and when a text is at least as long as the prefix and the suffix
    together, the text is the prefix it had, then the new text, then the
    suffix it had. When a text is shorter than that, the new text is not
    empty: [substring] swaps its two indices, and the new text is the
    part that the prefix and the suffix share. *)
Theorem applyTrim_cuts_prefix_and_suffix :
  forall (V : Type) (options : list (string * V))
         (prefixLength suffixLength : Z),
    0 <= prefixLength -> 0 <= suffixLength ->
    Forall2 (fun old new =>
               let text := fst old in
               let len := Z.of_nat (String.length text) in
               snd new = snd old /\
               (prefixLength + suffixLength <= len ->
                text = (JS.substring text 0 prefixLength ++ fst new
                        ++ JS.substring text (len - suffixLength) len)%string
                /\
                Z.of_nat (String.length (fst new))
                = len - prefixLength - suffixLength) /\
               (prefixLength <= len -> suffixLength <= len ->
                len < prefixLength + suffixLength ->
                fst new = JS.substring text (len - suffixLength) prefixLength
                /\
                Z.of_nat (String.length (fst new))
                = prefixLength + suffixLength - len))
      options (FieldDropdown.applyTrim_ options prefixLength suffixLength).
Proof.
  intros V options p s Hp Hs. unfold FieldDropdown.applyTrim_.
  induction options as [|[text value] options IH]; [constructor|].
  cbn [map]. constructor; [|exact IH]. cbn [fst snd].
  split; [reflexivity|]. unfold JS.substring.
  set (len := Z.of_nat (String.length text)).
  assert (Hlen : 0 <= len) by (subst len; lia).
  split.
  - intros Hfit.
    replace (Z.max 0 (Z.min 0 len)) with 0 by lia.
    replace (Z.max 0 (Z.min p len)) with p by lia.
    replace (Z.max 0 (Z.min (len - s) len)) with (len - s) by lia.
    replace (Z.max 0 (Z.min len len)) with len by lia.
    replace (Z.min 0 p) with 0 by lia.
    replace (Z.max 0 p - 0) with p by lia.
    replace (Z.min p (len - s)) with p by lia.
    replace (Z.max p (len - s) - p) with (len - s - p) by lia.
    replace (Z.min (len - s) len) with (len - s) by lia.
    replace (Z.max (len - s) len - (len - s)) with s by lia.
    split.
    + rewrite <- (substring_all text) at 1.
      replace (String.length text)
        with (Z.to_nat p + (Z.to_nat (len - s - p) + Z.to_nat s))%nat
        by (subst len; lia).
      rewrite !substring_app. cbn [Z.to_nat Nat.add].
      do 3 f_equal. subst len. lia.
    + rewrite substring_length. subst len. lia.
  - intros Hpl Hsl Hover.
    replace (Z.max 0 (Z.min p len)) with p by lia.
    replace (Z.max 0 (Z.min (len - s) len)) with (len - s) by lia.
    replace (Z.min p (len - s)) with (len - s) by lia.
    replace (Z.max p (len - s) - (len - s)) with (p + s - len) by lia.
    replace (Z.min (len - s) p) with (len - s) by lia.
    replace (Z.max (len - s) p - (len - s)) with (p + s - len) by lia.
    split; [reflexivity|]. rewrite substring_length. subst len. lia.
Qed.

Lemma applyTrim_cuts_prefix_and_suffix_witness :
  FieldDropdown.applyTrim_ [("set x to 1", 1); ("set x to 22", 2)] 4 0
  = [("x to 1", 1); ("x to 22", 2)] /\
  FieldDropdown.applyTrim_ [("abc", 1)] 2 2 = [("b", 1)] /\
  Forall2 (fun old new => snd new = snd old)
    [("set x to 1", 1); ("set x to 22", 2)]
    (FieldDropdown.applyTrim_ [("set x to 1", 1); ("set x to 22", 2)] 4 0).
Proof.
  split; [reflexivity|]. split; [reflexivity|].
  eapply Forall2_impl;
    [|apply (applyTrim_cuts_prefix_and_suffix Z
               [("set x to 1", 1); ("set x to 22", 2)] 4 0); lia].
  intros old new H. exact (proj1 H).
Defined.

(** doClassValidation_ accepts a new value exactly when it is the value of
    one of the options and is not the empty string: it returns the value
    then, and [null] for every other value, for no value, and for the
    empty string even when an option has it as its value. *)
Theorem doClassValidation_accepts_option_values :
  forall (L : Type) (this : FieldDropdown.t L) (opt_newValue : option string),
    (forall value,
        FieldDropdown.doClassValidation_ this opt_newValue = Some value <->
        opt_newValue = Some value /\ value <> "" /\
        In value (map snd (FieldDropdown.getOptions this))) /\
    FieldDropdown.doClassValidation_ this None = None /\
    FieldDropdown.doClassValidation_ this (Some "") = None.
Proof.
  intros L this opt_newValue. split; [|split].
  - intros value. unfold FieldDropdown.doClassValidation_.
    destruct opt_newValue as [newValue|].
    2:{ rewrite Bool.if_negb.
        destruct (existsb _ _); split; try discriminate;
          intros [H _]; discriminate. }
    destruct (existsb _ (FieldDropdown.getOptions this)) eqn:Hvalid;
      cbn [negb].
    + apply existsb_exists in Hvalid. destruct Hvalid as (o & Ho & Heq).
      apply String.eqb_eq in Heq.
      destruct (String.eqb newValue "") eqn:Hempty.
      * apply String.eqb_eq in Hempty. subst newValue.
        split; [discriminate|]. intros (H & Hne & _).
        injection H as <-. now destruct Hne.
      * apply String.eqb_neq in Hempty. split.
        -- intros H. injection H as <-. split; [reflexivity|].
           split; [exact Hempty|]. rewrite <- Heq. now apply in_map.
        -- now intros (-> & _ & _).
    + split; [discriminate|]. intros (H & _ & Hin). injection H as ->.
      apply in_map_iff in Hin. destruct Hin as (o & Ho & Hin).
      assert (Hex : existsb (fun option => String.eqb (snd option) value)
                      (FieldDropdown.getOptions this) = true).
      { apply existsb_exists. exists o. split; [exact Hin|].
        now apply String.eqb_eq. }
      congruence.
  - unfold FieldDropdown.doClassValidation_.
    now destruct (negb _).
  - unfold FieldDropdown.doClassValidation_.
    now destruct (negb _).
Qed.

(** ** The move options of a workspace *)

(** parseMoveOptions_ turns the wheel and the drag off whenever the
    scrollbars are off: in the options it returns, [wheel] and [drag] are
    set only if [scrollbars] is. With scrollbars on, [drag] is on unless
    the [move] option sets it to a falsy value, and [wheel] is on only if
    the [move] option sets it to a truthy one. When neither the [move]
    option nor the options say anything about scrollbars, there are
    scrollbars exactly when the workspace has categories. The function
    throws only for options that are [undefined] or [null]. *)
Theorem move_options_need_scrollbars :
  forall (options : JS.Value) (hasCategories : bool),
    (options = JS.undefined \/ options = JS.null ->
     Options.parseMoveOptions_ options hasCategories = Throw TypeError) /\
    (options <> JS.undefined -> options <> JS.null ->
     exists (moveOptions : Options.MoveOptions)
            (move moveWheel moveDrag : JS.Value),
       Options.parseMoveOptions_ options hasCategories = Normal moveOptions /\
       (exists optionsMove,
           JS.get options "move" = Normal optionsMove /\
           move = JS.or optionsMove (JS.object [])) /\
       JS.get move "wheel" = Normal moveWheel /\
       JS.get move "drag" = Normal moveDrag /\
       (Options.wheel moveOptions = true ->
        Options.scrollbars moveOptions = true) /\
       (Options.drag moveOptions = true ->
        Options.scrollbars moveOptions = true) /\
       Options.wheel moveOptions
       = Options.scrollbars moveOptions && JS.truthy moveWheel /\
       Options.drag moveOptions
       = Options.scrollbars moveOptions
         && (JS.isUndefined moveDrag || JS.truthy moveDrag) /\
       (JS.get move "scrollbars" = Normal JS.undefined ->
        JS.get options "scrollbars" = Normal JS.undefined ->
        Options.scrollbars moveOptions = hasCategories)).
Proof.
  intros options hasCategories. split.
  - intros [-> | ->]; reflexivity.
  - intros Hu Hn. unfold Options.parseMoveOptions_.
    assert (Hget : forall key,
               exists v, JS.get options key = Normal v).
    { intros key.
      destruct options; [now destruct Hu|now destruct Hn|..]; now eexists. }
    destruct (Hget "move") as [optionsMove HoptionsMove].
    destruct (Hget "scrollbars") as [optionsScrollbars Hos].
    rewrite HoptionsMove, Hos. cbn [bind].
    set (move := JS.or optionsMove (JS.object [])).
    assert (Hmove : forall key, exists v, JS.get move key = Normal v).
    { intros key. subst move. unfold JS.or.
      destruct optionsMove; cbn; try (now eexists).
      - destruct b; cbn; now eexists.
      - destruct (n =? 0); cbn; now eexists.
      - destruct (String.eqb s ""); cbn; now eexists. }
    destruct (Hmove "scrollbars") as [moveScrollbars Hms].
    destruct (Hmove "wheel") as [moveWheel Hmw].
    destruct (Hmove "drag") as [moveDrag Hmd].
    rewrite Hms, Hmw, Hmd. cbn [bind].
    eexists. exists move, moveWheel, moveDrag.
    split; [reflexivity|].
    split; [now exists optionsMove|].
    split; [exact Hmw|]. split; [exact Hmd|].
    cbn [Options.wheel Options.drag Options.scrollbars].
    set (scrollbars := if JS.isUndefined moveScrollbars && _ then _ else _).
    repeat split.
    + destruct scrollbars; [reflexivity|discriminate].
    + destruct scrollbars; [reflexivity|discriminate].
    + destruct scrollbars; cbn [negb orb andb]; [|reflexivity].
      now destruct moveWheel.
    + destruct scrollbars; cbn [negb andb]; [|reflexivity].
      now destruct moveDrag.
    + intros H1 H2. rewrite ?Hms in H1. rewrite ?Hos in H2.
      injection H1 as H1. injection H2 as H2. subst scrollbars.
      now rewrite H1, H2.
Qed.

Lemma move_options_need_scrollbars_witness :
  Options.parseMoveOptions_
    (JS.object [("move", JS.object [("wheel", JS.boolean true)])]) false
  = Normal {| Options.scrollbars := false; Options.wheel := false;
              Options.drag := false |} /\
  Options.parseMoveOptions_
    (JS.object [("scrollbars", JS.boolean true)]) false
  = Normal {| Options.scrollbars := true; Options.wheel := false;
              Options.drag := true |} /\
  exists moveOptions,
    Options.parseMoveOptions_ (JS.object []) true = Normal moveOptions /\
    Options.scrollbars moveOptions = true.
Proof.
  split; [reflexivity|]. split; [reflexivity|].
  destruct (move_options_need_scrollbars (JS.object []) true) as [_ H].
  destruct H as (moveOptions & move & moveWheel & moveDrag & H1
                 & (optionsMove & Hom & ->) & _ & _ & _ & _ & _ & _ & H2);
    try discriminate.
  injection Hom as <-.
  exists moveOptions. split; [exact H1|]. now apply H2.
Defined.

(** ** The smallest block *)

Lemma createRows_inputs_invisible (this : RenderInfo.t)
    (inputs : list Blockly.Input.t) :
  Forall (fun input => Blockly.Input.isVisible input = false) inputs ->
  forall st, fold_left (RenderInfo.createRows_input this) inputs st = st.
Proof.
  induction 1 as [|input inputs Hinput _ IH]; intros st; [reflexivity|].
  cbn [fold_left]. rewrite <- (IH st) at 2. f_equal.
  unfold RenderInfo.createRows_input. destruct st as [[rs row] last].
  now rewrite Hinput.
Qed.

(** A block that shows nothing between its top and its bottom (it is not
    collapsed, has no icon, and none of its inputs is visible) is measured
    as three rows: the top row, one spacer row, and the bottom row. No
    input row is made for it, the spacer row is MEDIUM_PADDING high and
    starts where the top row ends, the bottom row starts where the spacer
    row ends, and the height of the block is the sum of the three. *)
Theorem block_without_inputs_has_three_rows :
  forall (block : Blockly.Block.t) (constants : ConstantProvider.t),
    Blockly.Block.isCollapsed block = false ->
    Blockly.Block.getIcons block = [] ->
    Forall (fun input => Blockly.Input.isVisible input = false)
      (Blockly.Block.inputList block) ->
    exists (info : RenderInfo.t) (spacer : Row.t),
      RenderInfo.measure (RenderInfo.new block constants) = Normal info /\
      RenderInfo.rows info = [RTop; ROwn spacer; RBottom] /\
      Row.elements spacer <> [] /\
      Row.height spacer = ConstantProvider.MEDIUM_PADDING constants /\
      Row.yPos (RenderInfo.topRow info) = 0 /\
      Row.yPos spacer = Row.height (RenderInfo.topRow info) /\
      Row.yPos (RenderInfo.bottomRow info)
      = Row.height (RenderInfo.topRow info)
        + ConstantProvider.MEDIUM_PADDING constants /\
      RenderInfo.height info
      = Row.height (RenderInfo.topRow info)
        + ConstantProvider.MEDIUM_PADDING constants
        + Row.height (RenderInfo.bottomRow info).
Proof.
  intros block constants Hcollapsed Hicons Hinputs.
  unfold RenderInfo.measure.
  assert (Hrows : RenderInfo.createRows_ (RenderInfo.new block constants)
                  = RenderInfo.setHiddenIcons []
                      (RenderInfo.setRows [RTop; RBottom]
                         (blockRendering.populateTop block
                            blockRendering.TopRow)
                         (blockRendering.populateBottom block
                            blockRendering.BottomRow)
                         (RenderInfo.new block constants))).
  { unfold RenderInfo.createRows_.
    cbn [RenderInfo.block_ RenderInfo.new RenderInfo.isCollapsed
           RenderInfo.rows RenderInfo.hiddenIcons RenderInfo.topRow
           RenderInfo.bottomRow].
    rewrite Hicons, Hcollapsed. cbn [fold_left].
    rewrite (createRows_inputs_invisible _ _ Hinputs). reflexivity. }
  rewrite Hrows. clear Hrows.
  unfold RenderInfo.addElemSpacing_, RenderInfo.eachRow.
  cbn [RenderInfo.rows RenderInfo.topRow RenderInfo.bottomRow
         RenderInfo.setRows RenderInfo.setHiddenIcons forRowsPure fst snd].
  unfold RenderInfo.computeBounds_, RenderInfo.eachRowThrowing.
  cbn [RenderInfo.rows RenderInfo.topRow RenderInfo.bottomRow
         RenderInfo.setRows forRows bind].
  unfold RenderInfo.computeBounds_row at 1 2.
  cbn [Row.hasStatement Row.measure Row.setSize
         RenderInfo.addElemSpacing_row Row.setElements
         blockRendering.populateTop blockRendering.populateBottom
         blockRendering.TopRow blockRendering.BottomRow
         blockRendering.newRow bind].
  unfold RenderInfo.eachRow.
  cbn [RenderInfo.rows RenderInfo.topRow RenderInfo.bottomRow
         RenderInfo.setRows RenderInfo.setWidth RenderInfo.setStatementEdge
         forRowsPure fst snd Row.hasStatement].
  set (this3 := match RenderInfo.outputConnection _ with
                | Some oc => _
                | None => _
                end).
  assert (H3 : exists top3 bottom3 : Row.t,
             RenderInfo.rows this3 = [RTop; RBottom] /\
             RenderInfo.topRow this3 = top3 /\
             RenderInfo.bottomRow this3 = bottom3 /\
             Row.hasStatement top3 = false /\
             Row.hasStatement bottom3 = false /\
             RenderInfo.constants_ this3 = constants).
  { subst this3. destruct (RenderInfo.outputConnection _);
      do 2 eexists; repeat split; reflexivity. }
  destruct H3 as (top3 & bottom3 & Hrows3 & Htop3 & Hbottom3 & Hst & Hsb
                  & Hc3).
  clearbody this3.
  assert (H4 : exists (this4 : RenderInfo.t) (top4 bottom4 : Row.t),
             RenderInfo.alignRowElements_ this3 = Normal this4 /\
             RenderInfo.rows this4 = [RTop; RBottom] /\
             RenderInfo.topRow this4 = top4 /\
             RenderInfo.bottomRow this4 = bottom4 /\
             Row.hasStatement top4 = false /\
             RenderInfo.constants_ this4 = constants).
  { unfold RenderInfo.alignRowElements_, RenderInfo.eachRowThrowing.
    rewrite Hrows3, Htop3, Hbottom3. cbn [forRows].
    unfold RenderInfo.alignRowElements_row.
    rewrite Hst, Hsb.
    destruct (Row.hasInlineInput top3), (Row.hasInlineInput bottom3);
      cbn [negb bind];
      repeat match goal with
             | |- context [if negb (?x =? 0) then _ else _] =>
                 destruct (negb (x =? 0)); cbn [bind]
             end;
      do 3 eexists; (split; [reflexivity|]);
      cbn [RenderInfo.rows RenderInfo.topRow RenderInfo.bottomRow
             RenderInfo.constants_ RenderInfo.setRows];
      repeat split;
      rewrite ?(proj1 (proj2 (addAlignmentPadding_flags _ _)));
      assumption. }
  destruct H4 as (this4 & top4 & bottom4 & Hrun4 & Hrows4 & Htop4 & Hbottom4
                  & Hst4 & Hc4).
  rewrite Hrun4. cbn [bind].
  unfold RenderInfo.addRowSpacing_, RenderInfo.finalize_, RenderInfo.eachRow.
  cbn [RenderInfo.rows RenderInfo.topRow RenderInfo.bottomRow
         RenderInfo.setRows].
  rewrite Hrows4, Htop4, Hbottom4.
  cbn [RenderInfo.interleaveSpacers RenderInfo.getRow].
  rewrite Htop4, Hbottom4.
  unfold RenderInfo.makeSpacerRow_, RenderInfo.getSpacerRowHeight_.
  rewrite Hst4, Hc4.
  cbn [forRowsPure RenderInfo.finalize_row fst snd].
  do 2 eexists. split; [reflexivity|].
  cbn [RenderInfo.rows RenderInfo.topRow RenderInfo.bottomRow
         RenderInfo.height RenderInfo.setRows RenderInfo.setHeight
         RenderInfo.setStartY RenderInfo.setWidthWithChildren].
  split; [reflexivity|].
  cbn [Row.elements Row.height Row.yPos Row.setPosition Row.setElements
         Row.setSize blockRendering.SpacerRow RenderInfo.placeElems].
  repeat split; try discriminate; try lia.
Qed.

Lemma block_without_inputs_has_three_rows_witness :
  exists (info : RenderInfo.t) (spacer : Row.t),
    RenderInfo.measure (RenderInfo.new hiddenInputBlock sampleConstants)
    = Normal info /\
    RenderInfo.rows info = [RTop; ROwn spacer; RBottom] /\
    Row.height spacer = 5.
Proof.
  destruct (block_without_inputs_has_three_rows hiddenInputBlock
              sampleConstants)
    as (info & spacer & Hrun & Hrows & _ & Hheight & _);
    [reflexivity|reflexivity|repeat constructor|].
  exists info, spacer. auto.
Defined.
